(** * KalypsoServing: the three reconcilers over a model of the cluster API

    A shallow embedding of the controllers of KalypsoServing
    (KalypsoProject, KalypsoApplication, KalypsoTritonServer) and of the
    part of the Kubernetes client they call.  The cluster is a record of
    finite maps, one per object kind; a reconcile is a state-passing
    function over it.  Failures of the API server that do not follow from
    the stored objects (conflicts raised by concurrent writers, network
    errors) come from a fault schedule held in the state: every API call
    consumes one entry of it. *)

From stdpp Require Import gmap strings list fin_maps pretty.

Open Scope string_scope.
Open Scope Z_scope.

(** ** Errors of the API machinery *)

Inductive error : Type :=
  | ErrNotFound
  | ErrConflict
  | ErrAlreadyExists
  | ErrAlreadyOwned
  | ErrOther (msg : string).

#[global] Instance error_eq_dec : EqDecision error.
Proof. solve_decision. Defined.

(** [errors.IsNotFound], [errors.IsConflict] *)
Definition IsNotFound (e : error) : bool := bool_decide (e = ErrNotFound).
Definition IsConflict (e : error) : bool := bool_decide (e = ErrConflict).

(** The text [%v] prints for an error. *)
Definition Error (e : error) : string :=
  match e with
  | ErrNotFound => "not found"
  | ErrConflict => "the object has been modified; please apply your changes to the latest version and try again"
  | ErrAlreadyExists => "already exists"
  | ErrAlreadyOwned => "Object is already owned by another controller"
  | ErrOther msg => msg
  end.

(** ** Object metadata *)

(** Namespace and name of an object; cluster-scoped objects have the empty
    namespace, as [client.ObjectKey{Name: n}] has. *)
Abbreviation Key := (string * string)%type.

Record OwnerReference := mkOwnerReference {
  ownerKind : string;
  ownerName : string;
  ownerController : bool
}.

#[global] Instance OwnerReference_eq_dec : EqDecision OwnerReference.
Proof. solve_decision. Defined.

Record ObjectMeta := mkObjectMeta {
  Name : string;
  Namespace : string;
  Labels : gmap string string;
  Finalizers : list string;
  DeletionTimestamp : option nat;
  OwnerReferences : list OwnerReference
}.

#[global] Instance ObjectMeta_eq_dec : EqDecision ObjectMeta.
Proof. solve_decision. Defined.

Definition emptyMeta (ns name : string) : ObjectMeta :=
  mkObjectMeta name ns ∅ [] None [].

Definition withLabels (l : gmap string string) (m : ObjectMeta) : ObjectMeta :=
  mkObjectMeta (Name m) (Namespace m) l (Finalizers m) (DeletionTimestamp m)
    (OwnerReferences m).

Definition withFinalizers (f : list string) (m : ObjectMeta) : ObjectMeta :=
  mkObjectMeta (Name m) (Namespace m) (Labels m) f (DeletionTimestamp m)
    (OwnerReferences m).

Definition withDeletionTimestamp (t : option nat) (m : ObjectMeta) : ObjectMeta :=
  mkObjectMeta (Name m) (Namespace m) (Labels m) (Finalizers m) t
    (OwnerReferences m).

Definition withOwnerReferences (o : list OwnerReference) (m : ObjectMeta) : ObjectMeta :=
  mkObjectMeta (Name m) (Namespace m) (Labels m) (Finalizers m)
    (DeletionTimestamp m) o.

Definition objKey (m : ObjectMeta) : Key := (Namespace m, Name m).

(** [m[k]] on a Go map of strings: the zero value when the key is absent. *)
Definition labelOf (l : gmap string string) (k : string) : string :=
  default "" (l !! k).

(** [for k, v := range src { dst[k] = v }] *)
Definition setLabels (src dst : gmap string string) : gmap string string :=
  src ∪ dst.

(** *** controllerutil: finalizers *)

Definition ContainsFinalizer (m : ObjectMeta) (f : string) : bool :=
  bool_decide (f ∈ Finalizers m).

Definition AddFinalizer (m : ObjectMeta) (f : string) : ObjectMeta :=
  if ContainsFinalizer m f then m else withFinalizers (Finalizers m ++ [f]) m.

Definition RemoveFinalizer (m : ObjectMeta) (f : string) : ObjectMeta :=
  withFinalizers (filter (λ g, g ≠ f) (Finalizers m)) m.

(** *** controllerutil.SetControllerReference

    The owner becomes the controller owner of the object; an object that
    another controller already owns is refused. *)
Definition sameOwner (a b : OwnerReference) : bool :=
  bool_decide (ownerKind a = ownerKind b ∧ ownerName a = ownerName b).

Fixpoint upsertOwnerRef (r : OwnerReference) (l : list OwnerReference) : list OwnerReference :=
  match l with
  | [] => [r]
  | x :: rest => if sameOwner x r then r :: rest else x :: upsertOwnerRef r rest
  end.

Definition SetControllerReference (kind name : string) (m : ObjectMeta) : error + ObjectMeta :=
  let r := mkOwnerReference kind name true in
  match List.find (λ x, ownerController x) (OwnerReferences m) with
  | Some x =>
      if sameOwner x r then inr (withOwnerReferences (upsertOwnerRef r (OwnerReferences m)) m)
      else inl ErrAlreadyOwned
  | None => inr (withOwnerReferences (upsertOwnerRef r (OwnerReferences m)) m)
  end.

(** ** Status conditions *)

Inductive ConditionStatus := ConditionTrue | ConditionFalse | ConditionUnknown.

#[global] Instance ConditionStatus_eq_dec : EqDecision ConditionStatus.
Proof. solve_decision. Defined.

Record Condition := mkCondition {
  condType : string;
  condStatus : ConditionStatus;
  condReason : string;
  condMessage : string;
  condLastTransitionTime : nat
}.

#[global] Instance Condition_eq_dec : EqDecision Condition.
Proof. solve_decision. Defined.

(** [meta.FindStatusCondition]: the first condition of the given type. *)
Definition FindStatusCondition (cs : list Condition) (t : string) : option Condition :=
  List.find (λ c, bool_decide (condType c = t)) cs.

(** [meta.SetStatusCondition]: append a condition of a new type; for a type
    already present, overwrite status, reason and message in place, moving
    the transition time only when the status changes. *)
Fixpoint SetStatusCondition (cs : list Condition) (c : Condition) : list Condition :=
  match cs with
  | [] => [c]
  | e :: rest =>
      if bool_decide (condType e = condType c) then
        mkCondition (condType e) (condStatus c) (condReason c) (condMessage c)
          (if bool_decide (condStatus e = condStatus c)
           then condLastTransitionTime e else condLastTransitionTime c) :: rest
      else e :: SetStatusCondition rest c
  end.

(** ** Generated child objects (core/v1, apps/v1) *)

(** A [resource.Quantity] is kept as its text. *)
Abbreviation ResourceList := (gmap string string).

Record Namespace_ := mkNamespace {
  nsMeta : ObjectMeta
}.

Record ResourceQuota := mkResourceQuota {
  rqMeta : ObjectMeta;
  rqHard : ResourceList
}.

Record LimitRangeItem := mkLimitRangeItem {
  lriType : string;
  lriMax : ResourceList;
  lriMin : ResourceList;
  lriDefault : ResourceList;
  lriDefaultRequest : ResourceList
}.

Record LimitRange := mkLimitRange {
  lrMeta : ObjectMeta;
  lrLimits : list LimitRangeItem
}.

Record ResourceRequirements := mkResourceRequirements {
  rrLimits : ResourceList;
  rrRequests : ResourceList
}.

Record EnvVar := mkEnvVar { evName : string; evValue : string }.

Record ContainerPort := mkContainerPort {
  cpName : string;
  cpContainerPort : Z;
  cpProtocol : string
}.

Record Probe := mkProbe {
  probePath : string;
  probePort : Z;
  probeInitialDelaySeconds : Z;
  probePeriodSeconds : Z
}.

Record Container := mkContainer {
  cName : string;
  cImage : string;
  cArgs : list string;
  cEnv : list EnvVar;
  cEnvFrom : list string;   (* names of the secrets of the SecretRef sources *)
  cPorts : list ContainerPort;
  cReadinessProbe : option Probe;
  cLivenessProbe : option Probe;
  cResources : ResourceRequirements
}.

Record PodTemplateSpec := mkPodTemplateSpec {
  ptLabels : gmap string string;
  ptAnnotations : gmap string string;
  ptContainers : list Container
}.

Record Deployment := mkDeployment {
  dMeta : ObjectMeta;
  dReplicas : option Z;
  dSelector : option (gmap string string);
  dTemplate : PodTemplateSpec;
  dAvailableReplicas : Z      (* Status.AvailableReplicas *)
}.

Record ServicePort := mkServicePort {
  spName : string;
  spPort : Z;
  spTargetPort : string;
  spProtocol : string
}.

Record Service := mkService {
  sMeta : ObjectMeta;
  sSelector : gmap string string;
  sPorts : list ServicePort;
  sType : string;
  sClusterIP : string
}.

#[global] Instance Namespace_eq_dec : EqDecision Namespace_.
Proof. solve_decision. Defined.
#[global] Instance ResourceQuota_eq_dec : EqDecision ResourceQuota.
Proof. solve_decision. Defined.
#[global] Instance LimitRangeItem_eq_dec : EqDecision LimitRangeItem.
Proof. solve_decision. Defined.
#[global] Instance LimitRange_eq_dec : EqDecision LimitRange.
Proof. solve_decision. Defined.
#[global] Instance ResourceRequirements_eq_dec : EqDecision ResourceRequirements.
Proof. solve_decision. Defined.
#[global] Instance EnvVar_eq_dec : EqDecision EnvVar.
Proof. solve_decision. Defined.
#[global] Instance ContainerPort_eq_dec : EqDecision ContainerPort.
Proof. solve_decision. Defined.
#[global] Instance Probe_eq_dec : EqDecision Probe.
Proof. solve_decision. Defined.
#[global] Instance Container_eq_dec : EqDecision Container.
Proof. solve_decision. Defined.
#[global] Instance PodTemplateSpec_eq_dec : EqDecision PodTemplateSpec.
Proof. solve_decision. Defined.
#[global] Instance Deployment_eq_dec : EqDecision Deployment.
Proof. solve_decision. Defined.
#[global] Instance ServicePort_eq_dec : EqDecision ServicePort.
Proof. solve_decision. Defined.
#[global] Instance Service_eq_dec : EqDecision Service.
Proof. solve_decision. Defined.

(** ** api/v1alpha1: KalypsoProject *)

Record LimitRangeSpec := mkLimitRangeSpec {
  lrsLimits : list LimitRangeItem
}.

Record ResourceQuotaSpec := mkResourceQuotaSpec {
  rqsLimits : ResourceList;
  rqsRequests : ResourceList
}.

Record EnvironmentSpec := mkEnvironmentSpec {
  envNamespace : string;
  envDescription : string;
  envLimitRange : option LimitRangeSpec;
  envResourceQuota : option ResourceQuotaSpec
}.

Record ModelRegistrySpec := mkModelRegistrySpec {
  mrURL : string;
  mrSecretRef : string
}.

Record KalypsoProjectSpec := mkKalypsoProjectSpec {
  projDisplayName : string;
  projOwner : string;
  projEnvironments : gmap string EnvironmentSpec;
  projModelRegistry : option ModelRegistrySpec
}.

(** [ProjectPhase] is a string type in the source; the empty string is the
    phase of a Project that was never reconciled. *)
Definition ProjectPhaseProvisioning : string := "Provisioning".
Definition ProjectPhaseReady : string := "Ready".
Definition ProjectPhaseFailed : string := "Failed".

Record KalypsoProjectStatus := mkKalypsoProjectStatus {
  projPhase : string;
  projConditions : list Condition;
  projCreatedNamespaces : list string
}.

Record KalypsoProject := mkKalypsoProject {
  projMeta : ObjectMeta;
  projSpec : KalypsoProjectSpec;
  projStatus : KalypsoProjectStatus
}.

(** ** api/v1alpha1: KalypsoApplication *)

Record GitSourceSpec := mkGitSourceSpec {
  gitRepository : string;
  gitBranch : string;
  gitBuildWorkflow : string
}.

Record StorageSpec := mkStorageSpec {
  stSecretName : string;
  stRegion : string;
  stEndpoint : string
}.

Record KalypsoApplicationSpec := mkKalypsoApplicationSpec {
  appProjectRef : string;
  appDescription : string;
  appSource : option GitSourceSpec;
  appStorage : option StorageSpec
}.

Definition ApplicationPhasePending : string := "Pending".
Definition ApplicationPhaseReady : string := "Ready".
Definition ApplicationPhaseFailed : string := "Failed".

Record KalypsoApplicationStatus := mkKalypsoApplicationStatus {
  appPhase : string;
  appActiveModels : Z;
  appGatewayEndpoint : string;
  appConditions : list Condition
}.

Record KalypsoApplication := mkKalypsoApplication {
  appMeta : ObjectMeta;
  appSpec : KalypsoApplicationSpec;
  appStatus : KalypsoApplicationStatus
}.

(** ** api/v1alpha1: KalypsoTritonServer *)

Record LoggingSpec := mkLoggingSpec {
  logEnabled : bool;
  logLevel : string
}.

Record TracingSpec := mkTracingSpec {
  trEnabled : bool;
  trSamplingRate : string
}.

Record ProfileTypes := mkProfileTypes {
  prCPU : bool;
  prMemory : bool
}.

Record ProfilingSpec := mkProfilingSpec {
  pfEnabled : bool;
  pfProfiles : option ProfileTypes
}.

Record MetricsSpec := mkMetricsSpec {
  mtEnabled : bool;
  mtInterval : string;
  mtEnableServiceMonitor : bool
}.

Record ObservabilitySpec := mkObservabilitySpec {
  obsEnabled : bool;
  obsCollectorEndpoint : string;
  obsLogging : option LoggingSpec;
  obsTracing : option TracingSpec;
  obsProfiling : option ProfilingSpec;
  obsMetrics : option MetricsSpec
}.

Record TritonParameter := mkTritonParameter {
  paramName : string;
  paramValue : string
}.

Record PythonBackendSpec := mkPythonBackendSpec {
  pbShmDefaultByteSize : option Z;
  pbExtraArgs : gmap string string
}.

Record TritonConfigSpec := mkTritonConfigSpec {
  tcImage : string;
  tcTag : string;
  tcParameters : list TritonParameter;
  tcBackendType : string;
  tcPythonBackend : option PythonBackendSpec
}.

Record NetworkingSpec := mkNetworkingSpec {
  netHttpPort : option Z;
  netGrpcPort : option Z;
  netMetricsPort : option Z
}.

Record KalypsoTritonServerSpec := mkKalypsoTritonServerSpec {
  srvApplicationRef : string;
  srvStorageUri : string;
  srvTritonConfig : TritonConfigSpec;
  srvReplicas : option Z;
  srvResources : option ResourceRequirements;
  srvNetworking : option NetworkingSpec;
  srvObservability : option ObservabilitySpec
}.

Definition TritonServerPhasePending : string := "Pending".
Definition TritonServerPhaseRunning : string := "Running".
Definition TritonServerPhaseFailed : string := "Failed".

Record KalypsoTritonServerStatus := mkKalypsoTritonServerStatus {
  srvPhase : string;
  srvDeploymentName : string;
  srvServiceEndpoint : string;
  srvAvailableReplicas : Z;
  srvMessage : string;
  srvConditions : list Condition
}.

Record KalypsoTritonServer := mkKalypsoTritonServer {
  srvMeta : ObjectMeta;
  srvSpec : KalypsoTritonServerSpec;
  srvStatus : KalypsoTritonServerStatus
}.

(** ** The cluster and the client *)

Inductive Kind :=
  | KProject | KApplication | KTritonServer
  | KNamespace | KResourceQuota | KLimitRange | KDeployment | KService.

Inductive Verb := VGet | VList | VCreate | VUpdate | VStatusUpdate | VDelete.

#[global] Instance Kind_eq_dec : EqDecision Kind.
Proof. solve_decision. Defined.
#[global] Instance Verb_eq_dec : EqDecision Verb.
Proof. solve_decision. Defined.

(** One request sent to the API server, with the error it came back with. *)
Record ApiCall := mkApiCall {
  callVerb : Verb;
  callKind : Kind;
  callKey : Key;
  callError : option error
}.

#[global] Instance ApiCall_eq_dec : EqDecision ApiCall.
Proof. solve_decision. Defined.

(** A line of the controller log; the key/value pairs are dropped. *)
Inductive LogEntry := LogInfo (msg : string) | LogError (msg : string).

(** The state a reconcile runs in.  [calls] and [logs] grow at the head:
    the most recent entry comes first. *)
Record World := mkWorld {
  projects : gmap Key KalypsoProject;
  applications : gmap Key KalypsoApplication;
  servers : gmap Key KalypsoTritonServer;
  namespaces : gmap Key Namespace_;
  quotas : gmap Key ResourceQuota;
  limitRanges : gmap Key LimitRange;
  deployments : gmap Key Deployment;
  services : gmap Key Service;
  faults : list (option error);
  calls : list ApiCall;
  logs : list LogEntry;
  clock : nat
}.

Definition setFaults (f : list (option error)) (w : World) : World :=
  mkWorld (projects w) (applications w) (servers w) (namespaces w) (quotas w)
    (limitRanges w) (deployments w) (services w) f (calls w) (logs w) (clock w).

Definition record (c : ApiCall) (w : World) : World :=
  mkWorld (projects w) (applications w) (servers w) (namespaces w) (quotas w)
    (limitRanges w) (deployments w) (services w) (faults w) (c :: calls w)
    (logs w) (clock w).

Definition writeLog (l : LogEntry) (w : World) : World :=
  mkWorld (projects w) (applications w) (servers w) (namespaces w) (quotas w)
    (limitRanges w) (deployments w) (services w) (faults w) (calls w)
    (l :: logs w) (clock w).

(** What the client needs to know of an object kind: where its objects are
    stored, and what a write through the main resource and through the
    status subresource replaces.  The three custom resources and the
    Deployment have a status subresource: [Update] leaves the stored status
    alone and [Status().Update] writes nothing else. *)
Class Object (A : Type) := {
  kindOf : Kind;
  metaOf : A → ObjectMeta;
  setMeta : ObjectMeta → A → A;
  store : World → gmap Key A;
  setStore : gmap Key A → World → World;
  onUpdate : A → A → A;
  onStatusUpdate : A → A → A;
  store_setStore : ∀ s w, store (setStore s w) = s;
  faults_setStore : ∀ s w, faults (setStore s w) = faults w;
  calls_setStore : ∀ s w, calls (setStore s w) = calls w;
  logs_setStore : ∀ s w, logs (setStore s w) = logs w;
  clock_setStore : ∀ s w, clock (setStore s w) = clock w;
  store_setFaults : ∀ f w, store (setFaults f w) = store w;
  store_record : ∀ c w, store (record c w) = store w;
  store_writeLog : ∀ l w, store (writeLog l w) = store w;
  (* the world without what a request on this kind can change *)
  others : World → World;
  others_setStore : ∀ s w, others (setStore s w) = others w;
  others_setFaults : ∀ f w, others (setFaults f w) = others w;
  others_record : ∀ c w, others (record c w) = others w
}.

#[global, refine] Instance Project_Object : Object KalypsoProject := {|
  kindOf := KProject;
  metaOf := projMeta;
  setMeta m o := mkKalypsoProject m (projSpec o) (projStatus o);
  store := projects;
  setStore s w :=
    mkWorld s (applications w) (servers w) (namespaces w) (quotas w)
      (limitRanges w) (deployments w) (services w) (faults w) (calls w)
      (logs w) (clock w);
  onUpdate old new := mkKalypsoProject (projMeta new) (projSpec new) (projStatus old);
  onStatusUpdate old new := mkKalypsoProject (projMeta old) (projSpec old) (projStatus new);
  others w :=
    mkWorld ∅ (applications w) (servers w) (namespaces w) (quotas w)
      (limitRanges w) (deployments w) (services w) [] [] (logs w) (clock w)
|}.
Proof. all: reflexivity. Defined.

#[global, refine] Instance Application_Object : Object KalypsoApplication := {|
  kindOf := KApplication;
  metaOf := appMeta;
  setMeta m o := mkKalypsoApplication m (appSpec o) (appStatus o);
  store := applications;
  setStore s w :=
    mkWorld (projects w) s (servers w) (namespaces w) (quotas w)
      (limitRanges w) (deployments w) (services w) (faults w) (calls w)
      (logs w) (clock w);
  onUpdate old new := mkKalypsoApplication (appMeta new) (appSpec new) (appStatus old);
  onStatusUpdate old new := mkKalypsoApplication (appMeta old) (appSpec old) (appStatus new);
  others w :=
    mkWorld (projects w) ∅ (servers w) (namespaces w) (quotas w)
      (limitRanges w) (deployments w) (services w) [] [] (logs w) (clock w)
|}.
Proof. all: reflexivity. Defined.

#[global, refine] Instance TritonServer_Object : Object KalypsoTritonServer := {|
  kindOf := KTritonServer;
  metaOf := srvMeta;
  setMeta m o := mkKalypsoTritonServer m (srvSpec o) (srvStatus o);
  store := servers;
  setStore s w :=
    mkWorld (projects w) (applications w) s (namespaces w) (quotas w)
      (limitRanges w) (deployments w) (services w) (faults w) (calls w)
      (logs w) (clock w);
  onUpdate old new := mkKalypsoTritonServer (srvMeta new) (srvSpec new) (srvStatus old);
  onStatusUpdate old new := mkKalypsoTritonServer (srvMeta old) (srvSpec old) (srvStatus new);
  others w :=
    mkWorld (projects w) (applications w) ∅ (namespaces w) (quotas w)
      (limitRanges w) (deployments w) (services w) [] [] (logs w) (clock w)
|}.
Proof. all: reflexivity. Defined.

#[global, refine] Instance Namespace_Object : Object Namespace_ := {|
  kindOf := KNamespace;
  metaOf := nsMeta;
  setMeta m o := mkNamespace m;
  store := namespaces;
  setStore s w :=
    mkWorld (projects w) (applications w) (servers w) s (quotas w)
      (limitRanges w) (deployments w) (services w) (faults w) (calls w)
      (logs w) (clock w);
  onUpdate old new := new;
  onStatusUpdate old new := old;
  others w :=
    mkWorld (projects w) (applications w) (servers w) ∅ (quotas w)
      (limitRanges w) (deployments w) (services w) [] [] (logs w) (clock w)
|}.
Proof. all: reflexivity. Defined.

#[global, refine] Instance ResourceQuota_Object : Object ResourceQuota := {|
  kindOf := KResourceQuota;
  metaOf := rqMeta;
  setMeta m o := mkResourceQuota m (rqHard o);
  store := quotas;
  setStore s w :=
    mkWorld (projects w) (applications w) (servers w) (namespaces w) s
      (limitRanges w) (deployments w) (services w) (faults w) (calls w)
      (logs w) (clock w);
  onUpdate old new := new;
  onStatusUpdate old new := old;
  others w :=
    mkWorld (projects w) (applications w) (servers w) (namespaces w) ∅
      (limitRanges w) (deployments w) (services w) [] [] (logs w) (clock w)
|}.
Proof. all: reflexivity. Defined.

#[global, refine] Instance LimitRange_Object : Object LimitRange := {|
  kindOf := KLimitRange;
  metaOf := lrMeta;
  setMeta m o := mkLimitRange m (lrLimits o);
  store := limitRanges;
  setStore s w :=
    mkWorld (projects w) (applications w) (servers w) (namespaces w) (quotas w)
      s (deployments w) (services w) (faults w) (calls w) (logs w) (clock w);
  onUpdate old new := new;
  onStatusUpdate old new := old;
  others w :=
    mkWorld (projects w) (applications w) (servers w) (namespaces w) (quotas w)
      ∅ (deployments w) (services w) [] [] (logs w) (clock w)
|}.
Proof. all: reflexivity. Defined.

#[global, refine] Instance Deployment_Object : Object Deployment := {|
  kindOf := KDeployment;
  metaOf := dMeta;
  setMeta m o :=
    mkDeployment m (dReplicas o) (dSelector o) (dTemplate o) (dAvailableReplicas o);
  store := deployments;
  setStore s w :=
    mkWorld (projects w) (applications w) (servers w) (namespaces w) (quotas w)
      (limitRanges w) s (services w) (faults w) (calls w) (logs w) (clock w);
  onUpdate old new :=
    mkDeployment (dMeta new) (dReplicas new) (dSelector new) (dTemplate new)
      (dAvailableReplicas old);
  onStatusUpdate old new :=
    mkDeployment (dMeta old) (dReplicas old) (dSelector old) (dTemplate old)
      (dAvailableReplicas new);
  others w :=
    mkWorld (projects w) (applications w) (servers w) (namespaces w) (quotas w)
      (limitRanges w) ∅ (services w) [] [] (logs w) (clock w)
|}.
Proof. all: reflexivity. Defined.

#[global, refine] Instance Service_Object : Object Service := {|
  kindOf := KService;
  metaOf := sMeta;
  setMeta m o := mkService m (sSelector o) (sPorts o) (sType o) (sClusterIP o);
  store := services;
  setStore s w :=
    mkWorld (projects w) (applications w) (servers w) (namespaces w) (quotas w)
      (limitRanges w) (deployments w) s (faults w) (calls w) (logs w) (clock w);
  onUpdate old new := new;
  onStatusUpdate old new := old;
  others w :=
    mkWorld (projects w) (applications w) (servers w) (namespaces w) (quotas w)
      (limitRanges w) (deployments w) ∅ [] [] (logs w) (clock w)
|}.
Proof. all: reflexivity. Defined.

(** *** The state monad of a reconcile *)

Definition M (A : Type) : Type := World → A * World.

#[global] Instance M_ret : MRet M := λ A x w, (x, w).
#[global] Instance M_bind : MBind M := λ A B f m w, let '(x, w') := m w in f x w'.

Definition logInfo (msg : string) : M unit := λ w, (tt, writeLog (LogInfo msg) w).
Definition logError (msg : string) : M unit := λ w, (tt, writeLog (LogError msg) w).

(** [metav1.Now()] *)
Definition Now : M nat := λ w, (clock w, w).

(** *** Requests

    A request first consumes the next entry of the fault schedule.  When
    the entry holds an error the request fails with it and changes nothing;
    otherwise (or when the schedule is exhausted) the API server answers
    from the stored objects.  Either way the request is recorded. *)
Definition errorOf {A} (r : error + A) : option error :=
  match r with inl e => Some e | inr _ => None end.

Definition request {A} (v : Verb) (k : Kind) (key : Key)
    (serve : World → (error + A) * World) : M (error + A) := λ w,
  match faults w with
  | Some e :: fs => (inl e, record (mkApiCall v k key (Some e)) (setFaults fs w))
  | fs =>
      let '(r, w') := serve (setFaults (tail fs) w) in
      (r, record (mkApiCall v k key (errorOf r)) w')
  end.

(** The API server answers a read with the object stored under the key,
    which carries the namespace and name it was asked for. *)
Definition named {A} `{Object A} (key : Key) (o : A) : A :=
  setMeta (mkObjectMeta key.2 key.1 (Labels (metaOf o)) (Finalizers (metaOf o))
             (DeletionTimestamp (metaOf o)) (OwnerReferences (metaOf o))) o.

Definition Get {A} `{Object A} (key : Key) : M (error + A) :=
  request VGet kindOf key (λ w,
    match store w !! key with
    | Some o => (inr (named key o), w)
    | None => (inl ErrNotFound, w)
    end).

(** [List] restricted with [client.InNamespace]. *)
Definition List_ {A} `{Object A} (ns : string) : M (error + list A) :=
  request VList kindOf (ns, "") (λ w,
    (inr ((λ kv, named kv.1 kv.2) <$>
            filter (λ kv, kv.1.1 = ns) (map_to_list (store w))), w)).

Definition Create {A} `{Object A} (o : A) : M (option error) :=
  r ← request VCreate kindOf (objKey (metaOf o)) (λ w,
    match store w !! objKey (metaOf o) with
    | Some _ => (inl ErrAlreadyExists, w)
    | None => (inr tt, setStore (<[objKey (metaOf o) := o]> (store w)) w)
    end);
  mret (errorOf r).

(** An object that is being deleted leaves the store with its last
    finalizer. *)
Definition put {A} `{Object A} (key : Key) (o : A) (w : World) : World :=
  if bool_decide (DeletionTimestamp (metaOf o) ≠ None ∧ Finalizers (metaOf o) = [])
  then setStore (delete key (store w)) w
  else setStore (<[key := o]> (store w)) w.

Definition Update {A} `{Object A} (o : A) : M (option error) :=
  r ← request VUpdate kindOf (objKey (metaOf o)) (λ w,
    match store w !! objKey (metaOf o) with
    | None => (inl ErrNotFound, w)
    | Some old => (inr tt, put (objKey (metaOf o)) (onUpdate old o) w)
    end);
  mret (errorOf r).

(** [r.Status().Update] *)
Definition StatusUpdate {A} `{Object A} (o : A) : M (option error) :=
  r ← request VStatusUpdate kindOf (objKey (metaOf o)) (λ w,
    match store w !! objKey (metaOf o) with
    | None => (inl ErrNotFound, w)
    | Some old =>
        (inr tt, setStore (<[objKey (metaOf o) := onStatusUpdate old o]> (store w)) w)
    end);
  mret (errorOf r).

(** An object without finalizers is removed; one with finalizers only gets
    its deletion timestamp. *)
Definition Delete {A} `{Object A} (o : A) : M (option error) :=
  r ← request VDelete kindOf (objKey (metaOf o)) (λ w,
    match store w !! objKey (metaOf o) with
    | None => (inl ErrNotFound, w)
    | Some old =>
        if bool_decide (Finalizers (metaOf old) = []) then
          (inr tt, setStore (delete (objKey (metaOf o)) (store w)) w)
        else if bool_decide (DeletionTimestamp (metaOf old) = None) then
          (inr tt, setStore (<[objKey (metaOf o) :=
                      setMeta (withDeletionTimestamp (Some (clock w)) (metaOf old)) old]>
                      (store w)) w)
        else (inr tt, w)
    end);
  mret (errorOf r).

(** [controllerutil.CreateOrUpdate]: fetch the object named by [fresh];
    create the mutated [fresh] when there is none; otherwise mutate what
    was fetched and send an update only if the mutation changed it. *)
Definition CreateOrUpdate {A} `{Object A} `{EqDecision A}
    (fresh : A) (mutate : A → error + A) : M (option error) :=
  r ← Get (objKey (metaOf fresh));
  match r with
  | inl err =>
      if IsNotFound err then
        match mutate fresh with
        | inl e => mret (Some e)
        | inr o => Create o
        end
      else mret (Some err)
  | inr existing =>
      match mutate existing with
      | inl e => mret (Some e)
      | inr o => if bool_decide (existing = o) then mret None else Update o
      end
  end.

(** [ctrl.Result]; the delay is in nanoseconds. *)
Record Result := mkResult {
  Requeue : bool;
  RequeueAfter : Z
}.

Definition Result0 : Result := mkResult false 0.

(** ** The KalypsoProject controller *)

Module KalypsoProjectReconciler.

Definition ProjectLabelKey : string := "kalypso-serving.io/project".
Definition EnvironmentLabelKey : string := "kalypso-serving.io/environment".
Definition ManagedByLabelKey : string := "app.kubernetes.io/managed-by".
Definition ManagedByLabelValue : string := "kalypso-serving".
Definition FinalizerName : string := "serving.kalypso.io/finalizer".

(** The label literal the three child objects of an environment carry. *)
Definition childLabels (project : KalypsoProject) (envName : string) : gmap string string :=
  <[ProjectLabelKey := Name (projMeta project)]>
    (<[EnvironmentLabelKey := envName]>
       {[ManagedByLabelKey := ManagedByLabelValue]}).

Definition withStatus (st : KalypsoProjectStatus) (p : KalypsoProject) : KalypsoProject :=
  mkKalypsoProject (projMeta p) (projSpec p) st.

(** setFailedStatus updates the project status to Failed; the error of the
    status write is dropped. *)
Definition setFailedStatus (project : KalypsoProject) (message : string) : M unit :=
  now ← Now;
  let st := projStatus project in
  _ ← StatusUpdate (withStatus
         (mkKalypsoProjectStatus ProjectPhaseFailed
            (SetStatusCondition (projConditions st)
               (mkCondition "Ready" ConditionFalse "ReconciliationFailed" message now))
            (projCreatedNamespaces st)) project);
  mret tt.

(** reconcileNamespace ensures the namespace exists with proper labels *)
Definition reconcileNamespace (project : KalypsoProject) (envName nsName : string)
    : M (option error) :=
  let ns := mkNamespace (withLabels (childLabels project envName) (emptyMeta "" nsName)) in
  r ← Get ("", nsName);
  match r with
  | inl err => if IsNotFound err then Create ns else mret (Some err)
  | inr existingNs =>
      let labels :=
        <[ManagedByLabelKey := ManagedByLabelValue]>
          (<[EnvironmentLabelKey := envName]>
             (<[ProjectLabelKey := Name (projMeta project)]>
                (Labels (nsMeta existingNs)))) in
      Update (mkNamespace (withLabels labels (nsMeta existingNs)))
  end.

(** The [hard] list of a quota: the limits as they are, then the requests
    under [requests.<resource>]. *)
Definition quotaHard (quotaSpec : ResourceQuotaSpec) : ResourceList :=
  let hard := foldl (λ h kv, <[kv.1 := kv.2]> h) ∅ (map_to_list (rqsLimits quotaSpec)) in
  foldl (λ h kv, <["requests." +:+ kv.1 := kv.2]> h) hard
    (map_to_list (rqsRequests quotaSpec)).

(** reconcileResourceQuota ensures the ResourceQuota exists in the namespace *)
Definition reconcileResourceQuota (project : KalypsoProject) (envName nsName : string)
    (quotaSpec : ResourceQuotaSpec) : M (option error) :=
  let quotaName := Name (projMeta project) +:+ "-quota" in
  let quota :=
    mkResourceQuota (withLabels (childLabels project envName) (emptyMeta nsName quotaName))
      (quotaHard quotaSpec) in
  r ← Get (nsName, quotaName);
  match r with
  | inl err => if IsNotFound err then Create quota else mret (Some err)
  | inr existingQuota => Update (mkResourceQuota (rqMeta existingQuota) (rqHard quota))
  end.

(** reconcileLimitRange ensures the LimitRange exists in the namespace *)
Definition reconcileLimitRange (project : KalypsoProject) (envName nsName : string)
    (limitSpec : LimitRangeSpec) : M (option error) :=
  let limitName := Name (projMeta project) +:+ "-limits" in
  let limitRange :=
    mkLimitRange (withLabels (childLabels project envName) (emptyMeta nsName limitName))
      (lrsLimits limitSpec) in
  r ← Get (nsName, limitName);
  match r with
  | inl err => if IsNotFound err then Create limitRange else mret (Some err)
  | inr existingLimit => Update (mkLimitRange (lrMeta existingLimit) (lrLimits limitRange))
  end.

(** The loop of [reconcileDelete] over [Status.CreatedNamespaces]: [inl] is
    an early return of the enclosing function. *)
Fixpoint deleteNamespaces (project : KalypsoProject) (names : list string)
    : M ((Result * option error) + unit) :=
  match names with
  | [] => mret (inr tt)
  | nsName :: rest =>
      r ← Get (A := Namespace_) ("", nsName);
      match r with
      | inl err =>
          if IsNotFound err then deleteNamespaces project rest
          else mret (inl (Result0, Some err))
      | inr ns =>
          if bool_decide (labelOf (Labels (nsMeta ns)) ProjectLabelKey = Name (projMeta project))
          then
            _ ← logInfo "Deleting namespace";
            e ← Delete ns;
            match e with
            | Some err =>
                if negb (IsNotFound err) then mret (inl (Result0, Some err))
                else deleteNamespaces project rest
            | None => deleteNamespaces project rest
            end
          else deleteNamespaces project rest
      end
  end.

(** reconcileDelete handles the deletion of a KalypsoProject *)
Definition reconcileDelete (project : KalypsoProject) : M (Result * option error) :=
  r ← deleteNamespaces project (projCreatedNamespaces (projStatus project));
  match r with
  | inl ret => mret ret
  | inr _ =>
      e ← Update (mkKalypsoProject (RemoveFinalizer (projMeta project) FinalizerName)
                    (projSpec project) (projStatus project));
      match e with
      | Some err => mret (Result0, Some err)
      | None =>
          _ ← logInfo "Successfully deleted KalypsoProject";
          mret (Result0, None)
      end
  end.

(** The loop of [Reconcile] over [Spec.Environments], in the order the map
    iteration delivers the entries: [inl] is an early return of [Reconcile],
    [inr] the namespaces collected when the loop runs to its end. *)
Fixpoint reconcileEnvironments (project : KalypsoProject)
    (envs : list (string * EnvironmentSpec)) (createdNamespaces : list string)
    : M ((Result * option error) + list string) :=
  match envs with
  | [] => mret (inr createdNamespaces)
  | (envName, envSpec) :: rest =>
      let nsName :=
        if bool_decide (envNamespace envSpec = "")
        then Name (projMeta project) +:+ "-" +:+ envName
        else envNamespace envSpec in
      e ← reconcileNamespace project envName nsName;
      match e with
      | Some err =>
          _ ← logError "Failed to reconcile namespace";
          _ ← setFailedStatus project
                ("Failed to create namespace " +:+ nsName +:+ ": " +:+ Error err);
          mret (inl (Result0, Some err))
      | None =>
          e ← match envResourceQuota envSpec with
              | Some quotaSpec => reconcileResourceQuota project envName nsName quotaSpec
              | None => mret None
              end;
          match e with
          | Some err =>
              _ ← logError "Failed to reconcile ResourceQuota";
              _ ← setFailedStatus project
                    ("Failed to create ResourceQuota in " +:+ nsName +:+ ": " +:+ Error err);
              mret (inl (Result0, Some err))
          | None =>
              e ← match envLimitRange envSpec with
                  | Some limitSpec => reconcileLimitRange project envName nsName limitSpec
                  | None => mret None
                  end;
              match e with
              | Some err =>
                  _ ← logError "Failed to reconcile LimitRange";
                  _ ← setFailedStatus project
                        ("Failed to create LimitRange in " +:+ nsName +:+ ": " +:+ Error err);
                  mret (inl (Result0, Some err))
              | None => reconcileEnvironments project rest (createdNamespaces ++ [nsName])
              end
          end
      end
  end.

(** Reconcile.  [range] is the order in which this run iterates over the
    environment map; Go fixes none. *)
Definition Reconcile (range : gmap string EnvironmentSpec → list (string * EnvironmentSpec))
    (req : Key) : M (Result * option error) :=
  r ← Get req;
  match r with
  | inl err =>
      if IsNotFound err then
        _ ← logInfo "KalypsoProject resource not found. Ignoring since object must be deleted";
        mret (Result0, None)
      else
        _ ← logError "Failed to get KalypsoProject";
        mret (Result0, Some err)
  | inr project =>
      if bool_decide (DeletionTimestamp (projMeta project) ≠ None) then
        reconcileDelete project
      else if negb (ContainsFinalizer (projMeta project) FinalizerName) then
        e ← Update (mkKalypsoProject (AddFinalizer (projMeta project) FinalizerName)
                      (projSpec project) (projStatus project));
        match e with
        | Some err => mret (Result0, Some err)
        | None => mret (mkResult true 0, None)
        end
      else if bool_decide (projPhase (projStatus project) = "") then
        let st := projStatus project in
        e ← StatusUpdate (withStatus
               (mkKalypsoProjectStatus ProjectPhaseProvisioning (projConditions st)
                  (projCreatedNamespaces st)) project);
        match e with
        | Some err => mret (Result0, Some err)
        | None => mret (mkResult true 0, None)
        end
      else
        r ← reconcileEnvironments project (range (projEnvironments (projSpec project))) [];
        match r with
        | inl ret => mret ret
        | inr createdNamespaces =>
            now ← Now;
            let st := projStatus project in
            e ← StatusUpdate (withStatus
                   (mkKalypsoProjectStatus ProjectPhaseReady
                      (SetStatusCondition (projConditions st)
                         (mkCondition "NamespaceCreated" ConditionTrue "NamespacesReady"
                            ("All " +:+ pretty (length createdNamespaces)
                               +:+ " namespaces are ready") now))
                      createdNamespaces) project);
            match e with
            | Some err => mret (Result0, Some err)
            | None =>
                _ ← logInfo "Successfully reconciled KalypsoProject";
                mret (Result0, None)
            end
        end
  end.

End KalypsoProjectReconciler.

(** ** The KalypsoApplication controller *)

Module KalypsoApplicationReconciler.

Definition ApplicationFinalizerName : string := "serving.kalypso.io/application-finalizer".
Definition ApplicationLabelKey : string := "kalypso-serving.io/application".

Definition withStatus (st : KalypsoApplicationStatus) (a : KalypsoApplication)
    : KalypsoApplication :=
  mkKalypsoApplication (appMeta a) (appSpec a) st.

(** setFailedStatus updates the application status to Failed; the error of
    the status write is dropped. *)
Definition setFailedStatus (app : KalypsoApplication) (message : string) : M unit :=
  now ← Now;
  let st := appStatus app in
  _ ← StatusUpdate (withStatus
         (mkKalypsoApplicationStatus ApplicationPhaseFailed (appActiveModels st)
            (appGatewayEndpoint st)
            (SetStatusCondition (appConditions st)
               (mkCondition "Ready" ConditionFalse "ReconciliationFailed" message now)))
         app);
  mret tt.

(** The counting loop of [countActiveTritonServers]. *)
Fixpoint countRefs (name : string) (items : list KalypsoTritonServer) (count : Z) : Z :=
  match items with
  | [] => count
  | server :: rest =>
      countRefs name rest
        (if bool_decide (srvApplicationRef (srvSpec server) = name) then count + 1 else count)
  end.

(** countActiveTritonServers counts the number of TritonServers belonging to
    this application *)
Definition countActiveTritonServers (app : KalypsoApplication) : M (Z * option error) :=
  r ← List_ (A := KalypsoTritonServer) (Namespace (appMeta app));
  match r with
  | inl err => mret (0, Some err)
  | inr items => mret (countRefs (Name (appMeta app)) items 0, None)
  end.

(** reconcileDelete handles the deletion of a KalypsoApplication *)
Definition reconcileDelete (app : KalypsoApplication) : M (Result * option error) :=
  e ← Update (mkKalypsoApplication (RemoveFinalizer (appMeta app) ApplicationFinalizerName)
                (appSpec app) (appStatus app));
  match e with
  | Some err =>
      if IsConflict err then mret (mkResult true 0, None) else mret (Result0, Some err)
  | None =>
      _ ← logInfo "Successfully deleted KalypsoApplication";
      mret (Result0, None)
  end.

Definition Reconcile (req : Key) : M (Result * option error) :=
  r ← Get req;
  match r with
  | inl err =>
      if IsNotFound err then
        _ ← logInfo "KalypsoApplication resource not found. Ignoring since object must be deleted";
        mret (Result0, None)
      else
        _ ← logError "Failed to get KalypsoApplication";
        mret (Result0, Some err)
  | inr app =>
      if bool_decide (DeletionTimestamp (appMeta app) ≠ None) then
        reconcileDelete app
      else if negb (ContainsFinalizer (appMeta app) ApplicationFinalizerName) then
        e ← Update (mkKalypsoApplication (AddFinalizer (appMeta app) ApplicationFinalizerName)
                      (appSpec app) (appStatus app));
        match e with
        | Some err => mret (Result0, Some err)
        | None => mret (mkResult true 0, None)
        end
      else if bool_decide (appPhase (appStatus app) = "") then
        let st := appStatus app in
        e ← StatusUpdate (withStatus
               (mkKalypsoApplicationStatus ApplicationPhasePending (appActiveModels st)
                  (appGatewayEndpoint st) (appConditions st)) app);
        match e with
        | Some err => mret (Result0, Some err)
        | None => mret (mkResult true 0, None)
        end
      else
        (* Validate projectRef existence *)
        r ← Get (A := KalypsoProject) (Namespace (appMeta app), appProjectRef (appSpec app));
        match r with
        | inl err =>
            if IsNotFound err then
              _ ← logError "Referenced KalypsoProject not found";
              _ ← setFailedStatus app
                    ("KalypsoProject '" +:+ appProjectRef (appSpec app) +:+ "' not found");
              mret (mkResult false 30000000000, None)
            else mret (Result0, Some err)
        | inr project =>
            if bool_decide (projPhase (projStatus project) ≠ ProjectPhaseReady) then
              _ ← logInfo "Referenced KalypsoProject is not ready yet";
              r ← Get req;
              match r with
              | inl err => mret (Result0, Some err)
              | inr app =>
                  now ← Now;
                  let st := appStatus app in
                  e ← StatusUpdate (withStatus
                         (mkKalypsoApplicationStatus (appPhase st) (appActiveModels st)
                            (appGatewayEndpoint st)
                            (SetStatusCondition (appConditions st)
                               (mkCondition "ProjectReady" ConditionFalse "ProjectNotReady"
                                  ("KalypsoProject '" +:+ appProjectRef (appSpec app)
                                     +:+ "' is in phase: " +:+ projPhase (projStatus project))
                                  now))) app);
                  match e with
                  | Some err =>
                      if IsConflict err then mret (mkResult true 0, None)
                      else mret (Result0, Some err)
                  | None => mret (mkResult false 10000000000, None)
                  end
              end
            else
              (* Count active TritonServers for this application *)
              '(activeModels, err) ← countActiveTritonServers app;
              _ ← match err with
                  | Some _ => logError "Failed to count active TritonServers"
                  | None => mret tt
                  end;
              r ← Get req;
              match r with
              | inl err => mret (Result0, Some err)
              | inr app =>
                  now ← Now;
                  let st := appStatus app in
                  let conditions :=
                    SetStatusCondition
                      (SetStatusCondition (appConditions st)
                         (mkCondition "ProjectReady" ConditionTrue "ProjectValidated"
                            ("KalypsoProject '" +:+ appProjectRef (appSpec app) +:+ "' is ready")
                            now))
                      (mkCondition "Ready" ConditionTrue "ApplicationReady"
                         "KalypsoApplication is ready to serve" now) in
                  e ← StatusUpdate (withStatus
                         (mkKalypsoApplicationStatus ApplicationPhaseReady activeModels
                            ("http://istio-gateway.istio-system.svc/" +:+ Name (appMeta app))
                            conditions) app);
                  match e with
                  | Some err =>
                      if IsConflict err then mret (mkResult true 0, None)
                      else mret (Result0, Some err)
                  | None =>
                      _ ← logInfo "Successfully reconciled KalypsoApplication";
                      mret (Result0, None)
                  end
              end
        end
  end.

End KalypsoApplicationReconciler.

(** ** The KalypsoTritonServer controller *)

Module KalypsoTritonServerReconciler.

Import KalypsoProjectReconciler KalypsoApplicationReconciler.

Definition TritonServerFinalizerName : string := "serving.kalypso.io/tritonserver-finalizer".
Definition TritonServerLabelKey : string := "kalypso-serving.io/tritonserver".

Definition withStatus (st : KalypsoTritonServerStatus) (s : KalypsoTritonServer)
    : KalypsoTritonServer :=
  mkKalypsoTritonServer (srvMeta s) (srvSpec s) st.

(** setFailedStatus updates the server status to Failed; the error of the
    status write is dropped. *)
Definition setFailedStatus (server : KalypsoTritonServer) (message : string) : M unit :=
  now ← Now;
  let st := srvStatus server in
  _ ← StatusUpdate (withStatus
         (mkKalypsoTritonServerStatus TritonServerPhaseFailed (srvDeploymentName st)
            (srvServiceEndpoint st) (srvAvailableReplicas st) message
            (SetStatusCondition (srvConditions st)
               (mkCondition "Available" ConditionFalse "ReconciliationFailed" message now)))
         server);
  mret tt.

(** reconcileDelete handles the deletion of a KalypsoTritonServer *)
Definition reconcileDelete (server : KalypsoTritonServer) : M (Result * option error) :=
  e ← Update (mkKalypsoTritonServer (RemoveFinalizer (srvMeta server) TritonServerFinalizerName)
                (srvSpec server) (srvStatus server));
  match e with
  | Some err =>
      if IsConflict err then mret (mkResult true 0, None) else mret (Result0, Some err)
  | None =>
      _ ← logInfo "Successfully deleted KalypsoTritonServer";
      mret (Result0, None)
  end.

(** The labels of the workload, of its pods and of the service. *)
Definition serverLabels (server : KalypsoTritonServer) : gmap string string :=
  <[TritonServerLabelKey := Name (srvMeta server)]>
    (<[ApplicationLabelKey := srvApplicationRef (srvSpec server)]>
       {[ManagedByLabelKey := ManagedByLabelValue]}).

(** The argument list built at the head of [reconcileDeployment]. *)
Definition containerArgs (server : KalypsoTritonServer) : list string :=
  foldl (λ args param,
           (args ++ ["--" +:+ paramName param +:+ "=" +:+ paramValue param])%list)
    ["tritonserver"; "--model-repository=" +:+ srvStorageUri (srvSpec server)]
    (tcParameters (srvTritonConfig (srvSpec server))).

Definition httpPortOf (server : KalypsoTritonServer) : Z :=
  default 8000 (srvNetworking (srvSpec server) ≫= netHttpPort).
Definition grpcPortOf (server : KalypsoTritonServer) : Z :=
  default 8001 (srvNetworking (srvSpec server) ≫= netGrpcPort).
Definition metricsPortOf (server : KalypsoTritonServer) : Z :=
  default 8002 (srvNetworking (srvSpec server) ≫= netMetricsPort).

(** The environment taken from the storage block of the Application. *)
Definition storageEnvFrom (app : KalypsoApplication) : list string :=
  match appStorage (appSpec app) with
  | Some st => if bool_decide (stSecretName st ≠ "") then [stSecretName st] else []
  | None => []
  end.

Definition storageEnv (app : KalypsoApplication) : list EnvVar :=
  match appStorage (appSpec app) with
  | Some st =>
      ((if bool_decide (stEndpoint st ≠ "")
        then [mkEnvVar "AWS_ENDPOINT_URL" (stEndpoint st); mkEnvVar "S3_ENDPOINT" (stEndpoint st)]
        else [])
       ++ (if bool_decide (stRegion st ≠ "")
           then [mkEnvVar "AWS_DEFAULT_REGION" (stRegion st)] else []))%list
  | None => []
  end.

(** The container of the pod template. *)
Definition tritonContainer (server : KalypsoTritonServer) (app : KalypsoApplication)
    : Container :=
  let image :=
    if bool_decide (tcImage (srvTritonConfig (srvSpec server)) ≠ "")
    then tcImage (srvTritonConfig (srvSpec server)) else "nvcr.io/nvidia/tritonserver" in
  let tag :=
    if bool_decide (tcTag (srvTritonConfig (srvSpec server)) ≠ "")
    then tcTag (srvTritonConfig (srvSpec server)) else "24.12-py3" in
  mkContainer "tritonserver" (image +:+ ":" +:+ tag) (containerArgs server)
    (storageEnv app) (storageEnvFrom app)
    [mkContainerPort "http" (httpPortOf server) "TCP";
     mkContainerPort "grpc" (grpcPortOf server) "TCP";
     mkContainerPort "metrics" (metricsPortOf server) "TCP"]
    (Some (mkProbe "/v2/health/ready" (httpPortOf server) 10 5))
    (Some (mkProbe "/v2/health/live" (httpPortOf server) 15 10))
    (default (mkResourceRequirements ∅ ∅) (srvResources (srvSpec server))).

(** The mutate function handed to [CreateOrUpdate] for the Deployment. *)
Definition mutateDeployment (server : KalypsoTritonServer) (app : KalypsoApplication)
    (deployment : Deployment) : error + Deployment :=
  let labels := serverLabels server in
  let replicas := default 1 (srvReplicas (srvSpec server)) in
  match SetControllerReference "KalypsoTritonServer" (Name (srvMeta server))
          (withLabels (setLabels labels (Labels (dMeta deployment))) (dMeta deployment)) with
  | inl err => inl err
  | inr meta =>
      inr (mkDeployment meta (Some replicas) (Some labels)
             (mkPodTemplateSpec labels ∅ [tritonContainer server app])
             (dAvailableReplicas deployment))
  end.

(** reconcileDeployment ensures the Deployment exists with proper configuration *)
Definition reconcileDeployment (server : KalypsoTritonServer) (app : KalypsoApplication)
    (deploymentName : string) : M (option error) :=
  CreateOrUpdate
    (mkDeployment (emptyMeta (Namespace (srvMeta server)) deploymentName) None None
       (mkPodTemplateSpec ∅ ∅ []) 0)
    (mutateDeployment server app).

(** The mutate function handed to [CreateOrUpdate] for the Service. *)
Definition mutateService (server : KalypsoTritonServer) (service : Service)
    : error + Service :=
  let labels := serverLabels server in
  match SetControllerReference "KalypsoTritonServer" (Name (srvMeta server))
          (withLabels (setLabels labels (Labels (sMeta service))) (sMeta service)) with
  | inl err => inl err
  | inr meta =>
      inr (mkService meta {[TritonServerLabelKey := Name (srvMeta server)]}
             [mkServicePort "http" (httpPortOf server) "http" "TCP";
              mkServicePort "grpc" (grpcPortOf server) "grpc" "TCP";
              mkServicePort "metrics" (metricsPortOf server) "metrics" "TCP"]
             "ClusterIP" (sClusterIP service))
  end.

(** reconcileService ensures the Service exists with proper configuration *)
Definition reconcileService (server : KalypsoTritonServer) (serviceName : string)
    : M (option error) :=
  CreateOrUpdate
    (mkService (emptyMeta (Namespace (srvMeta server)) serviceName) ∅ [] "" "")
    (mutateService server).

Definition Reconcile (req : Key) : M (Result * option error) :=
  r ← Get req;
  match r with
  | inl err =>
      if IsNotFound err then
        _ ← logInfo "KalypsoTritonServer resource not found. Ignoring since object must be deleted";
        mret (Result0, None)
      else
        _ ← logError "Failed to get KalypsoTritonServer";
        mret (Result0, Some err)
  | inr server =>
      if bool_decide (DeletionTimestamp (srvMeta server) ≠ None) then
        reconcileDelete server
      else if negb (ContainsFinalizer (srvMeta server) TritonServerFinalizerName) then
        e ← Update (mkKalypsoTritonServer
                      (AddFinalizer (srvMeta server) TritonServerFinalizerName)
                      (srvSpec server) (srvStatus server));
        match e with
        | Some err => mret (Result0, Some err)
        | None => mret (mkResult true 0, None)
        end
      else if bool_decide (srvPhase (srvStatus server) = "") then
        let st := srvStatus server in
        e ← StatusUpdate (withStatus
               (mkKalypsoTritonServerStatus TritonServerPhasePending (srvDeploymentName st)
                  (srvServiceEndpoint st) (srvAvailableReplicas st) (srvMessage st)
                  (srvConditions st)) server);
        match e with
        | Some err => mret (Result0, Some err)
        | None => mret (mkResult true 0, None)
        end
      else
        (* Validate applicationRef existence *)
        r ← Get (A := KalypsoApplication)
              (Namespace (srvMeta server), srvApplicationRef (srvSpec server));
        match r with
        | inl err =>
            if IsNotFound err then
              _ ← logError "Referenced KalypsoApplication not found";
              _ ← setFailedStatus server
                    ("KalypsoApplication '" +:+ srvApplicationRef (srvSpec server)
                       +:+ "' not found");
              mret (mkResult false 30000000000, None)
            else mret (Result0, Some err)
        | inr app =>
            (* Reconcile Deployment *)
            let deploymentName := Name (srvMeta server) +:+ "-deploy" in
            e ← reconcileDeployment server app deploymentName;
            match e with
            | Some err =>
                _ ← logError "Failed to reconcile Deployment";
                _ ← setFailedStatus server
                      ("Failed to reconcile Deployment: " +:+ Error err);
                mret (Result0, Some err)
            | None =>
                (* Reconcile Service *)
                let serviceName := Name (srvMeta server) +:+ "-svc" in
                e ← reconcileService server serviceName;
                match e with
                | Some err =>
                    _ ← logError "Failed to reconcile Service";
                    _ ← setFailedStatus server
                          ("Failed to reconcile Service: " +:+ Error err);
                    mret (Result0, Some err)
                | None =>
                    (* Get Deployment status *)
                    r ← Get (A := Deployment) (Namespace (srvMeta server), deploymentName);
                    match r with
                    | inl err => mret (Result0, Some err)
                    | inr deployment =>
                        (* Re-fetch the server before updating status *)
                        r ← Get req;
                        match r with
                        | inl err => mret (Result0, Some err)
                        | inr server =>
                            now ← Now;
                            let st := srvStatus server in
                            let available := dAvailableReplicas deployment in
                            let endpoint :=
                              "http://" +:+ serviceName +:+ "." +:+ Namespace (srvMeta server)
                                +:+ ".svc:" +:+ pretty (httpPortOf server) in
                            let status :=
                              if bool_decide (available > 0) then
                                mkKalypsoTritonServerStatus TritonServerPhaseRunning
                                  deploymentName endpoint available
                                  "Triton Server is ready to serve inference."
                                  (SetStatusCondition (srvConditions st)
                                     (mkCondition "Available" ConditionTrue "DeploymentReady"
                                        ("Deployment has " +:+ pretty available
                                           +:+ " available replicas") now))
                              else
                                mkKalypsoTritonServerStatus TritonServerPhasePending
                                  deploymentName endpoint available
                                  "Waiting for Triton Server to become ready."
                                  (SetStatusCondition (srvConditions st)
                                     (mkCondition "Available" ConditionFalse "DeploymentNotReady"
                                        "Deployment has no available replicas" now)) in
                            e ← StatusUpdate (withStatus status server);
                            match e with
                            | Some err =>
                                if IsConflict err then mret (mkResult true 0, None)
                                else mret (Result0, Some err)
                            | None =>
                                _ ← logInfo "Successfully reconciled KalypsoTritonServer";
                                mret (Result0, None)
                            end
                        end
                    end
                end
            end
        end
  end.

End KalypsoTritonServerReconciler.

(** ** Notions used in the statements *)

(** The error the fault schedule holds for the next request. *)
Definition nextFault (w : World) : option error :=
  match faults w with Some e :: _ => Some e | _ => None end.

(** The trace a request leaves when it changes no stored object. *)
Definition touch (c : ApiCall) (w : World) : World :=
  record c (setFaults (tail (faults w)) w).

(** The flag of one runtime parameter. *)
Definition paramFlag (p : TritonParameter) : string :=
  "--" +:+ paramName p +:+ "=" +:+ paramValue p.

(** A cluster with no objects, no scheduled faults and empty traces. *)
Definition emptyWorld : World := mkWorld ∅ ∅ ∅ ∅ ∅ ∅ ∅ ∅ [] [] [] 0%nat.

(** Only NotFound is scheduled as a fault. *)
Definition onlyNotFound (fs : list (option error)) : Prop :=
  Forall (λ f, f = None ∨ f = Some ErrNotFound) fs.

(** The two outcomes of a reconcile that met a conflict: an immediate
    requeue without error, and the conflict returned as the error. *)
Definition requeueNow : Result * option error := (mkResult true 0, None).
Definition failWith (e : error) : Result * option error := (Result0, Some e).

(** *** Where a run stands when it sends a write

    Each predicate relates the world a reconcile starts in to the world in
    which it sends the write named. *)

(** The Server Reconcile is about to send its closing status write. *)
Definition serverAtStatusWrite (req : Key) (w w6 : World) : Prop :=
  ∃ server w1 app w2 w3 w4 (deployment : Deployment) w5 (server' : KalypsoTritonServer),
    Get req w = (inr server, w1)
    ∧ DeletionTimestamp (srvMeta server) = None
    ∧ KalypsoTritonServerReconciler.TritonServerFinalizerName ∈ Finalizers (srvMeta server)
    ∧ srvPhase (srvStatus server) ≠ ""
    ∧ Get (Namespace (srvMeta server), srvApplicationRef (srvSpec server)) w1 = (inr app, w2)
    ∧ KalypsoTritonServerReconciler.reconcileDeployment server app
        (Name (srvMeta server) +:+ "-deploy") w2 = (None, w3)
    ∧ KalypsoTritonServerReconciler.reconcileService server
        (Name (srvMeta server) +:+ "-svc") w3 = (None, w4)
    ∧ Get (Namespace (srvMeta server), Name (srvMeta server) +:+ "-deploy") w4
        = (inr deployment, w5)
    ∧ Get req w5 = (inr server', w6).

(** The Application Reconcile is about to send its closing status write. *)
Definition applicationAtStatusWrite (req : Key) (w w5 : World) : Prop :=
  ∃ app w1 (project : KalypsoProject) w2 count w3 (app' : KalypsoApplication),
    Get req w = (inr app, w1)
    ∧ DeletionTimestamp (appMeta app) = None
    ∧ KalypsoApplicationReconciler.ApplicationFinalizerName ∈ Finalizers (appMeta app)
    ∧ appPhase (appStatus app) ≠ ""
    ∧ Get (Namespace (appMeta app), appProjectRef (appSpec app)) w1 = (inr project, w2)
    ∧ projPhase (projStatus project) = ProjectPhaseReady
    ∧ KalypsoApplicationReconciler.countActiveTritonServers app w2 = (count, w3)
    ∧ Get req (match count.2 with
               | Some _ => writeLog (LogError "Failed to count active TritonServers") w3
               | None => w3
               end) = (inr app', w5).

(** The Application Reconcile is about to write the ProjectReady=False
    condition. *)
Definition applicationAtNotReadyWrite (req : Key) (w w4 : World) : Prop :=
  ∃ app w1 (project : KalypsoProject) w2 (app' : KalypsoApplication),
    Get req w = (inr app, w1)
    ∧ DeletionTimestamp (appMeta app) = None
    ∧ KalypsoApplicationReconciler.ApplicationFinalizerName ∈ Finalizers (appMeta app)
    ∧ appPhase (appStatus app) ≠ ""
    ∧ Get (Namespace (appMeta app), appProjectRef (appSpec app)) w1 = (inr project, w2)
    ∧ projPhase (projStatus project) ≠ ProjectPhaseReady
    ∧ Get req (writeLog (LogInfo "Referenced KalypsoProject is not ready yet") w2)
        = (inr app', w4).

(** A reconcile fetched a resource that is being deleted: it is about to
    send the update that removes the finalizer. *)
Definition atFinalizerRemoval {A} `{Object A} (req : Key) (w w1 : World) : Prop :=
  ∃ o : A, Get req w = (inr o, w1) ∧ DeletionTimestamp (metaOf o) ≠ None.

(** A reconcile fetched a live resource without the finalizer: it is about
    to send the update that adds it. *)
Definition atFinalizerAdd {A} `{Object A} (finalizer : string) (req : Key) (w w1 : World)
    : Prop :=
  ∃ o : A, Get req w = (inr o, w1) ∧ DeletionTimestamp (metaOf o) = None
           ∧ finalizer ∉ Finalizers (metaOf o).

(** A reconcile fetched a live resource that holds the finalizer and has no
    phase yet: it is about to write the first phase. *)
Definition atFirstPhaseWrite {A} `{Object A} (finalizer : string) (phase : A → string)
    (req : Key) (w w1 : World) : Prop :=
  ∃ o : A, Get req w = (inr o, w1) ∧ DeletionTimestamp (metaOf o) = None
           ∧ finalizer ∈ Finalizers (metaOf o) ∧ phase o = "".

(** *** Writes to child objects *)

(** No stored object is being deleted without holding a finalizer: the API
    server removes an object with its last finalizer. *)
Definition settled {A} `{Object A} (m : gmap Key A) : Prop :=
  ∀ k o, m !! k = Some o →
         DeletionTimestamp (metaOf o) ≠ None → Finalizers (metaOf o) ≠ [].

Definition isChild (k : Kind) : bool :=
  match k with
  | KNamespace | KResourceQuota | KLimitRange | KDeployment | KService => true
  | KProject | KApplication | KTritonServer => false
  end.

Definition isWrite (v : Verb) : bool :=
  match v with
  | VCreate | VUpdate | VStatusUpdate | VDelete => true
  | VGet | VList => false
  end.

(** The requests sent between two worlds of one history, latest first. *)
Definition runCalls (w w' : World) : list ApiCall :=
  take (length (calls w') - length (calls w)) (calls w').

(** The writes to child objects among some requests. *)
Definition childWrites (cs : list ApiCall) : list ApiCall :=
  filter (λ c, isWrite (callVerb c) && isChild (callKind c) = true) cs.

(** The namespace an environment entry of a Project resolves to. *)
Definition nsNameOf (projectName : string) (env : string * EnvironmentSpec) : string :=
  if bool_decide (envNamespace env.2 = "")
  then projectName +:+ "-" +:+ env.1 else envNamespace env.2.

(** A cluster in which the reconcile of the Server [req] finds nothing to
    change: the Server is past its gates, its Application exists, and the
    Deployment and the Service stored under its names are fixed points of
    the mutations. *)
Definition serverConverged (req : Key) (w : World) : Prop :=
  ∃ a app0 d sv,
    let server := named req a in
    let appKey := (req.1, srvApplicationRef (srvSpec a)) in
    let dKey := (req.1, req.2 +:+ "-deploy") in
    let sKey := (req.1, req.2 +:+ "-svc") in
    servers w !! req = Some a
    ∧ DeletionTimestamp (srvMeta a) = None
    ∧ KalypsoTritonServerReconciler.TritonServerFinalizerName ∈ Finalizers (srvMeta a)
    ∧ srvPhase (srvStatus a) ≠ ""
    ∧ applications w !! appKey = Some app0
    ∧ deployments w !! dKey = Some d
    ∧ KalypsoTritonServerReconciler.mutateDeployment server (named appKey app0) (named dKey d)
        = inr (named dKey d)
    ∧ services w !! sKey = Some sv
    ∧ KalypsoTritonServerReconciler.mutateService server (named sKey sv)
        = inr (named sKey sv).

(** The three identifying labels are set on a label map. *)
Definition childLabelsIn (projectName envName : string) (l : gmap string string) : Prop :=
  l !! KalypsoProjectReconciler.ProjectLabelKey = Some projectName
  ∧ l !! KalypsoProjectReconciler.EnvironmentLabelKey = Some envName
  ∧ l !! KalypsoProjectReconciler.ManagedByLabelKey
      = Some KalypsoProjectReconciler.ManagedByLabelValue.

(** The child objects of an environment entry are in the cluster as the
    reconcile of the Project writes them: the namespace with its name and
    the three labels, the quota with the hard list of the entry and the
    limit range with its limits, where the entry asks for them. *)
Definition envSettledIn (projectName : string) (env : string * EnvironmentSpec) (w : World)
    : Prop :=
  let nsName := nsNameOf projectName env in
  (∃ ns, namespaces w !! ("", nsName) = Some ns
         ∧ objKey (nsMeta ns) = ("", nsName)
         ∧ childLabelsIn projectName env.1 (Labels (nsMeta ns)))
  ∧ (∀ quotaSpec, envResourceQuota env.2 = Some quotaSpec →
       ∃ rq, quotas w !! (nsName, projectName +:+ "-quota") = Some rq
             ∧ objKey (rqMeta rq) = (nsName, projectName +:+ "-quota")
             ∧ rqHard rq = KalypsoProjectReconciler.quotaHard quotaSpec)
  ∧ (∀ limitSpec, envLimitRange env.2 = Some limitSpec →
       ∃ lr, limitRanges w !! (nsName, projectName +:+ "-limits") = Some lr
             ∧ objKey (lrMeta lr) = (nsName, projectName +:+ "-limits")
             ∧ lrLimits lr = lrsLimits limitSpec).

(** The child stores of the Project reconciler hold no object that is being
    deleted without a finalizer. *)
Definition childrenSettled (w : World) : Prop :=
  settled (namespaces w) ∧ settled (quotas w) ∧ settled (limitRanges w).

(** A request that reads or updates. *)
Definition readOrUpdate (c : ApiCall) : Prop :=
  callVerb c = VGet ∨ callVerb c = VUpdate.

(** The shape the three child reconciles of a Project share: fetch, create
    the desired object when there is none, otherwise update what was
    fetched, unconditionally. *)
Definition fetchCreateOrUpdate {A} `{Object A} (key : Key) (desired : A) (update : A → A)
    : M (option error) :=
  r ← Get key;
  match r with
  | inl err => if IsNotFound err then Create desired else mret (Some err)
  | inr existing => Update (update existing)
  end.

(** From [w] to [w'] only reads and updates were sent, and they left the
    child stores of the Project reconciler, the Projects and the fault
    schedule (empty) as they were. *)
Definition quietly (w w' : World) : Prop :=
  namespaces w' = namespaces w
  ∧ quotas w' = quotas w
  ∧ limitRanges w' = limitRanges w
  ∧ projects w' = projects w
  ∧ logs w' = logs w
  ∧ faults w' = []
  ∧ ∃ run, calls w' = (run ++ calls w)%list ∧ Forall readOrUpdate run.

(** The status the closing write of the Server [Reconcile] carries. *)
Definition publishedStatus (server : KalypsoTritonServer) (deployment : Deployment)
    (now : nat) : KalypsoTritonServerStatus :=
  let deploymentName := Name (srvMeta server) +:+ "-deploy" in
  let serviceName := Name (srvMeta server) +:+ "-svc" in
  let available := dAvailableReplicas deployment in
  let endpoint :=
    "http://" +:+ serviceName +:+ "." +:+ Namespace (srvMeta server)
      +:+ ".svc:" +:+ pretty (KalypsoTritonServerReconciler.httpPortOf server) in
  if bool_decide (available > 0) then
    mkKalypsoTritonServerStatus TritonServerPhaseRunning deploymentName endpoint available
      "Triton Server is ready to serve inference."
      (SetStatusCondition (srvConditions (srvStatus server))
         (mkCondition "Available" ConditionTrue "DeploymentReady"
            ("Deployment has " +:+ pretty available +:+ " available replicas") now))
  else
    mkKalypsoTritonServerStatus TritonServerPhasePending deploymentName endpoint available
      "Waiting for Triton Server to become ready."
      (SetStatusCondition (srvConditions (srvStatus server))
         (mkCondition "Available" ConditionFalse "DeploymentNotReady"
            "Deployment has no available replicas" now)).

(** The reconcile [m] sends requests for objects of the kinds in [P] only. *)
Definition sendsOnly (P : Kind → Prop) {A} (m : M A) : Prop :=
  ∀ w, ∃ run, calls (m w).2 = (run ++ calls w)%list ∧ Forall (λ c, P (callKind c)) run.

(** The reconcile [m] sends only requests that satisfy [P], and its result
    satisfies [Q]. *)
Definition sends (P : ApiCall → Prop) {A} (m : M A) (Q : A → Prop) : Prop :=
  ∀ w, (∃ run, calls (m w).2 = (run ++ calls w)%list ∧ Forall P run) ∧ Q (m w).1.

(** What a read delivers is stored under the key asked for. *)
Definition fetched {A} `{Object A} (key : Key) (r : error + A) : Prop :=
  ∀ o, r = inr o → objKey (metaOf o) = key.

(** The requests the Application reconciler may send for [req]: reads of
    Applications and Projects and lists of Servers in the namespace of the
    request, and updates of the Application itself. *)
Definition applicationScope (req : Key) (c : ApiCall) : Prop :=
  (callKey c).1 = req.1
  ∧ match callKind c, callVerb c with
    | KApplication, VGet => callKey c = req
    | KApplication, (VUpdate | VStatusUpdate) => callKey c = req
    | KProject, VGet => True
    | KTritonServer, VList => True
    | _, _ => False
    end.

(** The requests the Server reconciler may send for [req]: reads and
    updates of the Server itself, reads of Applications of its namespace,
    and reads, creations and updates of the Deployment and the Service
    named after it. *)
Definition serverScope (req : Key) (c : ApiCall) : Prop :=
  match callKind c, callVerb c with
  | KTritonServer, (VGet | VUpdate | VStatusUpdate) => callKey c = req
  | KApplication, VGet => (callKey c).1 = req.1
  | KDeployment, (VGet | VCreate | VUpdate) => callKey c = (req.1, req.2 +:+ "-deploy")
  | KService, (VGet | VCreate | VUpdate) => callKey c = (req.1, req.2 +:+ "-svc")
  | _, _ => False
  end.

(** The requests the Project reconciler may send for [req]: reads and
    updates of the Project itself; reads, creations, updates and deletions
    of cluster-scoped Namespaces; reads, creations and updates of the quota
    and the limit range named after the Project. *)
Definition projectScope (req : Key) (c : ApiCall) : Prop :=
  match callKind c, callVerb c with
  | KProject, (VGet | VUpdate | VStatusUpdate) => callKey c = req
  | KNamespace, (VGet | VCreate | VUpdate | VDelete) => (callKey c).1 = ""
  | KResourceQuota, (VGet | VCreate | VUpdate) => (callKey c).2 = req.2 +:+ "-quota"
  | KLimitRange, (VGet | VCreate | VUpdate) => (callKey c).2 = req.2 +:+ "-limits"
  | _, _ => False
  end.

(** A request that deletes nothing. *)
Definition noDeletion (c : ApiCall) : Prop := callVerb c ≠ VDelete.

(** ** Sample objects *)

(** The Application and the Servers of the observability end-to-end test. *)
Definition testApplication : KalypsoApplication :=
  mkKalypsoApplication (emptyMeta "kalypso-test" "test-application")
    (mkKalypsoApplicationSpec "test-project" "Test application for observability tests"
       None None)
    (mkKalypsoApplicationStatus "" 0 "" []).

Definition loggingServer (name level : string) : KalypsoTritonServer :=
  mkKalypsoTritonServer (emptyMeta "kalypso-test" name)
    (mkKalypsoTritonServerSpec "test-application" "s3://test-bucket/models"
       (mkTritonConfigSpec "nvcr.io/nvidia/tritonserver" "24.12-py3" [] "" None)
       None None None
       (Some (mkObservabilitySpec true "" (Some (mkLoggingSpec true level))
                None None None)))
    (mkKalypsoTritonServerStatus "" "" "" 0 "" []).

Definition loggingTestServer : KalypsoTritonServer :=
  loggingServer "logging-test-server" "VERBOSE".
Definition loggingInfoServer : KalypsoTritonServer :=
  loggingServer "logging-info-server" "INFO".

(** A Server with two runtime parameters and an HTTP port of its own. *)
Definition sampleServer : KalypsoTritonServer :=
  mkKalypsoTritonServer
    (mkObjectMeta "recommendation-v1" "kalypso-system" ∅
       [KalypsoTritonServerReconciler.TritonServerFinalizerName] None [])
    (mkKalypsoTritonServerSpec "recommendation-application"
       "s3://kalypso-models/recommendation/v1/"
       (mkTritonConfigSpec "nvcr.io/nvidia/tritonserver" "24.12-py3"
          [mkTritonParameter "strict-model-config" "false";
           mkTritonParameter "exit-timeout-secs" "30"] "python" None)
       (Some 2) None (Some (mkNetworkingSpec (Some 9000) None None)) None)
    (mkKalypsoTritonServerStatus "Pending" "" "" 0 "" []).

Definition sampleApplication : KalypsoApplication :=
  mkKalypsoApplication
    (mkObjectMeta "recommendation-application" "kalypso-system" ∅
       [KalypsoApplicationReconciler.ApplicationFinalizerName] None [])
    (mkKalypsoApplicationSpec "sample-project"
       "Product recommendation model serving application" None
       (Some (mkStorageSpec "aws-s3-credentials" "ap-northeast-2" "")))
    (mkKalypsoApplicationStatus "Ready" 0 "" []).

(** A Project with a development and a production environment, its
    finalizer in place and its first phase written. *)
Definition demoProject : KalypsoProject :=
  mkKalypsoProject
    (mkObjectMeta "demo" "kalypso-system" ∅ [KalypsoProjectReconciler.FinalizerName] None [])
    (mkKalypsoProjectSpec "Demo" "team-ai-research"
       (<["dev" := mkEnvironmentSpec "" "Development environment" None None]>
          {["prod" := mkEnvironmentSpec "demo-prod" "Production environment" None
                        (Some (mkResourceQuotaSpec {["nvidia.com/gpu" := "4"]} ∅))]})
       None)
    (mkKalypsoProjectStatus "Provisioning" [] []).

Definition demoWorld (faults : list (option error)) : World :=
  mkWorld {[("kalypso-system", "demo") := demoProject]} ∅ ∅ ∅ ∅ ∅ ∅ ∅ faults [] [] 0%nat.

(** The iteration order of the samples: the order of [map_to_list]. *)
Definition sampleRange (m : gmap string EnvironmentSpec) : list (string * EnvironmentSpec) :=
  map_to_list m.

(** An Application that passed the first gates of its reconcile, with a
    count of three published earlier, and its Project. *)
Definition readyProject : KalypsoProject :=
  mkKalypsoProject
    (mkObjectMeta "sample-project" "kalypso-system" ∅
       [KalypsoProjectReconciler.FinalizerName] None [])
    (mkKalypsoProjectSpec "GenAI Model Serving Demo" "team-ai-research" ∅ None)
    (mkKalypsoProjectStatus "Ready" [] []).

Definition countedApplication : KalypsoApplication :=
  mkKalypsoApplication (appMeta sampleApplication) (appSpec sampleApplication)
    (mkKalypsoApplicationStatus "Ready" 3
       "http://istio-gateway.istio-system.svc/recommendation-application" []).

Definition applicationWorld (withProject : bool) (faults : list (option error)) : World :=
  mkWorld
    (if withProject then {[("kalypso-system", "sample-project") := readyProject]} else ∅)
    {[("kalypso-system", "recommendation-application") := countedApplication]}
    ∅ ∅ ∅ ∅ ∅ ∅ faults [] [] 0%nat.

(** A cluster holding the sample Server and its Application.  The Server
    reports phase Running from an earlier reconcile; its Deployment is not
    there any more. *)
Definition runningServer : KalypsoTritonServer :=
  mkKalypsoTritonServer (srvMeta sampleServer) (srvSpec sampleServer)
    (mkKalypsoTritonServerStatus "Running" "recommendation-v1-deploy"
       "http://recommendation-v1-svc.kalypso-system.svc:9000" 2
       "Triton Server is ready to serve inference."
       [mkCondition "Available" ConditionTrue "DeploymentReady"
          "Deployment has 2 available replicas" 0%nat]).

Definition serverWorld (server : KalypsoTritonServer) (faults : list (option error)) : World :=
  mkWorld ∅ {[("kalypso-system", "recommendation-application") := countedApplication]}
    {[("kalypso-system", "recommendation-v1") := server]}
    ∅ ∅ ∅ ∅ ∅ faults [] [] 0%nat.

(** * Properties of the client *)

Section Client.
Context {A : Type} `{Object A}.

Lemma request_inv {B} v k key (serve : World → (error + B) * World) w r w' :
  request v k key serve w = (r, w') →
  (∃ e, nextFault w = Some e ∧ r = inl e ∧ w' = touch (mkApiCall v k key (Some e)) w)
  ∨ (nextFault w = None ∧
     ∃ w1, serve (setFaults (tail (faults w)) w) = (r, w1) ∧
           w' = record (mkApiCall v k key (errorOf r)) w1).
Proof.
  unfold request, nextFault, touch.
  destruct (faults w) as [|[e|] fs] eqn:Hf; cbn.
  - destruct (serve _) as [r1 w1] eqn:Hs. intros [= <- <-]. right. eauto.
  - intros [= <- <-]. left. eauto.
  - destruct (serve _) as [r1 w1] eqn:Hs. intros [= <- <-]. right. eauto.
Qed.

Lemma request_nofault {B} v k key (serve : World → (error + B) * World) w :
  nextFault w = None →
  request v k key serve w =
    (let '(r, w1) := serve (setFaults (tail (faults w)) w) in
     (r, record (mkApiCall v k key (errorOf r)) w1)).
Proof.
  unfold request, nextFault. destruct (faults w) as [|[e|] fs]; done.
Qed.

Lemma request_fault {B} v k key (serve : World → (error + B) * World) w e :
  nextFault w = Some e →
  request v k key serve w = (inl e, touch (mkApiCall v k key (Some e)) w).
Proof.
  unfold request, nextFault, touch.
  destruct (faults w) as [|[e'|] fs]; try done. by intros [= ->].
Qed.

(** *** Reads *)

Lemma Get_inv key w r w' :
  Get key w = (r, w') →
  w' = touch (mkApiCall VGet kindOf key (errorOf r)) w ∧
  (∀ o, r = inr o → ∃ o0, store w !! key = Some o0 ∧ o = named key o0).
Proof.
  unfold Get. intros Hr. apply request_inv in Hr as [(e & _ & -> & ->)|(_ & w1 & Hs & ->)].
  - split; [done|]. by intros o [=].
  - rewrite store_setFaults in Hs.
    destruct (store w !! key) as [o0|] eqn:Hl; injection Hs as <- <-.
    + split; [done|]. intros o [= <-]. eauto.
    + split; [done|]. by intros o [=].
Qed.

(** A read fails with the scheduled fault, or with NotFound when nothing
    is stored under the key. *)
Lemma Get_error key w e w' :
  Get key w = (inl e, w') →
  nextFault w = Some e ∨ (e = ErrNotFound ∧ store w !! key = None).
Proof.
  unfold Get. intros Hr. apply request_inv in Hr as [(e' & Hn & [= ->] & _)|(_ & w1 & Hs & _)].
  - by left.
  - rewrite store_setFaults in Hs.
    destruct (store w !! key) as [o0|] eqn:Hl; [done|]. injection Hs as <- _. by right.
Qed.

Lemma Get_nofault key w :
  nextFault w = None →
  Get key w =
    (match store w !! key with
     | Some o0 => inr (named key o0)
     | None => inl ErrNotFound
     end,
     touch (mkApiCall VGet kindOf key
              (match store w !! key with Some _ => None | None => Some ErrNotFound end)) w).
Proof.
  intros Hn. unfold Get. rewrite request_nofault by done.
  rewrite store_setFaults. by destruct (store w !! key).
Qed.

Lemma named_key key (o : A) :
  (∀ m o', metaOf (setMeta m o') = m) → objKey (metaOf (named key o)) = key.
Proof. intros Hm. unfold named. rewrite Hm. by destruct key. Qed.

(** *** Writes *)

Lemma Create_inv (o : A) w e w' :
  Create o w = (e, w') →
  let key := objKey (metaOf o) in
  match e with
  | None =>
      store w !! key = None ∧
      w' = record (mkApiCall VCreate kindOf key None)
             (setStore (<[key := o]> (store w)) (setFaults (tail (faults w)) w))
  | Some err => w' = touch (mkApiCall VCreate kindOf key (Some err)) w
  end.
Proof.
  unfold Create, mbind, M_bind, mret, M_ret.
  destruct (request _ _ _ _ w) as [r w1] eqn:Hr. intros [= <- <-].
  apply request_inv in Hr as [(e' & _ & -> & ->)|(_ & w2 & Hs & ->)]; [done|].
  rewrite store_setFaults in Hs.
  destruct (store w !! objKey (metaOf o)) eqn:Hl; injection Hs as <- <-; cbn; done.
Qed.

Lemma Update_inv (o : A) w e w' :
  Update o w = (e, w') →
  let key := objKey (metaOf o) in
  match e with
  | None =>
      ∃ old, store w !! key = Some old ∧
      w' = record (mkApiCall VUpdate kindOf key None)
             (put key (onUpdate old o) (setFaults (tail (faults w)) w))
  | Some err => w' = touch (mkApiCall VUpdate kindOf key (Some err)) w
  end.
Proof.
  unfold Update, mbind, M_bind, mret, M_ret.
  destruct (request _ _ _ _ w) as [r w1] eqn:Hr. intros [= <- <-].
  apply request_inv in Hr as [(e' & _ & -> & ->)|(_ & w2 & Hs & ->)]; [done|].
  rewrite store_setFaults in Hs.
  destruct (store w !! objKey (metaOf o)) eqn:Hl; injection Hs as <- <-; cbn; eauto.
Qed.

Lemma StatusUpdate_inv (o : A) w e w' :
  StatusUpdate o w = (e, w') →
  let key := objKey (metaOf o) in
  match e with
  | None =>
      ∃ old, store w !! key = Some old ∧
      w' = record (mkApiCall VStatusUpdate kindOf key None)
             (setStore (<[key := onStatusUpdate old o]> (store w))
                (setFaults (tail (faults w)) w))
  | Some err => w' = touch (mkApiCall VStatusUpdate kindOf key (Some err)) w
  end.
Proof.
  unfold StatusUpdate, mbind, M_bind, mret, M_ret.
  destruct (request _ _ _ _ w) as [r w1] eqn:Hr. intros [= <- <-].
  apply request_inv in Hr as [(e' & _ & -> & ->)|(_ & w2 & Hs & ->)]; [done|].
  rewrite store_setFaults in Hs.
  destruct (store w !! objKey (metaOf o)) eqn:Hl; injection Hs as <- <-; cbn; eauto.
Qed.

(** A delete either fails, or removes the object, or marks it, or finds it
    marked already. *)
Lemma Delete_inv (o : A) w e w' :
  Delete o w = (e, w') →
  let key := objKey (metaOf o) in
  let c := mkApiCall VDelete kindOf key e in
  w' = touch c w
  ∨ w' = record c (setStore (delete key (store w)) (setFaults (tail (faults w)) w))
  ∨ ∃ old, store w !! key = Some old ∧ Finalizers (metaOf old) ≠ [] ∧
      w' = record c
             (setStore (<[key := setMeta (withDeletionTimestamp (Some (clock w)) (metaOf old)) old]>
                          (store w)) (setFaults (tail (faults w)) w)).
Proof.
  unfold Delete, mbind, M_bind, mret, M_ret.
  destruct (request _ _ _ _ w) as [r w1] eqn:Hr. intros [= <- <-].
  apply request_inv in Hr as [(e' & _ & -> & ->)|(_ & w2 & Hs & ->)]; [by left|].
  rewrite store_setFaults in Hs.
  destruct (store w !! objKey (metaOf o)) as [old|] eqn:Hl.
  - repeat case_bool_decide; injection Hs as <- <-; cbn.
    + right; by left.
    + right; right. exists old. by destruct w.
    + by left.
  - injection Hs as <- <-. by left.
Qed.

Lemma Delete_error (o : A) w e w' :
  Delete o w = (Some e, w') → nextFault w = Some e ∨ e = ErrNotFound.
Proof.
  unfold Delete, mbind, M_bind, mret, M_ret.
  destruct (request _ _ _ _ w) as [r w1] eqn:Hr. intros [= He <-].
  apply request_inv in Hr as [(e' & Hn & -> & _)|(_ & w2 & Hs & _)].
  - injection He as ->. by left.
  - rewrite store_setFaults in Hs.
    destruct (store w !! objKey (metaOf o)) as [old|];
      repeat case_bool_decide; injection Hs as <- <-; try done.
    injection He as <-. by right.
Qed.
End Client.

Section CreateOrUpdate.
Context {A : Type} `{Object A} `{EqDecision A}.

(** A successful [CreateOrUpdate] created the mutated fresh object, or
    found the stored object a fixed point of the mutation and wrote
    nothing, or updated the stored object to its mutation. *)
Lemma CreateOrUpdate_inv (fresh : A) (mutate : A → error + A) w w' :
  CreateOrUpdate fresh mutate w = (None, w') →
  let key := objKey (metaOf fresh) in
  (∃ w1 o, Get key w = (inl ErrNotFound, w1) ∧ mutate fresh = inr o ∧
           Create o w1 = (None, w'))
  ∨ (∃ existing, Get key w = (inr existing, w') ∧ mutate existing = inr existing)
  ∨ (∃ w1 existing o, Get key w = (inr existing, w1) ∧ mutate existing = inr o ∧
           existing ≠ o ∧ Update o w1 = (None, w')).
Proof.
  unfold CreateOrUpdate, mbind, M_bind, mret, M_ret.
  destruct (Get _ w) as [[err|existing] w1] eqn:Hg.
  - unfold IsNotFound. case_bool_decide as He; [subst err|by intros [=]].
    destruct (mutate fresh) as [e|o] eqn:Hm; [by intros [=]|].
    intros Hc. left. eauto.
  - destruct (mutate existing) as [e|o] eqn:Hm; [by intros [=]|].
    case_bool_decide as He.
    + subst o. intros [= <-]. right; left. eauto.
    + intros Hu. right; right. eauto 10.
Qed.
End CreateOrUpdate.

(** * The synthesized workload *)

Section Workload.
Import KalypsoTritonServerReconciler.

Lemma foldl_snoc_map {X Y} (f : X → Y) (l : list X) (init : list Y) :
  foldl (λ acc x, (acc ++ [f x])%list) init l = (init ++ map f l)%list.
Proof.
  revert init. induction l as [|x l IH]; intros init; cbn.
  - by rewrite app_nil_r.
  - rewrite IH. by rewrite <- app_assoc.
Qed.

Lemma containerArgs_eq server :
  containerArgs server =
    "tritonserver"
    :: ("--model-repository=" +:+ srvStorageUri (srvSpec server))
    :: map paramFlag (tcParameters (srvTritonConfig (srvSpec server))).
Proof. unfold containerArgs. by rewrite (foldl_snoc_map paramFlag). Qed.

Lemma SetControllerReference_key kind name m m' :
  SetControllerReference kind name m = inr m' →
  Name m' = Name m ∧ Namespace m' = Namespace m ∧ Labels m' = Labels m ∧
  Finalizers m' = Finalizers m ∧ DeletionTimestamp m' = DeletionTimestamp m.
Proof.
  unfold SetControllerReference.
  destruct (find _ _) as [x|]; [destruct (sameOwner _ _)|]; intros [= <-]; done.
Qed.

Lemma mutateDeployment_inv server app d d' :
  mutateDeployment server app d = inr d' →
  objKey (dMeta d') = objKey (dMeta d) ∧
  dTemplate d' = mkPodTemplateSpec (serverLabels server) ∅ [tritonContainer server app] ∧
  dReplicas d' = Some (default 1 (srvReplicas (srvSpec server))) ∧
  dSelector d' = Some (serverLabels server) ∧
  dAvailableReplicas d' = dAvailableReplicas d.
Proof.
  unfold mutateDeployment.
  destruct (SetControllerReference _ _ _) as [e|m] eqn:Hs; [done|].
  intros [= <-]. apply SetControllerReference_key in Hs as (Hn & Hns & _).
  cbn in *. unfold objKey. by rewrite Hn, Hns.
Qed.

(** Whatever Deployment a successful [reconcileDeployment] leaves under
    the name it was given carries the synthesized pod template. *)
Lemma reconcileDeployment_stored server app name w w' d :
  reconcileDeployment server app name w = (None, w') →
  deployments w' !! (Namespace (srvMeta server), name) = Some d →
  dTemplate d = mkPodTemplateSpec (serverLabels server) ∅ [tritonContainer server app].
Proof.
  unfold reconcileDeployment. intros Hc Hd.
  apply CreateOrUpdate_inv in Hc.
  change (objKey (metaOf _)) with (Namespace (srvMeta server), name) in Hc.
  destruct Hc as [(w1 & o & Hg & Hm & Hc)|[(ex & Hg & Hm)|(w1 & ex & o & Hg & Hm & _ & Hu)]].
  - apply Get_inv in Hg as [-> _].
    apply mutateDeployment_inv in Hm as (Hk & Ht & _).
    apply Create_inv in Hc. cbv zeta in Hc. destruct Hc as [_ ->].
    change (metaOf o) with (dMeta o) in Hd. rewrite Hk in Hd.
    cbn in Hd. rewrite lookup_insert_eq in Hd. by injection Hd as <-.
  - apply Get_inv in Hg as [-> Ho]. destruct (Ho _ eq_refl) as (o0 & Hl & ->).
    cbn in Hl, Hd. rewrite Hl in Hd. injection Hd as ->.
    by apply mutateDeployment_inv in Hm as (_ & Ht & _).
  - apply Get_inv in Hg as [-> Ho]. destruct (Ho _ eq_refl) as (o0 & Hl & ->).
    apply mutateDeployment_inv in Hm as (Hk & Ht & _).
    apply Update_inv in Hu. cbv zeta in Hu. destruct Hu as (old & _ & ->).
    change (metaOf o) with (dMeta o) in Hd. rewrite Hk in Hd.
    unfold put in Hd. case_bool_decide; cbn in Hd.
    + by rewrite lookup_delete_eq in Hd.
    + rewrite lookup_insert_eq in Hd. by injection Hd as <-.
Qed.
End Workload.

(** * The claims *)

Section ArgumentList.
Import KalypsoTritonServerReconciler.

(** C7.  The Deployment a successful [reconcileDeployment] leaves in the
    cluster has one container, and its argument list is the process name
    [tritonserver], then the model-repository flag with the storage URI,
    then one [--<name>=<value>] flag for every runtime parameter, in the
    order of the spec. *)
Theorem C7_argument_list server app name w w' d :
  reconcileDeployment server app name w = (None, w') →
  deployments w' !! (Namespace (srvMeta server), name) = Some d →
  cArgs <$> ptContainers (dTemplate d) =
    [ "tritonserver"
      :: ("--model-repository=" +:+ srvStorageUri (srvSpec server))
      :: map paramFlag (tcParameters (srvTritonConfig (srvSpec server))) ].
Proof.
  intros Hr Hd. rewrite (reconcileDeployment_stored _ _ _ _ _ _ Hr Hd).
  cbn. by rewrite containerArgs_eq.
Qed.

Lemma C7_argument_list_witness :
  ∃ d, deployments (reconcileDeployment sampleServer sampleApplication
                      "recommendation-v1-deploy" emptyWorld).2
         !! ("kalypso-system", "recommendation-v1-deploy") = Some d ∧
       cArgs <$> ptContainers (dTemplate d) =
         [ [ "tritonserver";
             "--model-repository=s3://kalypso-models/recommendation/v1/";
             "--strict-model-config=false";
             "--exit-timeout-secs=30" ] ].
Proof.
  eexists. split; [vm_compute; reflexivity|].
  apply (C7_argument_list sampleServer sampleApplication "recommendation-v1-deploy"
           emptyWorld
           (reconcileDeployment sampleServer sampleApplication
              "recommendation-v1-deploy" emptyWorld).2);
    vm_compute; reflexivity.
Defined.

(** C1 (the code departs from its end-to-end test).  For the two Servers
    of the logging test, with logging enabled at level VERBOSE and at
    level INFO, the synthesized Deployment has the argument list
    [tritonserver --model-repository=s3://test-bucket/models] and neither
    [--log-verbose=1] nor [--log-info=true] is among the arguments. *)
Theorem C1_logging_flag_missing :
  let args (server : KalypsoTritonServer) :=
    d ← deployments
           (reconcileDeployment server testApplication
              (Name (srvMeta server) +:+ "-deploy") emptyWorld).2
         !! ("kalypso-test", Name (srvMeta server) +:+ "-deploy");
    cArgs <$> head (ptContainers (dTemplate d)) in
  (args loggingTestServer
     = Some ["tritonserver"; "--model-repository=s3://test-bucket/models"])
  ∧ (args loggingInfoServer
     = Some ["tritonserver"; "--model-repository=s3://test-bucket/models"])
  ∧ ("--log-verbose=1" ∉ containerArgs loggingTestServer)
  ∧ ("--log-info=true" ∉ containerArgs loggingInfoServer).
Proof.
  repeat split; try (vm_compute; reflexivity).
  - vm_compute. intros Hin. repeat (inversion Hin as [|? ? ? Hin']; clear Hin; rename Hin' into Hin).
  - vm_compute. intros Hin. repeat (inversion Hin as [|? ? ? Hin']; clear Hin; rename Hin' into Hin).
Qed.
End ArgumentList.

Section ProjectCleanup.
Import KalypsoProjectReconciler.

Lemma deleteNamespaces_cons project nsName rest w :
  deleteNamespaces project (nsName :: rest) w =
    (r ← Get (A := Namespace_) ("", nsName);
     match r with
     | inl err =>
         if IsNotFound err then deleteNamespaces project rest
         else mret (inl (Result0, Some err))
     | inr ns =>
         if bool_decide (labelOf (Labels (nsMeta ns)) ProjectLabelKey = Name (projMeta project))
         then
           _ ← logInfo "Deleting namespace";
           e ← Delete ns;
           match e with
           | Some err =>
               if negb (IsNotFound err) then mret (inl (Result0, Some err))
               else deleteNamespaces project rest
           | None => deleteNamespaces project rest
           end
         else deleteNamespaces project rest
     end) w.
Proof. reflexivity. Qed.

(** The loop touches namespaces only, and among them only those on the
    list whose project label names the Project. *)
Lemma deleteNamespaces_frame project names w r w' :
  deleteNamespaces project names w = (r, w') →
  (∀ key ns,
     namespaces w !! key = Some ns →
     key.1 ≠ "" ∨ key.2 ∉ names ∨
       labelOf (Labels (nsMeta ns)) ProjectLabelKey ≠ Name (projMeta project) →
     namespaces w' !! key = Some ns)
  ∧ (∀ key, namespaces w !! key = None → namespaces w' !! key = None)
  ∧ projects w' = projects w.
Proof.
  revert w. induction names as [|n rest IH]; intros w.
  { intros [= <- <-]. done. }
  rewrite deleteNamespaces_cons. unfold mbind, M_bind.
  destruct (Get _ w) as [[err|ns] w1] eqn:Hg.
  - apply Get_inv in Hg as [-> _].
    unfold IsNotFound. case_bool_decide.
    + intros Hr. apply IH in Hr as (Hf & Hn & Hp). cbn in *.
      split_and!; [|done..]. intros key ns0 Hl Hc. apply Hf; [done|].
      destruct Hc as [?|[Hc|?]]; [by left| |by right; right].
      right; left. by apply not_elem_of_cons in Hc as [_ ?].
    + intros [= <- <-]. done.
  - apply Get_inv in Hg as [-> Ho]. destruct (Ho _ eq_refl) as (ns0 & Hl0 & ->).
    cbn in Hl0. change (Labels (nsMeta (named _ ns0))) with (Labels (nsMeta ns0)).
    assert (Hskip : ∀ w1, namespaces w1 = namespaces w → projects w1 = projects w →
              deleteNamespaces project rest w1 = (r, w') →
              (∀ key ns, namespaces w !! key = Some ns →
                 key.1 ≠ "" ∨ key.2 ∉ n :: rest ∨
                   labelOf (Labels (nsMeta ns)) ProjectLabelKey ≠ Name (projMeta project) →
                 namespaces w' !! key = Some ns)
              ∧ (∀ key, namespaces w !! key = None → namespaces w' !! key = None)
              ∧ projects w' = projects w).
    { intros w1 Hns Hps Hr. apply IH in Hr as (Hf & Hn & Hp).
      rewrite Hns, Hps in *. split_and!; [|done..].
      intros key ns1 Hl Hc. apply Hf; [done|].
      destruct Hc as [?|[Hc|?]]; [by left| |by right; right].
      right; left. by apply not_elem_of_cons in Hc as [_ ?]. }
    case_bool_decide as Hlab; [|by apply Hskip].
    cbn. destruct (Delete _ _) as [e w2] eqn:Hd.
    assert (Hstep :
      (∀ key ns, namespaces w !! key = Some ns →
         key ≠ ("", n) → namespaces w2 !! key = Some ns)
      ∧ (∀ key, namespaces w !! key = None → namespaces w2 !! key = None)
      ∧ projects w2 = projects w).
    { apply Delete_inv in Hd. cbv zeta in Hd.
      change (objKey (metaOf (named ("", n) ns0))) with ("", n) in Hd.
      destruct Hd as [->|[->|(old & Hold & _ & ->)]]; cbn.
      - done.
      - split_and!; [|intros key Hk; by apply lookup_delete_None; right|done].
        intros key ns1 Hl Hne. by rewrite lookup_delete_ne.
      - split_and!; [| |done].
        + intros key ns1 Hl Hne. by rewrite lookup_insert_ne.
        + intros key Hk. rewrite lookup_insert_ne; [done|]. cbn in Hold. congruence. }
    destruct Hstep as (Hs1 & Hs2 & Hs3).
    assert (Hrest : deleteNamespaces project rest w2 = (r, w') →
              (∀ key ns, namespaces w !! key = Some ns →
                 key.1 ≠ "" ∨ key.2 ∉ n :: rest ∨
                   labelOf (Labels (nsMeta ns)) ProjectLabelKey ≠ Name (projMeta project) →
                 namespaces w' !! key = Some ns)
              ∧ (∀ key, namespaces w !! key = None → namespaces w' !! key = None)
              ∧ projects w' = projects w).
    { intros Hr. apply IH in Hr as (Hf & Hn & Hp). rewrite Hp, Hs3.
      split_and!; [|by auto|done].
      intros key ns1 Hl Hc. apply Hf.
      - apply Hs1; [done|]. intros ->. destruct Hc as [?|[Hc|Hc]]; [done|by apply not_elem_of_cons in Hc as [? _]|].
        rewrite Hl0 in Hl. injection Hl as <-. done.
      - destruct Hc as [?|[Hc|?]]; [by left| |by right; right].
        right; left. by apply not_elem_of_cons in Hc as [_ ?]. }
    destruct e as [err|]; [|done].
    unfold IsNotFound. case_bool_decide; cbn; [done|].
    intros [= <- <-]. rewrite Hs3. split_and!; [|by auto|done].
    intros key ns1 Hl Hc. apply Hs1; [done|].
    intros ->. destruct Hc as [?|[Hc|Hc]]; [done|by apply not_elem_of_cons in Hc as [? _]|].
    rewrite Hl0 in Hl. injection Hl as <-. done.
Qed.
End ProjectCleanup.

Section ProjectCleanupClaims.
Import KalypsoProjectReconciler.

Lemma onlyNotFound_tail fs : onlyNotFound fs → onlyNotFound (tail fs).
Proof. destruct fs; [done|]. by inversion 1. Qed.

Lemma onlyNotFound_next w e :
  onlyNotFound (faults w) → nextFault w = Some e → e = ErrNotFound.
Proof.
  unfold nextFault, onlyNotFound. intros Hf.
  destruct (faults w) as [|[e'|] fs]; try done.
  apply Forall_cons in Hf as [Hh _]. destruct Hh as [Hh|Hh]; [done|].
  injection Hh as ->. by intros [= <-].
Qed.

(** With no fault but NotFound the loop runs to its end. *)
Lemma deleteNamespaces_tolerant project names w :
  onlyNotFound (faults w) →
  ∃ w', deleteNamespaces project names w = (inr tt, w').
Proof.
  revert w. induction names as [|n rest IH]; intros w Hf; [by eexists|].
  rewrite deleteNamespaces_cons. unfold mbind, M_bind.
  destruct (Get _ w) as [[err|ns] w1] eqn:Hg.
  - assert (err = ErrNotFound) as ->.
    { apply Get_error in Hg as [Hn|[-> _]]; [|done]. by eapply onlyNotFound_next. }
    apply Get_inv in Hg as [-> _]. apply IH. cbn. by apply onlyNotFound_tail.
  - apply Get_inv in Hg as [-> _].
    assert (Hf1 : onlyNotFound (tail (faults w))) by by apply onlyNotFound_tail.
    case_bool_decide; [|by apply IH].
    cbn. destruct (Delete _ _) as [e w2] eqn:Hd.
    assert (Hf2 : onlyNotFound (faults w2)).
    { apply Delete_inv in Hd. cbv zeta in Hd.
      destruct Hd as [->|[->|(old & _ & _ & ->)]]; cbn; by apply onlyNotFound_tail. }
    destruct e as [err|]; [|by apply IH].
    assert (err = ErrNotFound) as ->.
    { apply Delete_error in Hd as [Hn| ->]; [|done].
      eapply onlyNotFound_next; [|done]. done. }
    cbn. by apply IH.
Qed.

Lemma Delete_removes {A} `{Object A} (o : A) w old :
  nextFault w = None →
  store w !! objKey (metaOf o) = Some old →
  Finalizers (metaOf old) = [] →
  Delete o w =
    (None, record (mkApiCall VDelete kindOf (objKey (metaOf o)) None)
             (setStore (delete (objKey (metaOf o)) (store w))
                (setFaults (tail (faults w)) w))).
Proof.
  intros Hn Hl Hf. unfold Delete, mbind, M_bind, mret, M_ret.
  rewrite request_nofault by done. rewrite store_setFaults, Hl.
  by rewrite bool_decide_eq_true_2.
Qed.

(** In a run without faults a listed namespace that carries the label of
    the Project and no finalizer is gone afterwards. *)
Lemma deleteNamespaces_removes project names w r w' n ns :
  deleteNamespaces project names w = (r, w') →
  faults w = [] →
  n ∈ names →
  namespaces w !! ("", n) = Some ns →
  labelOf (Labels (nsMeta ns)) ProjectLabelKey = Name (projMeta project) →
  Finalizers (nsMeta ns) = [] →
  namespaces w' !! ("", n) = None.
Proof.
  revert w. induction names as [|m rest IH]; intros w Hr Hf Hin Hl Hlab Hfin.
  { by apply elem_of_nil in Hin. }
  rewrite deleteNamespaces_cons in Hr. unfold mbind, M_bind in Hr.
  assert (Hnf : nextFault w = None) by (unfold nextFault; by rewrite Hf).
  rewrite Get_nofault in Hr by done. cbn in Hr.
  destruct (namespaces w !! ("", m)) as [nsm|] eqn:Hm.
  - change (Labels (nsMeta (named _ nsm))) with (Labels (nsMeta nsm)) in Hr.
    case_bool_decide as Hlm.
    + cbn in Hr. destruct (decide (m = n)) as [->|Hne].
      * rewrite Hl in Hm. injection Hm as <-.
        erewrite Delete_removes in Hr;
          [|unfold nextFault; cbn; by rewrite Hf|cbn; done|done]. cbn in Hr.
        apply deleteNamespaces_frame in Hr as (_ & Hnone & _).
        apply Hnone. cbn. by rewrite lookup_delete_eq.
      * destruct (Delete _ _) as [e w2] eqn:Hd.
        assert (Hw2 : faults w2 = [] ∧ namespaces w2 !! ("", n) = Some ns).
        { apply Delete_inv in Hd. cbv zeta in Hd.
          change (objKey (metaOf (named ("", m) nsm))) with ("", m) in Hd.
          destruct Hd as [->|[->|(old & _ & _ & ->)]]; cbn; rewrite Hf; (split; [done|]).
          - done.
          - rewrite lookup_delete_ne; [done|by intros [= ?]].
          - rewrite lookup_insert_ne; [done|by intros [= ?]]. }
        destruct Hw2 as [Hf2 Hl2].
        assert (Hin' : n ∈ rest).
        { apply elem_of_cons in Hin as [->|?]; done. }
        destruct e as [err|].
        -- assert (err = ErrNotFound) as ->.
           { apply Delete_error in Hd as [Hn| ->]; [|done]. cbn in Hn.
             unfold nextFault in Hn. cbn in Hn. by rewrite Hf in Hn. }
           cbn in Hr. by eapply IH.
        -- by eapply IH.
    + assert (m ≠ n) by (intros ->; rewrite Hl in Hm; by injection Hm as <-).
      eapply IH; [done|cbn; by rewrite Hf| |done..].
      apply elem_of_cons in Hin as [->|?]; done.
  - cbn in Hr. assert (m ≠ n) by (intros ->; by rewrite Hl in Hm).
    eapply IH; [done|cbn; by rewrite Hf| |done..].
    apply elem_of_cons in Hin as [->|?]; done.
Qed.

(** The update that closes [reconcileDelete]. *)
Lemma removeFinalizer_inv project w e w1 :
  Update (mkKalypsoProject (RemoveFinalizer (projMeta project) FinalizerName)
            (projSpec project) (projStatus project)) w = (e, w1) →
  calls w1 = mkApiCall VUpdate KProject (objKey (projMeta project)) e :: calls w
  ∧ namespaces w1 = namespaces w
  ∧ (e = None →
     ∀ p, projects w1 !! objKey (projMeta project) = Some p →
          FinalizerName ∉ Finalizers (projMeta p)).
Proof.
  intros Hu. apply Update_inv in Hu. cbv zeta in Hu.
  change (objKey (metaOf _)) with (objKey (projMeta project)) in Hu.
  destruct e as [err|]; [by subst w1|].
  destruct Hu as (old & Hold & ->). unfold put. case_bool_decide; cbn.
  - split_and!; try done. intros _ p. by rewrite lookup_delete_eq.
  - split_and!; try done. intros _ p. rewrite lookup_insert_eq. intros [= <-].
    cbn. rewrite list_elem_of_filter. by intros [? _].
Qed.

Lemma reconcileDelete_inv project w ret w' :
  reconcileDelete project w = (ret, w') →
  (∃ err, deleteNamespaces project (projCreatedNamespaces (projStatus project)) w
            = (inl (Result0, Some err), w') ∧ ret = (Result0, Some err))
  ∨ (∃ w1 w2 e,
       deleteNamespaces project (projCreatedNamespaces (projStatus project)) w
         = (inr tt, w1) ∧
       Update (mkKalypsoProject (RemoveFinalizer (projMeta project) FinalizerName)
                 (projSpec project) (projStatus project)) w1 = (e, w2) ∧
       ret = (Result0, e) ∧
       calls w' = calls w2 ∧ namespaces w' = namespaces w2 ∧ projects w' = projects w2).
Proof.
  unfold reconcileDelete, mbind, M_bind.
  destruct (deleteNamespaces _ _ w) as [[ret0|[]] w1] eqn:Hl.
  - intros [= <- <-]. left.
    assert (∃ err, ret0 = (Result0, Some err)) as [err ->]; [|eauto].
    clear -Hl. revert w Hl.
    induction (projCreatedNamespaces (projStatus project)) as [|n rest IH]; intros w.
    { by intros [=]. }
    rewrite deleteNamespaces_cons. unfold mbind, M_bind.
    destruct (Get _ w) as [[err|ns] w2].
    + case_match; [by apply IH|]. intros [= <- _]. eauto.
    + case_match; [|by apply IH]. cbn.
      destruct (Delete _ _) as [[err|] w3]; [|by apply IH].
      case_match; [|by apply IH]. intros [= <- _]. eauto.
  - destruct (Update _ w1) as [e w2] eqn:Hu. right. exists w1, w2, e.
    destruct e as [err|]; cbn in H; injection H as <- <-; done.
Qed.

(** C8.  When the recorded list of namespaces is empty, the cleanup of a
    Project sends one request only, the update that removes its finalizer
    (whose outcome is the outcome of the reconcile), and it leaves every
    namespace of the cluster as it was; after a successful update the
    finalizer is gone from the stored Project. *)
Theorem C8_empty_list_deletes_nothing project w ret w' :
  projCreatedNamespaces (projStatus project) = [] →
  reconcileDelete project w = (ret, w') →
  calls w' = mkApiCall VUpdate KProject (objKey (projMeta project)) ret.2 :: calls w
  ∧ ret.1 = Result0
  ∧ namespaces w' = namespaces w
  ∧ (ret.2 = None →
     ∀ p, projects w' !! objKey (projMeta project) = Some p →
          FinalizerName ∉ Finalizers (projMeta p)).
Proof.
  intros Hnil Hr. apply reconcileDelete_inv in Hr. rewrite Hnil in Hr.
  destruct Hr as [(err & [=] & _)|(w1 & w2 & e & [= <-] & Hu & -> & Hc & Hn & Hp)].
  apply removeFinalizer_inv in Hu as (Hc2 & Hn2 & Hfin).
  rewrite Hc, Hn, Hp. done.
Qed.

(** C5.  The cleanup of a Project leaves in place every namespace that is
    not on the recorded list or whose project label does not name the
    Project.  When the only errors the API server raises are NotFound
    (on the fetch or on the delete of a namespace), the cleanup goes on
    to the update that removes the finalizer, and the outcome of that
    update is the outcome of the reconcile.  In a run without faults a
    listed namespace that carries the label of the Project and holds no
    finalizer is removed. *)
Theorem C5_cleanup_deletes_only_labelled_namespaces project w ret w' :
  reconcileDelete project w = (ret, w') →
  (∀ key ns,
     namespaces w !! key = Some ns →
     key.1 ≠ "" ∨ key.2 ∉ projCreatedNamespaces (projStatus project) ∨
       labelOf (Labels (nsMeta ns)) ProjectLabelKey ≠ Name (projMeta project) →
     namespaces w' !! key = Some ns)
  ∧ (onlyNotFound (faults w) →
     head (calls w') = Some (mkApiCall VUpdate KProject (objKey (projMeta project)) ret.2)
     ∧ ret.1 = Result0
     ∧ (ret.2 = None →
        ∀ p, projects w' !! objKey (projMeta project) = Some p →
             FinalizerName ∉ Finalizers (projMeta p)))
  ∧ (faults w = [] →
     ∀ n ns,
       n ∈ projCreatedNamespaces (projStatus project) →
       namespaces w !! ("", n) = Some ns →
       labelOf (Labels (nsMeta ns)) ProjectLabelKey = Name (projMeta project) →
       Finalizers (nsMeta ns) = [] →
       namespaces w' !! ("", n) = None).
Proof.
  intros Hr. apply reconcileDelete_inv in Hr.
  destruct Hr as [(err & Hl & ->)|(w1 & w2 & e & Hl & Hu & -> & Hc & Hn & Hp)].
  - split_and!.
    + by apply deleteNamespaces_frame in Hl as (Hf & _).
    + intros Hnf. destruct (deleteNamespaces_tolerant project
        (projCreatedNamespaces (projStatus project)) w Hnf) as [w1 Hl1]. congruence.
    + intros Hf n ns. by eapply deleteNamespaces_removes.
  - apply removeFinalizer_inv in Hu as (Hc2 & Hn2 & Hfin).
    rewrite Hc, Hn, Hp, Hc2, Hn2. split_and!.
    + by apply deleteNamespaces_frame in Hl as (Hf & _).
    + done.
    + intros Hf n ns. by eapply deleteNamespaces_removes.
Qed.

Lemma C8_empty_list_deletes_nothing_witness :
  let project := named ("kalypso-system", "demo") demoProject in
  let w := (Reconcile sampleRange ("kalypso-system", "demo")
              (demoWorld [None; None; None; Some (ErrOther "connection refused")])).2 in
  is_Some (namespaces w !! ("", "demo-dev"))
  ∧ namespaces (reconcileDelete project w).2 = namespaces w.
Proof.
  intros project w. split; [vm_compute; eauto|].
  apply (C8_empty_list_deletes_nothing project w
           (reconcileDelete project w).1 (reconcileDelete project w).2).
  - reflexivity.
  - by destruct (reconcileDelete project w).
Defined.

Lemma C5_cleanup_deletes_only_labelled_namespaces_witness :
  let project :=
    mkKalypsoProject (projMeta demoProject) (projSpec demoProject)
      (mkKalypsoProjectStatus "Ready" [] ["demo-dev"; "demo-prod"; "demo-gone"]) in
  let w :=
    mkWorld {[("kalypso-system", "demo") := project]} ∅ ∅
      (<[("", "demo-dev") :=
           mkNamespace (withLabels {[ProjectLabelKey := "demo"]} (emptyMeta "" "demo-dev"))]>
         {[("", "demo-prod") :=
             mkNamespace (withLabels {[ProjectLabelKey := "other"]}
                            (emptyMeta "" "demo-prod"))]})
      ∅ ∅ ∅ ∅ [] [] [] 0%nat in
  namespaces (reconcileDelete project w).2 !! ("", "demo-prod")
    = namespaces w !! ("", "demo-prod")
  ∧ namespaces (reconcileDelete project w).2 !! ("", "demo-dev") = None.
Proof.
  intros project w.
  destruct (C5_cleanup_deletes_only_labelled_namespaces project w
              (reconcileDelete project w).1 (reconcileDelete project w).2)
    as (Hframe & _ & Hgone).
  { by destruct (reconcileDelete project w). }
  split.
  - apply Hframe; [vm_compute; reflexivity|]. right; right. vm_compute. discriminate.
  - eapply Hgone; [reflexivity| |vm_compute; reflexivity|vm_compute; reflexivity|reflexivity].
    apply list_elem_of_here.
Defined.
End ProjectCleanupClaims.

(** * Status conditions *)

Lemma FindStatusCondition_Set cs c :
  ∃ c', FindStatusCondition (SetStatusCondition cs c) (condType c) = Some c'
        ∧ condStatus c' = condStatus c ∧ condReason c' = condReason c
        ∧ condMessage c' = condMessage c.
Proof.
  unfold FindStatusCondition. induction cs as [|e rest IH]; cbn.
  - rewrite bool_decide_eq_true_2 by done. eauto.
  - case_bool_decide as He; cbn.
    + rewrite bool_decide_eq_true_2 by done. eauto.
    + rewrite bool_decide_eq_false_2 by done. done.
Qed.

Lemma FindStatusCondition_Set_ne cs c t :
  t ≠ condType c →
  FindStatusCondition (SetStatusCondition cs c) t = FindStatusCondition cs t.
Proof.
  intros Hne. unfold FindStatusCondition. induction cs as [|e rest IH]; cbn.
  - by rewrite bool_decide_eq_false_2.
  - case_bool_decide as He; cbn.
    + rewrite He. by rewrite !bool_decide_eq_false_2.
    + case_bool_decide; [done|]. apply IH.
Qed.

Section ApplicationClaims.
Import KalypsoApplicationReconciler.

Lemma Get_key {A} `{Object A} key w (o : A) w' :
  (∀ m (o' : A), metaOf (setMeta m o') = m) →
  Get key w = (inr o, w') → objKey (metaOf o) = key.
Proof.
  intros Hm Hg. apply Get_inv in Hg as [_ Ho].
  destruct (Ho _ eq_refl) as (o0 & _ & ->). by apply named_key.
Qed.

(** C6.  An Application that is not being deleted, holds its finalizer and
    has a phase, and whose Project the API server reports as NotFound: the
    reconcile returns a requeue after 30 seconds and no error, whatever
    becomes of the status write it sends; when that write succeeds, the
    stored Application has phase Failed and a Ready condition of status
    False whose message names the missing Project. *)
Theorem C6_missing_project_failed_and_requeued req w app w1 w2 :
  Get req w = (inr app, w1) →
  DeletionTimestamp (appMeta app) = None →
  ApplicationFinalizerName ∈ Finalizers (appMeta app) →
  appPhase (appStatus app) ≠ "" →
  Get (A := KalypsoProject) (Namespace (appMeta app), appProjectRef (appSpec app)) w1
    = (inl ErrNotFound, w2) →
  ∃ w' e,
    Reconcile req w = ((mkResult false 30000000000, None), w')
    ∧ calls w' = mkApiCall VStatusUpdate KApplication req e :: calls w2
    ∧ (e = None →
       ∃ a c, applications w' !! req = Some a
              ∧ appPhase (appStatus a) = ApplicationPhaseFailed
              ∧ FindStatusCondition (appConditions (appStatus a)) "Ready" = Some c
              ∧ condStatus c = ConditionFalse
              ∧ condMessage c =
                  "KalypsoProject '" +:+ appProjectRef (appSpec app) +:+ "' not found").
Proof.
  intros Hg Hdel Hfin Hph Hp.
  assert (Hk : objKey (appMeta app) = req).
  { change (objKey (metaOf app) = req). by eapply Get_key. }
  unfold Reconcile, mbind, M_bind. rewrite Hg.
  rewrite bool_decide_eq_false_2 by (by rewrite Hdel; intros ?).
  unfold ContainsFinalizer. rewrite (bool_decide_eq_true_2 _ Hfin). cbn [negb].
  rewrite (bool_decide_eq_false_2 _ Hph). rewrite Hp.
  change (IsNotFound ErrNotFound) with true. cbv iota.
  unfold logError, setFailedStatus, mbind, M_bind, Now, mret, M_ret.
  destruct (StatusUpdate _ _) as [e w3] eqn:Hs.
  exists w3, e. split; [done|].
  apply StatusUpdate_inv in Hs. cbv zeta in Hs.
  change (objKey (metaOf _)) with (objKey (appMeta app)) in Hs. rewrite Hk in Hs.
  destruct e as [err|]; [by subst w3|].
  destruct Hs as (old & Hold & ->). split; [done|]. intros _.
  destruct (FindStatusCondition_Set (appConditions (appStatus app))
              (mkCondition "Ready" ConditionFalse "ReconciliationFailed"
                 ("KalypsoProject '" +:+ appProjectRef (appSpec app) +:+ "' not found")
                 (clock w2))) as (c & Hc & Hst & _ & Hmsg).
  eexists _, c. cbn. rewrite lookup_insert_eq. split_and!; try done.
Qed.

Lemma C6_missing_project_failed_and_requeued_witness :
  let req := ("kalypso-system", "recommendation-application") in
  let w := applicationWorld false [] in
  (Reconcile req w).1 = (mkResult false 30000000000, None).
Proof.
  intros req w.
  destruct (C6_missing_project_failed_and_requeued req w
              (named req countedApplication) (Get (A := KalypsoApplication) req w).2
              (Get (A := KalypsoProject) ("kalypso-system", "sample-project")
                 (Get (A := KalypsoApplication) req w).2).2)
    as (w' & e & Hr & _).
  - vm_compute. reflexivity.
  - reflexivity.
  - vm_compute. apply list_elem_of_here.
  - vm_compute. discriminate.
  - vm_compute. reflexivity.
  - by rewrite Hr.
Defined.

(** C9.  An Application past its gates whose Project is Ready: when the
    listing of the Servers fails, the reconcile logs the failure, fetches
    the Application again and sends a status with phase Ready and
    ActiveModels 0.  The error of that write decides the outcome; when the
    write succeeds the reconcile ends without error and the stored
    Application has phase Ready and ActiveModels 0, whatever count it held
    before. *)
Theorem C9_failed_count_publishes_zero req w app w1 project w2 err w3
    (app' : KalypsoApplication) w4 :
  Get req w = (inr app, w1) →
  DeletionTimestamp (appMeta app) = None →
  ApplicationFinalizerName ∈ Finalizers (appMeta app) →
  appPhase (appStatus app) ≠ "" →
  Get (A := KalypsoProject) (Namespace (appMeta app), appProjectRef (appSpec app)) w1
    = (inr project, w2) →
  projPhase (projStatus project) = ProjectPhaseReady →
  List_ (A := KalypsoTritonServer) (Namespace (appMeta app)) w2 = (inl err, w3) →
  Get req (writeLog (LogError "Failed to count active TritonServers") w3) = (inr app', w4) →
  ∃ ret w' e,
    Reconcile req w = (ret, w')
    ∧ calls w' = mkApiCall VStatusUpdate KApplication req e :: calls w4
    ∧ (e = None →
       ret = (Result0, None)
       ∧ ∃ a, applications w' !! req = Some a
              ∧ appPhase (appStatus a) = ApplicationPhaseReady
              ∧ appActiveModels (appStatus a) = 0).
Proof.
  intros Hg Hdel Hfin Hph Hp Hready Hl Hg'.
  assert (Hk : objKey (appMeta app') = req).
  { change (objKey (metaOf app') = req). by eapply Get_key. }
  unfold Reconcile, mbind, M_bind. rewrite Hg.
  rewrite bool_decide_eq_false_2 by (by rewrite Hdel; intros ?).
  unfold ContainsFinalizer. rewrite (bool_decide_eq_true_2 _ Hfin). cbn [negb].
  rewrite (bool_decide_eq_false_2 _ Hph). rewrite Hp.
  rewrite bool_decide_eq_false_2 by (by intros ?).
  unfold countActiveTritonServers, mbind, M_bind. rewrite Hl.
  cbn [mret M_ret]. unfold logError. rewrite Hg'. unfold Now.
  destruct (StatusUpdate _ _) as [e w5] eqn:Hs.
  apply StatusUpdate_inv in Hs. cbv zeta in Hs.
  change (objKey (metaOf _)) with (objKey (appMeta app')) in Hs. rewrite Hk in Hs.
  destruct e as [e|].
  - subst w5. destruct (IsConflict e); eexists _, _, (Some e); by split_and!.
  - destruct Hs as (old & Hold & ->). eexists _, _, None. split; [done|].
    split; [done|]. intros _. split; [done|].
    eexists. cbn. rewrite lookup_insert_eq. done.
Qed.

Lemma C9_failed_count_publishes_zero_witness :
  let req := ("kalypso-system", "recommendation-application") in
  let w := applicationWorld true [None; None; Some (ErrOther "etcdserver: request timed out")] in
  (appActiveModels ∘ appStatus) <$> applications w !! req = Some 3
  ∧ (Reconcile req w).1 = (Result0, None)
  ∧ (appActiveModels ∘ appStatus) <$> applications (Reconcile req w).2 !! req = Some 0.
Proof.
  intros req w.
  pose (w1 := (Get (A := KalypsoApplication) req w).2).
  pose (w2 := (Get (A := KalypsoProject) ("kalypso-system", "sample-project") w1).2).
  pose (w3 := (List_ (A := KalypsoTritonServer) "kalypso-system" w2).2).
  pose (w4 := (Get (A := KalypsoApplication) req
                 (writeLog (LogError "Failed to count active TritonServers") w3)).2).
  destruct (C9_failed_count_publishes_zero req w (named req countedApplication) w1
              (named ("kalypso-system", "sample-project") readyProject) w2
              (ErrOther "etcdserver: request timed out") w3
              (named req countedApplication) w4)
    as (ret & w' & e & Hr & Hc & Hok).
  - vm_compute. reflexivity.
  - reflexivity.
  - vm_compute. apply list_elem_of_here.
  - vm_compute. discriminate.
  - vm_compute. reflexivity.
  - reflexivity.
  - vm_compute. reflexivity.
  - vm_compute. reflexivity.
  - split; [vm_compute; reflexivity|].
    assert (e = None) as ->.
    { assert (Hw : w' = (Reconcile req w).2) by (by rewrite Hr).
      rewrite Hw in Hc. vm_compute in Hc. by injection Hc as <-. }
    destruct (Hok eq_refl) as (-> & a & Ha & _ & Hzero).
    rewrite Hr. cbn [fst snd]. split; [done|]. rewrite Ha. cbn. by rewrite Hzero.
Defined.
End ApplicationClaims.

(** * The log of a run *)

Section ClientLogs.
Context {A : Type} `{Object A}.

Lemma request_logs {B} v k key (serve : World → (error + B) * World) w :
  (∀ w0, logs (serve w0).2 = logs w0) →
  logs (request v k key serve w).2 = logs w.
Proof.
  intros Hs. unfold request.
  destruct (faults w) as [|[e|] fs]; cbn; try done.
  - specialize (Hs (setFaults [] w)). by destruct (serve _).
  - specialize (Hs (setFaults fs w)). by destruct (serve _).
Qed.

Lemma Get_logs key w : logs (Get (A := A) key w).2 = logs w.
Proof. unfold Get. apply request_logs. intros w0. by destruct (store w0 !! key). Qed.

Lemma Create_logs (o : A) w : logs (Create o w).2 = logs w.
Proof.
  unfold Create, mbind, M_bind, mret, M_ret.
  destruct (request _ _ _ _ w) as [r w1] eqn:Hr. cbn.
  change w1 with (r, w1).2. rewrite <- Hr. apply request_logs. intros w0.
  destruct (store w0 !! _); cbn; [done|]. by rewrite logs_setStore.
Qed.

Lemma put_logs key (o : A) w : logs (put key o w) = logs w.
Proof. unfold put. case_bool_decide; by rewrite logs_setStore. Qed.

Lemma Update_logs (o : A) w : logs (Update o w).2 = logs w.
Proof.
  unfold Update, mbind, M_bind, mret, M_ret.
  destruct (request _ _ _ _ w) as [r w1] eqn:Hr. cbn.
  change w1 with (r, w1).2. rewrite <- Hr. apply request_logs. intros w0.
  destruct (store w0 !! _); cbn; [|done]. by rewrite put_logs.
Qed.

Lemma StatusUpdate_logs (o : A) w : logs (StatusUpdate o w).2 = logs w.
Proof.
  unfold StatusUpdate, mbind, M_bind, mret, M_ret.
  destruct (request _ _ _ _ w) as [r w1] eqn:Hr. cbn.
  change w1 with (r, w1).2. rewrite <- Hr. apply request_logs. intros w0.
  destruct (store w0 !! _); cbn; [|done]. by rewrite logs_setStore.
Qed.

Lemma CreateOrUpdate_logs `{EqDecision A} (fresh : A) mutate w :
  logs (CreateOrUpdate fresh mutate w).2 = logs w.
Proof.
  unfold CreateOrUpdate, mbind, M_bind, mret, M_ret.
  pose proof (Get_logs (objKey (metaOf fresh)) w) as Hg.
  destruct (Get _ w) as [[err|existing] w1]; cbn in Hg.
  - destruct (IsNotFound err); [|done].
    destruct (mutate fresh); [done|]. by rewrite Create_logs.
  - destruct (mutate existing); [done|].
    case_bool_decide; [done|]. by rewrite Update_logs.
Qed.
End ClientLogs.

(** No list is its own tail. *)
Lemma cons_neq_self {X} (x : X) (l : list X) : l ≠ x :: l.
Proof. intros Heq. apply (f_equal length) in Heq. cbn in Heq. lia. Qed.

Section ServerClaims.
Import KalypsoTritonServerReconciler.

Lemma setFailedStatus_logs server message w :
  logs (setFailedStatus server message w).2 = logs w.
Proof.
  unfold setFailedStatus, mbind, M_bind, Now, mret, M_ret.
  pose proof (StatusUpdate_logs
    (withStatus
       (mkKalypsoTritonServerStatus TritonServerPhaseFailed
          (srvDeploymentName (srvStatus server)) (srvServiceEndpoint (srvStatus server))
          (srvAvailableReplicas (srvStatus server)) message
          (SetStatusCondition (srvConditions (srvStatus server))
             (mkCondition "Available" ConditionFalse "ReconciliationFailed" message
                (clock w)))) server) w) as Hs.
  by destruct (StatusUpdate _ w).
Qed.

(** A run that logs its success went through every step of [Reconcile]. *)
Lemma Reconcile_success_path req w ret w' :
  Reconcile req w = (ret, w') →
  logs w' = LogInfo "Successfully reconciled KalypsoTritonServer" :: logs w →
  ret = (Result0, None)
  ∧ ∃ server w1 app w2 w3 w4 (deployment : Deployment) w5
      (server' : KalypsoTritonServer) w6 w7,
      Get req w = (inr server, w1)
      ∧ DeletionTimestamp (srvMeta server) = None
      ∧ TritonServerFinalizerName ∈ Finalizers (srvMeta server)
      ∧ srvPhase (srvStatus server) ≠ ""
      ∧ Get (Namespace (srvMeta server), srvApplicationRef (srvSpec server)) w1
          = (inr app, w2)
      ∧ reconcileDeployment server app (Name (srvMeta server) +:+ "-deploy") w2 = (None, w3)
      ∧ reconcileService server (Name (srvMeta server) +:+ "-svc") w3 = (None, w4)
      ∧ Get (Namespace (srvMeta server), Name (srvMeta server) +:+ "-deploy") w4
          = (inr deployment, w5)
      ∧ Get req w5 = (inr server', w6)
      ∧ StatusUpdate (withStatus (publishedStatus server' deployment (clock w6)) server') w6
          = (None, w7)
      ∧ w' = writeLog (LogInfo "Successfully reconciled KalypsoTritonServer") w7.
Proof.
  unfold Reconcile, mbind, M_bind.
  pose proof (Get_logs (A := KalypsoTritonServer) req w) as Hl1.
  destruct (Get req w) as [[err|server] w1] eqn:Hg1; cbn [snd] in Hl1.
  { destruct (IsNotFound err); cbn; intros [= <- <-]; cbn; rewrite Hl1; by intros [=]. }
  assert (Hk1 : objKey (srvMeta server) = req).
  { change (objKey (metaOf server) = req). by eapply Get_key. }
  case_bool_decide as Hdel.
  { unfold reconcileDelete, mbind, M_bind.
    pose proof (Update_logs (mkKalypsoTritonServer
      (RemoveFinalizer (srvMeta server) TritonServerFinalizerName)
      (srvSpec server) (srvStatus server)) w1) as Hl2.
    destruct (Update _ w1) as [[e|] w2]; cbn [snd] in Hl2.
    - destruct (IsConflict e); intros [= <- <-]; rewrite Hl2, Hl1; intros Hc;
        by apply cons_neq_self in Hc.
    - cbn. intros [= <- <-]. cbn. rewrite Hl2, Hl1. by intros [=]. }
  unfold ContainsFinalizer. case_bool_decide as Hfin; cbn [negb].
  2:{ pose proof (Update_logs (mkKalypsoTritonServer
      (AddFinalizer (srvMeta server) TritonServerFinalizerName)
      (srvSpec server) (srvStatus server)) w1) as Hl2.
    destruct (Update _ w1) as [[e|] w2]; cbn [snd] in Hl2;
      intros [= <- <-]; rewrite Hl2, Hl1; intros Hc; by apply cons_neq_self in Hc. }
  case_bool_decide as Hph.
  { match goal with |- context [StatusUpdate ?o w1] =>
      pose proof (StatusUpdate_logs o w1) as Hl2 end.
    destruct (StatusUpdate _ w1) as [[e|] w2]; cbn [snd] in Hl2;
      intros [= <- <-]; rewrite Hl2, Hl1; intros Hc; by apply cons_neq_self in Hc. }
  match goal with |- context [Get (A := KalypsoApplication) ?k w1] =>
    pose proof (Get_logs (A := KalypsoApplication) k w1) as Hl2 end.
  destruct (Get _ w1) as [[err|app] w2] eqn:Hg2; cbn [snd] in Hl2.
  { destruct (IsNotFound err).
    - unfold logError. match goal with |- context [setFailedStatus ?s ?m ?w0] =>
        pose proof (setFailedStatus_logs s m w0) as Hl3 end.
      destruct (setFailedStatus _ _ _) as [[] w3]. cbn in Hl3.
      intros [= <- <-]. rewrite Hl3, Hl2, Hl1. by intros [=].
    - intros [= <- <-]. rewrite Hl2, Hl1. intros Hc. by apply cons_neq_self in Hc. }
  match goal with |- context [reconcileDeployment ?s ?a ?n w2] =>
    pose proof (CreateOrUpdate_logs (A := Deployment)
      (mkDeployment (emptyMeta (Namespace (srvMeta s)) n) None None
         (mkPodTemplateSpec ∅ ∅ []) 0) (mutateDeployment s a) w2) as Hl3 end.
  change (CreateOrUpdate _ (mutateDeployment server app)) with
    (reconcileDeployment server app (Name (srvMeta server) +:+ "-deploy")) in Hl3.
  destruct (reconcileDeployment _ _ _ w2) as [[err|] w3] eqn:Hd; cbn [snd] in Hl3.
  { unfold logError. match goal with |- context [setFailedStatus ?s ?m ?w0] =>
      pose proof (setFailedStatus_logs s m w0) as Hl4 end.
    destruct (setFailedStatus _ _ _) as [[] w4]. cbn in Hl4.
    intros [= <- <-]. rewrite Hl4, Hl3, Hl2, Hl1. by intros [=]. }
  match goal with |- context [reconcileService ?s ?n w3] =>
    pose proof (CreateOrUpdate_logs (A := Service)
      (mkService (emptyMeta (Namespace (srvMeta s)) n) ∅ [] "" "") (mutateService s) w3)
      as Hl4 end.
  change (CreateOrUpdate _ (mutateService server)) with
    (reconcileService server (Name (srvMeta server) +:+ "-svc")) in Hl4.
  destruct (reconcileService _ _ w3) as [[err|] w4] eqn:Hs; cbn [snd] in Hl4.
  { unfold logError. match goal with |- context [setFailedStatus ?s ?m ?w0] =>
      pose proof (setFailedStatus_logs s m w0) as Hl5 end.
    destruct (setFailedStatus _ _ _) as [[] w5]. cbn in Hl5.
    intros [= <- <-]. rewrite Hl5, Hl4, Hl3, Hl2, Hl1. by intros [=]. }
  match goal with |- context [Get (A := Deployment) ?k w4] =>
    pose proof (Get_logs (A := Deployment) k w4) as Hl5 end.
  destruct (Get _ w4) as [[err|deployment] w5] eqn:Hg5; cbn [snd] in Hl5.
  { intros [= <- <-]. rewrite Hl5, Hl4, Hl3, Hl2, Hl1. intros Hc.
    by apply cons_neq_self in Hc. }
  pose proof (Get_logs (A := KalypsoTritonServer) req w5) as Hl6.
  destruct (Get req w5) as [[err|server'] w6] eqn:Hg6; cbn [snd] in Hl6.
  { intros [= <- <-]. rewrite Hl6, Hl5, Hl4, Hl3, Hl2, Hl1. intros Hc.
    by apply cons_neq_self in Hc. }
  assert (Hk6 : objKey (srvMeta server') = req).
  { change (objKey (metaOf server') = req). by eapply Get_key. }
  unfold Now. cbv zeta.
  assert (Hpayload :
    (if bool_decide (dAvailableReplicas deployment > 0) then
       mkKalypsoTritonServerStatus TritonServerPhaseRunning
         (Name (srvMeta server) +:+ "-deploy")
         ("http://" +:+ (Name (srvMeta server) +:+ "-svc") +:+ "."
            +:+ Namespace (srvMeta server') +:+ ".svc:" +:+ pretty (httpPortOf server'))
         (dAvailableReplicas deployment) "Triton Server is ready to serve inference."
         (SetStatusCondition (srvConditions (srvStatus server'))
            (mkCondition "Available" ConditionTrue "DeploymentReady"
               ("Deployment has " +:+ pretty (dAvailableReplicas deployment)
                  +:+ " available replicas") (clock w6)))
     else
       mkKalypsoTritonServerStatus TritonServerPhasePending
         (Name (srvMeta server) +:+ "-deploy")
         ("http://" +:+ (Name (srvMeta server) +:+ "-svc") +:+ "."
            +:+ Namespace (srvMeta server') +:+ ".svc:" +:+ pretty (httpPortOf server'))
         (dAvailableReplicas deployment) "Waiting for Triton Server to become ready."
         (SetStatusCondition (srvConditions (srvStatus server'))
            (mkCondition "Available" ConditionFalse "DeploymentNotReady"
               "Deployment has no available replicas" (clock w6))))
    = publishedStatus server' deployment (clock w6)).
  { unfold publishedStatus. cbv zeta.
    assert (Name (srvMeta server) = Name (srvMeta server')) as ->; [|done].
    rewrite <- Hk6 in Hk1. by injection Hk1. }
  rewrite Hpayload.
  pose proof (StatusUpdate_logs
    (withStatus (publishedStatus server' deployment (clock w6)) server') w6) as Hl7.
  destruct (StatusUpdate _ w6) as [[e|] w7] eqn:Hu; cbn [snd] in Hl7.
  { destruct (IsConflict e); intros [= <- <-];
      rewrite Hl7, Hl6, Hl5, Hl4, Hl3, Hl2, Hl1; intros Hc;
      by apply cons_neq_self in Hc. }
  cbn. intros [= <- <-] _. split; [done|].
  assert (Hdel' : DeletionTimestamp (srvMeta server) = None).
  { destruct (DeletionTimestamp (srvMeta server)); [|done]. by destruct Hdel. }
  eexists server, w1, app, w2, w3, w4, deployment, w5. eexists server', w6, w7.
  split_and!; done.
Qed.

(** What a run that logs its success leaves in the cluster. *)
Lemma Reconcile_success_inv req w ret w' :
  Reconcile req w = (ret, w') →
  logs w' = LogInfo "Successfully reconciled KalypsoTritonServer" :: logs w →
  ret = (Result0, None)
  ∧ ∃ a d c,
      servers w' !! req = Some a
      ∧ deployments w' !! (req.1, req.2 +:+ "-deploy") = Some d
      ∧ srvDeploymentName (srvStatus a) = req.2 +:+ "-deploy"
      ∧ srvServiceEndpoint (srvStatus a) =
          "http://" +:+ (req.2 +:+ "-svc") +:+ "." +:+ req.1 +:+ ".svc:"
            +:+ pretty (httpPortOf a)
      ∧ srvAvailableReplicas (srvStatus a) = dAvailableReplicas d
      ∧ srvPhase (srvStatus a) =
          (if bool_decide (dAvailableReplicas d > 0)
           then TritonServerPhaseRunning else TritonServerPhasePending)
      ∧ FindStatusCondition (srvConditions (srvStatus a)) "Available" = Some c
      ∧ condStatus c =
          (if bool_decide (dAvailableReplicas d > 0) then ConditionTrue else ConditionFalse).
Proof.
  intros Hr Hl. destruct (Reconcile_success_path _ _ _ _ Hr Hl)
    as (-> & server & w1 & app & w2 & w3 & w4 & deployment & w5 & server' & w6 & w7
        & Hg1 & _ & _ & _ & _ & _ & _ & Hg5 & Hg6 & Hu & ->).
  split; [done|].
  assert (Hk1 : objKey (srvMeta server) = req).
  { change (objKey (metaOf server) = req). by eapply Get_key. }
  destruct Hk1 as [].
  apply Get_inv in Hg5 as [-> Hd5]. destruct (Hd5 _ eq_refl) as (d0 & Hd0 & ->).
  apply Get_inv in Hg6 as [-> Hs6]. destruct (Hs6 _ eq_refl) as (s0 & Hs0 & ->).
  apply StatusUpdate_inv in Hu. cbv zeta in Hu.
  change (objKey (metaOf (withStatus _ _))) with (objKey (srvMeta server)) in Hu.
  destruct Hu as (old & Hold & ->). cbn in Hold, Hs0, Hd0. rewrite Hs0 in Hold.
  injection Hold as <-.
  destruct (FindStatusCondition_Set (srvConditions (srvStatus s0))
    (if bool_decide (dAvailableReplicas d0 > 0) then
       mkCondition "Available" ConditionTrue "DeploymentReady"
         ("Deployment has " +:+ pretty (dAvailableReplicas d0) +:+ " available replicas")
         (clock w4)
     else
       mkCondition "Available" ConditionFalse "DeploymentNotReady"
         "Deployment has no available replicas" (clock w4))) as (c & Hc & Hst & _).
  eexists _, d0, c. cbn. rewrite lookup_insert_eq. split; [done|].
  split; [done|]. unfold publishedStatus. cbn.
  case_bool_decide as Hav; cbn in *; split_and!; try done.
Qed.

(** C4.  After a reconcile of a Server that logs its success, the stored
    Server has phase Running exactly when the available-replica count of
    the stored Deployment is positive, and phase Pending otherwise (so
    when the count is zero), whatever phase it had before; its Available
    condition is True in the first case and False in the second, and the
    published count is that of the Deployment. *)
Theorem C4_phase_follows_available_replicas req w ret w' :
  Reconcile req w = (ret, w') →
  logs w' = LogInfo "Successfully reconciled KalypsoTritonServer" :: logs w →
  ∃ a d c,
    servers w' !! req = Some a
    ∧ deployments w' !! (req.1, req.2 +:+ "-deploy") = Some d
    ∧ srvAvailableReplicas (srvStatus a) = dAvailableReplicas d
    ∧ (srvPhase (srvStatus a) = TritonServerPhaseRunning ↔ dAvailableReplicas d > 0)
    ∧ (srvPhase (srvStatus a) = TritonServerPhasePending ↔ ¬ dAvailableReplicas d > 0)
    ∧ (dAvailableReplicas d = 0 → srvPhase (srvStatus a) = TritonServerPhasePending)
    ∧ FindStatusCondition (srvConditions (srvStatus a)) "Available" = Some c
    ∧ (condStatus c = ConditionTrue ↔ dAvailableReplicas d > 0)
    ∧ (condStatus c = ConditionFalse ↔ ¬ dAvailableReplicas d > 0).
Proof.
  intros Hr Hl.
  destruct (Reconcile_success_inv _ _ _ _ Hr Hl)
    as (_ & a & d & c & Ha & Hd & _ & _ & Hav & Hph & Hc & Hst).
  exists a, d, c. rewrite Hph, Hst.
  case_bool_decide as Hpos; split_and!; try done; try (split; intros; done).
  intros Hz. rewrite Hz in Hpos. lia.
Qed.

Lemma C4_phase_follows_available_replicas_witness :
  let req := ("kalypso-system", "recommendation-v1") in
  let w := serverWorld runningServer [] in
  (srvPhase ∘ srvStatus) <$> servers w !! req = Some TritonServerPhaseRunning
  ∧ (srvPhase ∘ srvStatus) <$> servers (Reconcile req w).2 !! req
      = Some TritonServerPhasePending.
Proof.
  intros req w. split; [vm_compute; reflexivity|].
  destruct (C4_phase_follows_available_replicas req w
              (Reconcile req w).1 (Reconcile req w).2)
    as (a & d & c & Ha & Hd & _ & _ & _ & Hzero & _).
  - by destruct (Reconcile req w).
  - vm_compute. reflexivity.
  - rewrite Ha. cbn. f_equal. apply Hzero.
    assert (Hd' : dAvailableReplicas <$>
                    deployments (Reconcile req w).2 !! (req.1, req.2 +:+ "-deploy")
                  = Some 0) by (vm_compute; reflexivity).
    rewrite Hd in Hd'. by injection Hd'.
Defined.

(** C10.  After a reconcile of a Server that logs its success, the stored
    status names the Deployment [<name>-deploy] and gives the endpoint
    [http://<name>-svc.<namespace>.svc:<port>], the port being the HTTP port
    of the spec when it sets one and 8000 otherwise. *)
Theorem C10_published_names req w ret w' :
  Reconcile req w = (ret, w') →
  logs w' = LogInfo "Successfully reconciled KalypsoTritonServer" :: logs w →
  ∃ a,
    servers w' !! req = Some a
    ∧ srvDeploymentName (srvStatus a) = req.2 +:+ "-deploy"
    ∧ srvServiceEndpoint (srvStatus a) =
        "http://" +:+ (req.2 +:+ "-svc") +:+ "." +:+ req.1 +:+ ".svc:"
          +:+ pretty (match srvNetworking (srvSpec a) with
                      | Some net => match netHttpPort net with
                                    | Some port => port
                                    | None => 8000
                                    end
                      | None => 8000
                      end).
Proof.
  intros Hr Hl.
  destruct (Reconcile_success_inv _ _ _ _ Hr Hl)
    as (_ & a & d & c & Ha & _ & Hn & He & _).
  exists a. split_and!; [done..|]. rewrite He. unfold httpPortOf.
  by destruct (srvNetworking (srvSpec a)) as [[[?|] ? ?]|].
Qed.

Lemma C10_published_names_witness :
  let req := ("kalypso-system", "recommendation-v1") in
  let w := serverWorld sampleServer [] in
  ∃ a, servers (Reconcile req w).2 !! req = Some a
       ∧ srvDeploymentName (srvStatus a) = "recommendation-v1-deploy"
       ∧ srvServiceEndpoint (srvStatus a)
           = "http://recommendation-v1-svc.kalypso-system.svc:9000".
Proof.
  intros req w.
  destruct (C10_published_names req w (Reconcile req w).1 (Reconcile req w).2)
    as (a & Ha & Hn & He).
  - by destruct (Reconcile req w).
  - vm_compute. reflexivity.
  - exists a. split; [done|]. rewrite Hn, He.
    assert (Hs : srvSpec <$> servers (Reconcile req w).2 !! req
                 = Some (srvSpec sampleServer)) by (vm_compute; reflexivity).
    rewrite Ha in Hs. injection Hs as ->. split; vm_compute; reflexivity.
Defined.
End ServerClaims.

(** * Version conflicts *)

Section Conflicts.

Lemma Update_fault {A} `{Object A} (o : A) w e :
  nextFault w = Some e →
  Update o w = (Some e, touch (mkApiCall VUpdate kindOf (objKey (metaOf o)) (Some e)) w).
Proof.
  intros Hn. unfold Update, mbind, M_bind, mret, M_ret. by rewrite (request_fault _ _ _ _ _ e).
Qed.

Lemma StatusUpdate_fault {A} `{Object A} (o : A) w e :
  nextFault w = Some e →
  StatusUpdate o w =
    (Some e, touch (mkApiCall VStatusUpdate kindOf (objKey (metaOf o)) (Some e)) w).
Proof.
  intros Hn. unfold StatusUpdate, mbind, M_bind, mret, M_ret.
  by rewrite (request_fault _ _ _ _ _ e).
Qed.

Lemma Server_conflicts req w w1 :
  let conflict v := touch (mkApiCall v KTritonServer req (Some ErrConflict)) w1 in
  nextFault w1 = Some ErrConflict →
  (serverAtStatusWrite req w w1 →
     KalypsoTritonServerReconciler.Reconcile req w = (requeueNow, conflict VStatusUpdate))
  ∧ (atFinalizerRemoval (A := KalypsoTritonServer) req w w1 →
     KalypsoTritonServerReconciler.Reconcile req w = (requeueNow, conflict VUpdate))
  ∧ (atFinalizerAdd (A := KalypsoTritonServer)
       KalypsoTritonServerReconciler.TritonServerFinalizerName req w w1 →
     KalypsoTritonServerReconciler.Reconcile req w = (failWith ErrConflict, conflict VUpdate))
  ∧ (atFirstPhaseWrite (A := KalypsoTritonServer)
       KalypsoTritonServerReconciler.TritonServerFinalizerName (srvPhase ∘ srvStatus) req w w1 →
     KalypsoTritonServerReconciler.Reconcile req w
       = (failWith ErrConflict, conflict VStatusUpdate)).
Proof.
  intros conflict Hn. subst conflict. cbv beta.
  unfold KalypsoTritonServerReconciler.Reconcile, mbind, M_bind. split_and!.
  - intros (server & w0 & app & w2 & w3 & w4 & d & w5 & server' & Hg & Hdel & Hfin & Hph
            & Hga & Hd & Hs & Hgd & Hg').
    assert (Hk : objKey (srvMeta server') = req).
    { change (objKey (metaOf server') = req). by eapply Get_key. }
    rewrite Hg. rewrite bool_decide_eq_false_2 by (by rewrite Hdel; intros ?).
    unfold ContainsFinalizer. rewrite (bool_decide_eq_true_2 _ Hfin). cbn [negb].
    rewrite (bool_decide_eq_false_2 _ Hph). rewrite Hga, Hd, Hs, Hgd, Hg'.
    unfold Now. cbv zeta.
    rewrite (StatusUpdate_fault _ _ ErrConflict) by done.
    change (objKey (metaOf _)) with (objKey (srvMeta server')). by rewrite Hk.
  - intros (server & Hg & Hdel). change (metaOf server) with (srvMeta server) in Hdel.
    assert (Hk : objKey (srvMeta server) = req).
    { change (objKey (metaOf server) = req). by eapply Get_key. }
    rewrite Hg. rewrite bool_decide_eq_true_2 by done.
    unfold KalypsoTritonServerReconciler.reconcileDelete, mbind, M_bind.
    rewrite (Update_fault _ _ ErrConflict) by done.
    change (objKey (metaOf _)) with (objKey (srvMeta server)). by rewrite Hk.
  - intros (server & Hg & Hdel & Hfin).
    change (metaOf server) with (srvMeta server) in Hdel, Hfin.
    assert (Hk : objKey (srvMeta server) = req).
    { change (objKey (metaOf server) = req). by eapply Get_key. }
    rewrite Hg. rewrite bool_decide_eq_false_2 by (by rewrite Hdel; intros ?).
    unfold ContainsFinalizer. rewrite (bool_decide_eq_false_2 _ Hfin). cbn [negb].
    rewrite (Update_fault _ _ ErrConflict) by done.
    change (objKey (metaOf _)) with
      (objKey (AddFinalizer (srvMeta server)
                 KalypsoTritonServerReconciler.TritonServerFinalizerName)).
    unfold AddFinalizer, ContainsFinalizer. rewrite (bool_decide_eq_false_2 _ Hfin).
    change (objKey (withFinalizers _ _)) with (objKey (srvMeta server)). by rewrite Hk.
  - intros (server & Hg & Hdel & Hfin & Hph). cbn in Hph.
    change (metaOf server) with (srvMeta server) in Hdel, Hfin.
    assert (Hk : objKey (srvMeta server) = req).
    { change (objKey (metaOf server) = req). by eapply Get_key. }
    rewrite Hg. rewrite bool_decide_eq_false_2 by (by rewrite Hdel; intros ?).
    unfold ContainsFinalizer. rewrite (bool_decide_eq_true_2 _ Hfin). cbn [negb].
    rewrite (bool_decide_eq_true_2 _ Hph).
    rewrite (StatusUpdate_fault _ _ ErrConflict) by done.
    change (objKey (metaOf _)) with (objKey (srvMeta server)). by rewrite Hk.
Qed.

Lemma Application_conflicts req w w1 :
  let conflict v := touch (mkApiCall v KApplication req (Some ErrConflict)) w1 in
  nextFault w1 = Some ErrConflict →
  (applicationAtStatusWrite req w w1 →
     KalypsoApplicationReconciler.Reconcile req w = (requeueNow, conflict VStatusUpdate))
  ∧ (applicationAtNotReadyWrite req w w1 →
     KalypsoApplicationReconciler.Reconcile req w = (requeueNow, conflict VStatusUpdate))
  ∧ (atFinalizerRemoval (A := KalypsoApplication) req w w1 →
     KalypsoApplicationReconciler.Reconcile req w = (requeueNow, conflict VUpdate))
  ∧ (atFinalizerAdd (A := KalypsoApplication)
       KalypsoApplicationReconciler.ApplicationFinalizerName req w w1 →
     KalypsoApplicationReconciler.Reconcile req w = (failWith ErrConflict, conflict VUpdate))
  ∧ (atFirstPhaseWrite (A := KalypsoApplication)
       KalypsoApplicationReconciler.ApplicationFinalizerName (appPhase ∘ appStatus) req w w1 →
     KalypsoApplicationReconciler.Reconcile req w
       = (failWith ErrConflict, conflict VStatusUpdate)).
Proof.
  intros conflict Hn. subst conflict. cbv beta.
  unfold KalypsoApplicationReconciler.Reconcile, mbind, M_bind. split_and!.
  - intros (app & w0 & project & w2 & [n cerr] & w3 & app' & Hg & Hdel & Hfin & Hph
            & Hgp & Hready & Hc & Hg').
    assert (Hk : objKey (appMeta app') = req).
    { change (objKey (metaOf app') = req). by eapply Get_key. }
    rewrite Hg. rewrite bool_decide_eq_false_2 by (by rewrite Hdel; intros ?).
    unfold ContainsFinalizer. rewrite (bool_decide_eq_true_2 _ Hfin). cbn [negb].
    rewrite (bool_decide_eq_false_2 _ Hph). rewrite Hgp.
    rewrite bool_decide_eq_false_2 by (by intros ?). rewrite Hc.
    cbn [snd] in Hg'.
    assert (Hlog : (match cerr with
                    | Some _ => logError "Failed to count active TritonServers"
                    | None => mret ()
                    end) w3
                   = ((), match cerr with
                          | Some _ => writeLog (LogError "Failed to count active TritonServers") w3
                          | None => w3
                          end)) by (by destruct cerr).
    rewrite Hlog, Hg'. unfold Now. cbv zeta.
    rewrite (StatusUpdate_fault _ _ ErrConflict) by done.
    change (objKey (metaOf _)) with (objKey (appMeta app')). by rewrite Hk.
  - intros (app & w0 & project & w2 & app' & Hg & Hdel & Hfin & Hph & Hgp & Hnr & Hg').
    assert (Hk : objKey (appMeta app') = req).
    { change (objKey (metaOf app') = req). by eapply Get_key. }
    rewrite Hg. rewrite bool_decide_eq_false_2 by (by rewrite Hdel; intros ?).
    unfold ContainsFinalizer. rewrite (bool_decide_eq_true_2 _ Hfin). cbn [negb].
    rewrite (bool_decide_eq_false_2 _ Hph). rewrite Hgp.
    rewrite (bool_decide_eq_true_2 _ Hnr). unfold logInfo. rewrite Hg'.
    unfold Now. cbv zeta.
    rewrite (StatusUpdate_fault _ _ ErrConflict) by done.
    change (objKey (metaOf _)) with (objKey (appMeta app')). by rewrite Hk.
  - intros (app & Hg & Hdel). change (metaOf app) with (appMeta app) in Hdel.
    assert (Hk : objKey (appMeta app) = req).
    { change (objKey (metaOf app) = req). by eapply Get_key. }
    rewrite Hg. rewrite bool_decide_eq_true_2 by done.
    unfold KalypsoApplicationReconciler.reconcileDelete, mbind, M_bind.
    rewrite (Update_fault _ _ ErrConflict) by done.
    change (objKey (metaOf _)) with (objKey (appMeta app)). by rewrite Hk.
  - intros (app & Hg & Hdel & Hfin).
    change (metaOf app) with (appMeta app) in Hdel, Hfin.
    assert (Hk : objKey (appMeta app) = req).
    { change (objKey (metaOf app) = req). by eapply Get_key. }
    rewrite Hg. rewrite bool_decide_eq_false_2 by (by rewrite Hdel; intros ?).
    unfold ContainsFinalizer. rewrite (bool_decide_eq_false_2 _ Hfin). cbn [negb].
    rewrite (Update_fault _ _ ErrConflict) by done.
    change (objKey (metaOf _)) with
      (objKey (AddFinalizer (appMeta app)
                 KalypsoApplicationReconciler.ApplicationFinalizerName)).
    unfold AddFinalizer, ContainsFinalizer. rewrite (bool_decide_eq_false_2 _ Hfin).
    change (objKey (withFinalizers _ _)) with (objKey (appMeta app)). by rewrite Hk.
  - intros (app & Hg & Hdel & Hfin & Hph). cbn in Hph.
    change (metaOf app) with (appMeta app) in Hdel, Hfin.
    assert (Hk : objKey (appMeta app) = req).
    { change (objKey (metaOf app) = req). by eapply Get_key. }
    rewrite Hg. rewrite bool_decide_eq_false_2 by (by rewrite Hdel; intros ?).
    unfold ContainsFinalizer. rewrite (bool_decide_eq_true_2 _ Hfin). cbn [negb].
    rewrite (bool_decide_eq_true_2 _ Hph).
    rewrite (StatusUpdate_fault _ _ ErrConflict) by done.
    change (objKey (metaOf _)) with (objKey (appMeta app)). by rewrite Hk.
Qed.

Lemma Project_conflicts range req w w1 :
  let conflict v := touch (mkApiCall v KProject req (Some ErrConflict)) w1 in
  nextFault w1 = Some ErrConflict →
  (atFinalizerAdd (A := KalypsoProject) KalypsoProjectReconciler.FinalizerName req w w1 →
     KalypsoProjectReconciler.Reconcile range req w = (failWith ErrConflict, conflict VUpdate))
  ∧ (atFirstPhaseWrite (A := KalypsoProject) KalypsoProjectReconciler.FinalizerName
       (projPhase ∘ projStatus) req w w1 →
     KalypsoProjectReconciler.Reconcile range req w
       = (failWith ErrConflict, conflict VStatusUpdate)).
Proof.
  intros conflict Hn. subst conflict. cbv beta.
  unfold KalypsoProjectReconciler.Reconcile, mbind, M_bind. split_and!.
  - intros (project & Hg & Hdel & Hfin).
    change (metaOf project) with (projMeta project) in Hdel, Hfin.
    assert (Hk : objKey (projMeta project) = req).
    { change (objKey (metaOf project) = req). by eapply Get_key. }
    rewrite Hg. rewrite bool_decide_eq_false_2 by (by rewrite Hdel; intros ?).
    unfold ContainsFinalizer. rewrite (bool_decide_eq_false_2 _ Hfin). cbn [negb].
    rewrite (Update_fault _ _ ErrConflict) by done.
    change (objKey (metaOf _)) with
      (objKey (AddFinalizer (projMeta project) KalypsoProjectReconciler.FinalizerName)).
    unfold AddFinalizer, ContainsFinalizer. rewrite (bool_decide_eq_false_2 _ Hfin).
    change (objKey (withFinalizers _ _)) with (objKey (projMeta project)). by rewrite Hk.
  - intros (project & Hg & Hdel & Hfin & Hph). cbn in Hph.
    change (metaOf project) with (projMeta project) in Hdel, Hfin.
    assert (Hk : objKey (projMeta project) = req).
    { change (objKey (metaOf project) = req). by eapply Get_key. }
    rewrite Hg. rewrite bool_decide_eq_false_2 by (by rewrite Hdel; intros ?).
    unfold ContainsFinalizer. rewrite (bool_decide_eq_true_2 _ Hfin). cbn [negb].
    rewrite (bool_decide_eq_true_2 _ Hph).
    rewrite (StatusUpdate_fault _ _ ErrConflict) by done.
    change (objKey (metaOf _)) with (objKey (projMeta project)). by rewrite Hk.
Qed.

(** C3, as the code has it.  A version conflict met by the closing status
    write of the Server and of the Application reconcile, by the write of
    the ProjectReady=False condition of the Application reconcile, or by the
    update that removes the finalizer of a Server or an Application makes
    the reconcile return an immediate requeue and no error.  A version
    conflict met by the update that adds the finalizer, or by the write of
    the first phase, is returned as the error of the reconcile, in the
    Project, the Application and the Server reconciler alike.  In every
    case the conflicting request changes nothing. *)
Theorem C3_conflict_handling range req w w1 :
  nextFault w1 = Some ErrConflict →
  let server v := touch (mkApiCall v KTritonServer req (Some ErrConflict)) w1 in
  let application v := touch (mkApiCall v KApplication req (Some ErrConflict)) w1 in
  let project v := touch (mkApiCall v KProject req (Some ErrConflict)) w1 in
  (* requeued *)
  (serverAtStatusWrite req w w1 →
     KalypsoTritonServerReconciler.Reconcile req w = (requeueNow, server VStatusUpdate))
  ∧ (applicationAtStatusWrite req w w1 →
     KalypsoApplicationReconciler.Reconcile req w = (requeueNow, application VStatusUpdate))
  ∧ (applicationAtNotReadyWrite req w w1 →
     KalypsoApplicationReconciler.Reconcile req w = (requeueNow, application VStatusUpdate))
  ∧ (atFinalizerRemoval (A := KalypsoTritonServer) req w w1 →
     KalypsoTritonServerReconciler.Reconcile req w = (requeueNow, server VUpdate))
  ∧ (atFinalizerRemoval (A := KalypsoApplication) req w w1 →
     KalypsoApplicationReconciler.Reconcile req w = (requeueNow, application VUpdate))
  (* returned as the error *)
  ∧ (atFinalizerAdd (A := KalypsoTritonServer)
       KalypsoTritonServerReconciler.TritonServerFinalizerName req w w1 →
     KalypsoTritonServerReconciler.Reconcile req w = (failWith ErrConflict, server VUpdate))
  ∧ (atFinalizerAdd (A := KalypsoApplication)
       KalypsoApplicationReconciler.ApplicationFinalizerName req w w1 →
     KalypsoApplicationReconciler.Reconcile req w
       = (failWith ErrConflict, application VUpdate))
  ∧ (atFinalizerAdd (A := KalypsoProject) KalypsoProjectReconciler.FinalizerName req w w1 →
     KalypsoProjectReconciler.Reconcile range req w = (failWith ErrConflict, project VUpdate))
  ∧ (atFirstPhaseWrite (A := KalypsoTritonServer)
       KalypsoTritonServerReconciler.TritonServerFinalizerName (srvPhase ∘ srvStatus) req w w1 →
     KalypsoTritonServerReconciler.Reconcile req w
       = (failWith ErrConflict, server VStatusUpdate))
  ∧ (atFirstPhaseWrite (A := KalypsoApplication)
       KalypsoApplicationReconciler.ApplicationFinalizerName (appPhase ∘ appStatus) req w w1 →
     KalypsoApplicationReconciler.Reconcile req w
       = (failWith ErrConflict, application VStatusUpdate))
  ∧ (atFirstPhaseWrite (A := KalypsoProject) KalypsoProjectReconciler.FinalizerName
       (projPhase ∘ projStatus) req w w1 →
     KalypsoProjectReconciler.Reconcile range req w
       = (failWith ErrConflict, project VStatusUpdate)).
Proof.
  intros Hn server application project.
  destruct (Server_conflicts req w w1 Hn) as (S1 & S2 & S3 & S4).
  destruct (Application_conflicts req w w1 Hn) as (A1 & A2 & A3 & A4 & A5).
  destruct (Project_conflicts range req w w1 Hn) as (P1 & P2).
  split_and!; done.
Qed.

(** C3 as stated fails: a Server without its finalizer whose
    finalizer-adding update meets a version conflict.  The reconcile sends
    the fetch and the update, and returns the conflict as its error. *)
Lemma C3_conflict_propagated :
  let req := ("kalypso-test", "logging-test-server") in
  let w := mkWorld ∅ ∅ {[req := loggingTestServer]} ∅ ∅ ∅ ∅ ∅
             [None; Some ErrConflict] [] [] 0%nat in
  (KalypsoTritonServerReconciler.Reconcile req w).1 = (Result0, Some ErrConflict)
  ∧ calls (KalypsoTritonServerReconciler.Reconcile req w).2
      = [mkApiCall VUpdate KTritonServer req (Some ErrConflict);
         mkApiCall VGet KTritonServer req None].
Proof. split; vm_compute; reflexivity. Qed.

Lemma C3_conflict_handling_witness :
  let req := ("kalypso-system", "recommendation-v1") in
  let w := serverWorld sampleServer (replicate 8 None ++ [Some ErrConflict]) in
  (KalypsoTritonServerReconciler.Reconcile req w).1 = requeueNow.
Proof.
  intros req w.
  pose (w1 := (Get (A := KalypsoTritonServer) req w).2).
  pose (w2 := (Get (A := KalypsoApplication)
                 ("kalypso-system", "recommendation-application") w1).2).
  pose (w3 := (KalypsoTritonServerReconciler.reconcileDeployment sampleServer
                 countedApplication "recommendation-v1-deploy" w2).2).
  pose (w4 := (KalypsoTritonServerReconciler.reconcileService sampleServer
                 "recommendation-v1-svc" w3).2).
  pose (w5 := (Get (A := Deployment) ("kalypso-system", "recommendation-v1-deploy") w4).2).
  pose (w6 := (Get (A := KalypsoTritonServer) req w5).2).
  destruct (C3_conflict_handling sampleRange req w w6) as (Hs & _).
  { vm_compute. reflexivity. }
  rewrite Hs; [done|].
  exists sampleServer, w1, countedApplication, w2, w3, w4.
  eexists _, w5, sampleServer.
  split_and!; try (vm_compute; reflexivity).
  - apply list_elem_of_here.
  - vm_compute. discriminate.
Defined.
End Conflicts.

(** * Frames: what a request leaves alone *)

Section ClientFrames.
Context {A : Type} `{Object A}.

Lemma request_frame {B} v k key (serve : World → (error + B) * World) w :
  (∀ w0, others (serve w0).2 = others w0 ∧ faults (serve w0).2 = faults w0) →
  others (request v k key serve w).2 = others w
  ∧ faults (request v k key serve w).2 = tail (faults w).
Proof.
  intros Hs. unfold request.
  destruct (faults w) as [|[e|] fs] eqn:Hf; cbn.
  - destruct (Hs (setFaults [] w)) as [Ho Hfs]. destruct (serve _) as [r w1]. cbn in *.
    by rewrite others_record, Ho, others_setFaults.
  - by rewrite others_record, others_setFaults.
  - destruct (Hs (setFaults fs w)) as [Ho Hfs]. destruct (serve _) as [r w1]. cbn in *.
    by rewrite others_record, Ho, others_setFaults.
Qed.

Lemma Get_frame key w :
  others (Get (A := A) key w).2 = others w
  ∧ faults (Get (A := A) key w).2 = tail (faults w).
Proof. unfold Get. apply request_frame. intros w0. by destruct (store w0 !! key). Qed.

Lemma Create_frame (o : A) w :
  others (Create o w).2 = others w ∧ faults (Create o w).2 = tail (faults w).
Proof.
  unfold Create, mbind, M_bind, mret, M_ret.
  destruct (request _ _ _ _ w) as [r w1] eqn:Hr. cbn.
  change w1 with (r, w1).2. rewrite <- Hr. apply request_frame. intros w0.
  destruct (store w0 !! _); cbn; [done|]. by rewrite others_setStore, faults_setStore.
Qed.

Lemma put_frame key (o : A) w :
  others (put key o w) = others w ∧ faults (put key o w) = faults w.
Proof. unfold put. case_bool_decide; by rewrite others_setStore, faults_setStore. Qed.

Lemma Update_frame (o : A) w :
  others (Update o w).2 = others w ∧ faults (Update o w).2 = tail (faults w).
Proof.
  unfold Update, mbind, M_bind, mret, M_ret.
  destruct (request _ _ _ _ w) as [r w1] eqn:Hr. cbn.
  change w1 with (r, w1).2. rewrite <- Hr. apply request_frame. intros w0.
  destruct (store w0 !! _); cbn; [|done]. apply put_frame.
Qed.

Lemma StatusUpdate_frame (o : A) w :
  others (StatusUpdate o w).2 = others w ∧ faults (StatusUpdate o w).2 = tail (faults w).
Proof.
  unfold StatusUpdate, mbind, M_bind, mret, M_ret.
  destruct (request _ _ _ _ w) as [r w1] eqn:Hr. cbn.
  change w1 with (r, w1).2. rewrite <- Hr. apply request_frame. intros w0.
  destruct (store w0 !! _); cbn; [|done]. by rewrite others_setStore, faults_setStore.
Qed.

Lemma CreateOrUpdate_frame `{EqDecision A} (fresh : A) mutate w :
  others (CreateOrUpdate fresh mutate w).2 = others w
  ∧ (faults w = [] → faults (CreateOrUpdate fresh mutate w).2 = []).
Proof.
  unfold CreateOrUpdate, mbind, M_bind, mret, M_ret.
  destruct (Get_frame (objKey (metaOf fresh)) w) as [Ho Hf].
  destruct (Get _ w) as [[err|existing] w1]; cbn in Ho, Hf.
  - destruct (IsNotFound err); [|cbn; split; [done|intros Hq; by rewrite Hf, Hq]].
    destruct (mutate fresh) as [e|o]; [cbn; split; [done|intros Hq; by rewrite Hf, Hq]|].
    destruct (Create_frame o w1) as [Ho' Hf']. split; [congruence|].
    intros Hq. by rewrite Hf', Hf, Hq.
  - destruct (mutate existing) as [e|o]; [cbn; split; [done|intros Hq; by rewrite Hf, Hq]|].
    case_bool_decide; [cbn; split; [done|intros Hq; by rewrite Hf, Hq]|].
    destruct (Update_frame o w1) as [Ho' Hf']. split; [congruence|].
    intros Hq. by rewrite Hf', Hf, Hq.
Qed.
End ClientFrames.

(** * Upserts *)

Ltac simpl_store :=
  repeat (rewrite store_record || rewrite store_setStore
          || rewrite store_setFaults || rewrite store_writeLog).

Section Upsert.
Context {A : Type} `{Object A} `{EqDecision A}.
Variables (fresh : A) (mutate : A → error + A).
Hypothesis metaOf_setMeta : ∀ m (o : A), metaOf (setMeta m o) = m.
Hypothesis setMeta_metaOf : ∀ o : A, setMeta (metaOf o) o = o.
Hypothesis mutate_meta : ∀ x y, mutate x = inr y →
  objKey (metaOf y) = objKey (metaOf x)
  ∧ DeletionTimestamp (metaOf y) = DeletionTimestamp (metaOf x)
  ∧ Finalizers (metaOf y) = Finalizers (metaOf x).
Hypothesis mutate_idem : ∀ x y, mutate x = inr y → mutate y = inr y.
Hypothesis onUpdate_mutated : ∀ old y,
  mutate (named (objKey (metaOf fresh)) old) = inr y → onUpdate old y = y.
Hypothesis fresh_live : DeletionTimestamp (metaOf fresh) = None.

Lemma named_id key (o : A) : objKey (metaOf o) = key → named key o = o.
Proof.
  intros <-. unfold named, objKey. cbn.
  transitivity (setMeta (metaOf o) o); [|apply setMeta_metaOf].
  f_equal. by destruct (metaOf o).
Qed.

Lemma named_meta key (o : A) :
  objKey (metaOf (named key o)) = key
  ∧ DeletionTimestamp (metaOf (named key o)) = DeletionTimestamp (metaOf o)
  ∧ Finalizers (metaOf (named key o)) = Finalizers (metaOf o).
Proof. unfold named. rewrite metaOf_setMeta. by destruct key. Qed.

(** What a successful upsert leaves under the key is a fixed point of the
    mutation. *)
Lemma CreateOrUpdate_upserted w w' :
  CreateOrUpdate fresh mutate w = (None, w') →
  settled (store w) →
  let key := objKey (metaOf fresh) in
  (∃ o, store w' !! key = Some o ∧ mutate (named key o) = inr (named key o))
  ∧ settled (store w')
  ∧ (∀ k, k ≠ key → store w' !! k = store w !! k).
Proof.
  intros Hc Hset key. apply CreateOrUpdate_inv in Hc. fold key in Hc.
  destruct Hc as [(w1 & o & Hg & Hm & Hc)|[(ex & Hg & Hm)|(w1 & ex & o & Hg & Hm & _ & Hu)]].
  - apply Get_inv in Hg as [-> _].
    destruct (mutate_meta _ _ Hm) as (Hk & Hd & _). fold key in Hk.
    apply Create_inv in Hc. cbv zeta in Hc. destruct Hc as [_ ->].
    rewrite Hk. unfold touch. simpl_store. split_and!.
    + exists o. rewrite lookup_insert_eq. split; [done|].
      rewrite (named_id key o Hk). by eapply mutate_idem.
    + intros k o'. destruct (decide (k = key)) as [->|Hne].
      * rewrite lookup_insert_eq. intros [= <-]. by rewrite Hd, fresh_live.
      * rewrite lookup_insert_ne by done. apply Hset.
    + intros k Hne. by rewrite lookup_insert_ne.
  - apply Get_inv in Hg as [-> Ho]. destruct (Ho _ eq_refl) as (o0 & Hl & ->).
    unfold touch. simpl_store. split_and!; [|done..].
    by exists o0.
  - apply Get_inv in Hg as [-> Ho]. destruct (Ho _ eq_refl) as (o0 & Hl & ->).
    destruct (mutate_meta _ _ Hm) as (Hk & Hd & Hf).
    destruct (named_meta key o0) as (Hk0 & Hd0 & Hf0).
    rewrite Hk0 in Hk. rewrite Hd0 in Hd. rewrite Hf0 in Hf.
    apply Update_inv in Hu. cbv zeta in Hu. rewrite Hk in Hu.
    destruct Hu as (old & Hold & ->). unfold touch in Hold.
    revert Hold. simpl_store. rewrite Hl. intros [= <-].
    rewrite (onUpdate_mutated _ _ Hm). unfold put, touch. simpl_store.
    rewrite bool_decide_eq_false_2.
    2:{ rewrite Hd, Hf. intros [? ?]. by eapply Hset. }
    simpl_store. split_and!.
    + exists o. rewrite lookup_insert_eq. split; [done|].
      rewrite (named_id key o Hk). by eapply mutate_idem.
    + intros k o'. destruct (decide (k = key)) as [->|Hne].
      * rewrite lookup_insert_eq. intros [= <-]. rewrite Hd, Hf. by eapply Hset.
      * rewrite lookup_insert_ne by done. apply Hset.
    + intros k Hne. by rewrite lookup_insert_ne.
Qed.

(** On a fixed point of the mutation the upsert only reads. *)
Lemma CreateOrUpdate_noop w o :
  faults w = [] →
  store w !! objKey (metaOf fresh) = Some o →
  mutate (named (objKey (metaOf fresh)) o) = inr (named (objKey (metaOf fresh)) o) →
  CreateOrUpdate fresh mutate w
    = (None, touch (mkApiCall VGet kindOf (objKey (metaOf fresh)) None) w).
Proof.
  intros Hf Hl Hm. unfold CreateOrUpdate, mbind, M_bind, mret, M_ret.
  rewrite Get_nofault by (unfold nextFault; by rewrite Hf).
  rewrite Hl, Hm. by rewrite bool_decide_eq_true_2.
Qed.
End Upsert.

(** * A second reconcile of a Server *)

Section ServerIdempotence.
Import KalypsoTritonServerReconciler.

Lemma sameOwner_refl r : sameOwner r r = true.
Proof. unfold sameOwner. by rewrite bool_decide_eq_true_2. Qed.

Lemma upsertOwnerRef_idem r l :
  upsertOwnerRef r (upsertOwnerRef r l) = upsertOwnerRef r l.
Proof.
  induction l as [|x rest IH]; cbn.
  - by rewrite sameOwner_refl.
  - destruct (sameOwner x r) eqn:Hx; cbn.
    + by rewrite sameOwner_refl.
    + by rewrite Hx, IH.
Qed.

Lemma find_controller_upsert r l :
  ownerController r = true →
  match List.find (λ x, ownerController x) l with
  | Some x => sameOwner x r = true
  | None => True
  end →
  ∃ x, List.find (λ x, ownerController x) (upsertOwnerRef r l) = Some x
       ∧ sameOwner x r = true.
Proof.
  intros Hr. induction l as [|y rest IH]; cbn.
  - intros _. rewrite Hr. eauto using sameOwner_refl.
  - destruct (sameOwner y r) eqn:Hy; cbn.
    + intros _. rewrite Hr. eauto using sameOwner_refl.
    + destruct (ownerController y); [congruence|]. apply IH.
Qed.

Lemma SetControllerReference_idem kind name m m' :
  SetControllerReference kind name m = inr m' →
  SetControllerReference kind name m' = inr m'.
Proof.
  unfold SetControllerReference.
  set (r := mkOwnerReference kind name true).
  intros Hs.
  assert (Hm' : m' = withOwnerReferences (upsertOwnerRef r (OwnerReferences m)) m
          ∧ match List.find (λ x, ownerController x) (OwnerReferences m) with
            | Some x => sameOwner x r = true
            | None => True
            end).
  { destruct (find _ _) as [x|]; [destruct (sameOwner x r) eqn:Hx|];
      try discriminate; by injection Hs as <-. }
  destruct Hm' as [-> Hfind]. cbn.
  destruct (find_controller_upsert r (OwnerReferences m) eq_refl Hfind) as (x & -> & ->).
  by rewrite upsertOwnerRef_idem.
Qed.

Lemma withLabels_id l m : Labels m = l → withLabels l m = m.
Proof. intros <-. by destruct m. Qed.

Lemma setLabels_idem (l x : gmap string string) : setLabels l (setLabels l x) = setLabels l x.
Proof. unfold setLabels. by rewrite (assoc_L (∪)), (idemp_L (∪)). Qed.

(** Owner reference and labels of a mutated object are a fixed point. *)
Lemma owned_meta_idem kind name labels m m' :
  SetControllerReference kind name (withLabels (setLabels labels (Labels m)) m) = inr m' →
  SetControllerReference kind name (withLabels (setLabels labels (Labels m')) m') = inr m'.
Proof.
  intros Hs. destruct (SetControllerReference_key _ _ _ _ Hs) as (_ & _ & Hl & _).
  cbn in Hl. rewrite Hl, setLabels_idem. rewrite (withLabels_id _ m') by done.
  by eapply SetControllerReference_idem.
Qed.

Lemma mutateDeployment_idem server app x y :
  mutateDeployment server app x = inr y → mutateDeployment server app y = inr y.
Proof.
  unfold mutateDeployment.
  destruct (SetControllerReference _ _ (withLabels _ (dMeta x))) as [e|m] eqn:Hs; [done|].
  intros [= <-]. cbn [dMeta dAvailableReplicas]. by rewrite (owned_meta_idem _ _ _ _ _ Hs).
Qed.

Lemma mutateService_idem server x y :
  mutateService server x = inr y → mutateService server y = inr y.
Proof.
  unfold mutateService.
  destruct (SetControllerReference _ _ (withLabels _ (sMeta x))) as [e|m] eqn:Hs; [done|].
  intros [= <-]. cbn [sMeta sClusterIP]. by rewrite (owned_meta_idem _ _ _ _ _ Hs).
Qed.

Lemma mutateService_meta server x y :
  mutateService server x = inr y →
  objKey (sMeta y) = objKey (sMeta x)
  ∧ DeletionTimestamp (sMeta y) = DeletionTimestamp (sMeta x)
  ∧ Finalizers (sMeta y) = Finalizers (sMeta x).
Proof.
  unfold mutateService.
  destruct (SetControllerReference _ _ _) as [e|m] eqn:Hs; [done|].
  intros [= <-]. apply SetControllerReference_key in Hs as (Hn & Hns & _ & Hf & Hd).
  cbn in *. unfold objKey. by rewrite Hn, Hns.
Qed.

Lemma mutateDeployment_meta server app x y :
  mutateDeployment server app x = inr y →
  objKey (dMeta y) = objKey (dMeta x)
  ∧ DeletionTimestamp (dMeta y) = DeletionTimestamp (dMeta x)
  ∧ Finalizers (dMeta y) = Finalizers (dMeta x).
Proof.
  unfold mutateDeployment.
  destruct (SetControllerReference _ _ _) as [e|m] eqn:Hs; [done|].
  intros [= <-]. apply SetControllerReference_key in Hs as (Hn & Hns & _ & Hf & Hd).
  cbn in *. unfold objKey. by rewrite Hn, Hns.
Qed.

(** A successful [reconcileDeployment] leaves a fixed point of its mutation
    under the name of the Deployment. *)
Lemma reconcileDeployment_upserted server app name w w' :
  reconcileDeployment server app name w = (None, w') →
  settled (deployments w) →
  let key := (Namespace (srvMeta server), name) in
  (∃ d, deployments w' !! key = Some d
        ∧ mutateDeployment server app (named key d) = inr (named key d))
  ∧ settled (deployments w').
Proof.
  intros Hr Hset key.
  destruct (CreateOrUpdate_upserted
              (mkDeployment (emptyMeta (Namespace (srvMeta server)) name) None None
                 (mkPodTemplateSpec ∅ ∅ []) 0)
              (mutateDeployment server app)) with (w := w) (w' := w')
    as (Hd & Hs & _); try done.
  - by intros o; destruct o.
  - apply mutateDeployment_meta.
  - apply mutateDeployment_idem.
  - intros old y Hm. apply mutateDeployment_inv in Hm as (_ & _ & _ & _ & Hav).
    destruct y; cbn in *. by rewrite Hav.
Qed.

Lemma reconcileService_upserted server name w w' :
  reconcileService server name w = (None, w') →
  settled (services w) →
  let key := (Namespace (srvMeta server), name) in
  (∃ s, services w' !! key = Some s
        ∧ mutateService server (named key s) = inr (named key s))
  ∧ settled (services w').
Proof.
  intros Hr Hset key.
  destruct (CreateOrUpdate_upserted
              (mkService (emptyMeta (Namespace (srvMeta server)) name) ∅ [] "" "")
              (mutateService server)) with (w := w) (w' := w')
    as (Hd & Hs & _); try done.
  - by intros o; destruct o.
  - apply mutateService_meta.
  - apply mutateService_idem.
Qed.

Lemma StatusUpdate_nofault {A} `{Object A} (o : A) w old :
  nextFault w = None →
  store w !! objKey (metaOf o) = Some old →
  StatusUpdate o w =
    (None, record (mkApiCall VStatusUpdate kindOf (objKey (metaOf o)) None)
             (setStore (<[objKey (metaOf o) := onStatusUpdate old o]> (store w))
                (setFaults (tail (faults w)) w))).
Proof.
  intros Hn Hl. unfold StatusUpdate, mbind, M_bind, mret, M_ret.
  rewrite request_nofault by done. by rewrite store_setFaults, Hl.
Qed.

Lemma Update_nofault {A} `{Object A} (o : A) w old :
  nextFault w = None →
  store w !! objKey (metaOf o) = Some old →
  Update o w =
    (None, record (mkApiCall VUpdate kindOf (objKey (metaOf o)) None)
             (put (objKey (metaOf o)) (onUpdate old o) (setFaults (tail (faults w)) w))).
Proof.
  intros Hn Hl. unfold Update, mbind, M_bind, mret, M_ret.
  rewrite request_nofault by done. by rewrite store_setFaults, Hl.
Qed.

Lemma faults_touch c w : faults (touch c w) = tail (faults w).
Proof. reflexivity. Qed.

Lemma runCalls_app w w' run : calls w' = (run ++ calls w)%list → runCalls w w' = run.
Proof.
  intros Hc. unfold runCalls. rewrite Hc, length_app.
  replace (length run + length (calls w) - length (calls w))%nat with (length run) by lia.
  by rewrite take_app_length.
Qed.

(** In a converged cluster and without faults, the reconcile of a Server
    reads five times, writes the status of the Server and succeeds. *)
Lemma Reconcile_converged req w :
  faults w = [] →
  serverConverged req w →
  ∃ w' appKey,
    Reconcile req w = ((Result0, None), w')
    ∧ runCalls w w' =
        [ mkApiCall VStatusUpdate KTritonServer req None;
          mkApiCall VGet KTritonServer req None;
          mkApiCall VGet KDeployment (req.1, req.2 +:+ "-deploy") None;
          mkApiCall VGet KService (req.1, req.2 +:+ "-svc") None;
          mkApiCall VGet KDeployment (req.1, req.2 +:+ "-deploy") None;
          mkApiCall VGet KApplication appKey None;
          mkApiCall VGet KTritonServer req None ]
    ∧ deployments w' = deployments w
    ∧ services w' = services w.
Proof.
  intros Hf (a & app0 & d & sv & Ha & Hdel & Hfin & Hph & Happ & Hd & Hmd & Hsv & Hms).
  cbv zeta in *. destruct req as [ns name]. cbn [fst snd] in *.
  unfold Reconcile, mbind, M_bind.
  rewrite Get_nofault by (unfold nextFault; by rewrite Hf).
  change (store w) with (servers w). rewrite Ha.
  set (server := named (ns, name) a) in *.
  change (DeletionTimestamp (srvMeta server)) with (DeletionTimestamp (srvMeta a)).
  rewrite bool_decide_eq_false_2 by (by rewrite Hdel; intros ?).
  unfold ContainsFinalizer.
  change (Finalizers (srvMeta server)) with (Finalizers (srvMeta a)).
  rewrite (bool_decide_eq_true_2 _ Hfin). cbn [negb].
  change (srvPhase (srvStatus server)) with (srvPhase (srvStatus a)).
  rewrite (bool_decide_eq_false_2 _ Hph).
  set (w1 := touch _ w).
  assert (Hf1 : faults w1 = []) by (subst w1; by rewrite faults_touch, Hf).
  rewrite Get_nofault by (unfold nextFault; by rewrite Hf1).
  change (store (A := KalypsoApplication) w1) with (applications w).
  change (Namespace (srvMeta server), srvApplicationRef (srvSpec server))
    with (ns, srvApplicationRef (srvSpec a)).
  rewrite Happ.
  set (app := named (ns, srvApplicationRef (srvSpec a)) app0) in *.
  set (w2 := touch _ w1).
  assert (Hf2 : faults w2 = []) by (subst w2; by rewrite faults_touch, Hf1).
  change (Name (srvMeta server)) with name.
  unfold reconcileDeployment.
  change (Namespace (srvMeta server)) with ns.
  erewrite (CreateOrUpdate_noop (A := Deployment)); [|done|exact Hd|exact Hmd].
  set (w3 := touch _ w2).
  assert (Hf3 : faults w3 = []) by (subst w3; by rewrite faults_touch, Hf2).
  unfold reconcileService.
  change (Namespace (srvMeta server)) with ns.
  erewrite (CreateOrUpdate_noop (A := Service)); [|done|exact Hsv|exact Hms].
  set (w4 := touch _ w3).
  assert (Hf4 : faults w4 = []) by (subst w4; by rewrite faults_touch, Hf3).
  rewrite Get_nofault by (unfold nextFault; by rewrite Hf4).
  change (store (A := Deployment) w4) with (deployments w). rewrite Hd.
  set (w5 := touch _ w4).
  assert (Hf5 : faults w5 = []) by (subst w5; by rewrite faults_touch, Hf4).
  rewrite Get_nofault by (unfold nextFault; by rewrite Hf5).
  change (store (A := KalypsoTritonServer) w5) with (servers w). rewrite Ha.
  set (w6 := touch _ w5).
  assert (Hf6 : faults w6 = []) by (subst w6; by rewrite faults_touch, Hf5).
  unfold Now. cbv zeta.
  erewrite (StatusUpdate_nofault (A := KalypsoTritonServer));
    [|unfold nextFault; by rewrite Hf6|exact Ha].
  eexists _, _. split; [reflexivity|]. split; [|done].
  by apply runCalls_app.
Qed.

(** A reconcile of a Server that logs its success leaves a converged
    cluster. *)
Lemma Reconcile_success_converged req w ret w' :
  Reconcile req w = (ret, w') →
  logs w' = LogInfo "Successfully reconciled KalypsoTritonServer" :: logs w →
  settled (deployments w) →
  settled (services w) →
  serverConverged req w'.
Proof.
  intros Hr Hl Hsd Hss. destruct (Reconcile_success_path _ _ _ _ Hr Hl)
    as (-> & server & w1 & app & w2 & w3 & w4 & deployment & w5 & server' & w6 & w7
        & Hg1 & Hdel & Hfin & Hph & Hg2 & Hd & Hs & Hg5 & Hg6 & Hu & ->).
  destruct req as [ns name].
  apply Get_inv in Hg1 as [-> Ho1]. destruct (Ho1 _ eq_refl) as (s0 & Hs0 & ->).
  apply Get_inv in Hg2 as [-> Ho2]. destruct (Ho2 _ eq_refl) as (app0 & Happ0 & ->).
  change (Namespace (srvMeta (named (ns, name) s0))) with ns in *.
  change (Name (srvMeta (named (ns, name) s0))) with name in *.
  change (srvApplicationRef (srvSpec (named (ns, name) s0)))
    with (srvApplicationRef (srvSpec s0)) in *.
  cbn in Happ0, Hs0.
  set (w2 := touch _ (touch _ w)) in *.
  pose proof (CreateOrUpdate_frame (A := Deployment)
    (mkDeployment (emptyMeta ns (name +:+ "-deploy")) None None (mkPodTemplateSpec ∅ ∅ []) 0)
    (mutateDeployment (named (ns, name) s0)
       (named (ns, srvApplicationRef (srvSpec s0)) app0)) w2) as [Hod _].
  change (CreateOrUpdate _ _) with
    (reconcileDeployment (named (ns, name) s0)
       (named (ns, srvApplicationRef (srvSpec s0)) app0) (name +:+ "-deploy")) in Hod.
  rewrite Hd in Hod. cbn [snd] in Hod.
  apply reconcileDeployment_upserted in Hd as [(d & Hd & Hmd) Hsd3]; [|done].
  pose proof (CreateOrUpdate_frame (A := Service)
    (mkService (emptyMeta ns (name +:+ "-svc")) ∅ [] "" "")
    (mutateService (named (ns, name) s0)) w3) as [Hos _].
  change (CreateOrUpdate _ _) with
    (reconcileService (named (ns, name) s0) (name +:+ "-svc")) in Hos.
  rewrite Hs in Hos. cbn [snd] in Hos.
  apply reconcileService_upserted in Hs as [(sv & Hsv & Hms) Hss4].
  2:{ pose proof (f_equal services Hod) as Hsv. cbn in Hsv. by rewrite Hsv. }
  apply Get_inv in Hg5 as [-> _].
  apply Get_inv in Hg6 as [-> Ho6]. destruct (Ho6 _ eq_refl) as (s1 & Hs1 & ->).
  apply StatusUpdate_inv in Hu. cbv zeta in Hu.
  change (objKey (metaOf (withStatus _ _))) with (ns, name) in Hu.
  destruct Hu as (old & Hold & ->).
  assert (Hservers : servers w4 = servers w).
  { pose proof (f_equal servers Hos) as H4. pose proof (f_equal servers Hod) as H3.
    cbn in H4, H3. by rewrite H4, H3. }
  assert (Happs : applications w4 = applications w).
  { pose proof (f_equal applications Hos) as H4. pose proof (f_equal applications Hod) as H3.
    cbn in H4, H3. by rewrite H4, H3. }
  assert (Hdeps : deployments w4 = deployments w3).
  { pose proof (f_equal deployments Hos) as H4. by cbn in H4. }
  cbn in Hs1, Hold. rewrite Hservers in Hs1, Hold. rewrite Hs0 in Hs1, Hold.
  injection Hs1 as <-. injection Hold as <-.
  exists (mkKalypsoTritonServer (srvMeta s0) (srvSpec s0)
            (publishedStatus (named (ns, name) s0) (named (ns, name +:+ "-deploy") deployment)
               (clock w4))), app0, d, sv.
  cbv zeta. cbn [fst snd srvMeta srvSpec srvStatus].
  split_and!.
  - cbn. by rewrite lookup_insert_eq.
  - done.
  - done.
  - unfold publishedStatus. cbv zeta. by case_bool_decide.
  - cbn. by rewrite Happs.
  - cbn. by rewrite Hdeps.
  - exact Hmd.
  - done.
  - exact Hms.
Qed.
End ServerIdempotence.

(** * A second reconcile of a Project *)

Section FetchCreateOrUpdate.
Context {A : Type} `{Object A}.
Variables (key : Key) (desired : A) (update : A → A).
Hypothesis metaOf_setMeta : ∀ m (o : A), metaOf (setMeta m o) = m.
Hypothesis setMeta_metaOf : ∀ o : A, setMeta (metaOf o) o = o.
Hypothesis desired_key : objKey (metaOf desired) = key.
Hypothesis desired_live : DeletionTimestamp (metaOf desired) = None.
Hypothesis update_meta : ∀ x,
  objKey (metaOf (update x)) = objKey (metaOf x)
  ∧ DeletionTimestamp (metaOf (update x)) = DeletionTimestamp (metaOf x)
  ∧ Finalizers (metaOf (update x)) = Finalizers (metaOf x).
Hypothesis onUpdate_new : ∀ old new : A, onUpdate old new = new.

(** After a successful run the object under the key is the desired one or
    the update of what was there, and every other object is as before. *)
Lemma fetchCreateOrUpdate_stored w w' :
  fetchCreateOrUpdate key desired update w = (None, w') →
  settled (store w) →
  (∃ o, store w' !! key = Some o
        ∧ (o = desired ∨ ∃ old, store w !! key = Some old ∧ o = update (named key old)))
  ∧ settled (store w')
  ∧ (∀ k, k ≠ key → store w' !! k = store w !! k)
  ∧ others w' = others w.
Proof.
  unfold fetchCreateOrUpdate, mbind, M_bind. intros Hr Hset.
  destruct (Get_frame (A := A) key w) as [Hog _].
  destruct (Get key w) as [[err|existing] w1] eqn:Hg; cbn [snd] in Hog.
  - unfold IsNotFound in Hr. case_bool_decide; [|by injection Hr]. subst err.
    apply Get_inv in Hg as [-> _]. cbn [errorOf] in Hr, Hog.
    destruct (Create_frame desired (touch (mkApiCall VGet kindOf key (Some ErrNotFound)) w))
      as [Hoc _].
    rewrite Hr in Hoc. cbn [snd] in Hoc.
    apply Create_inv in Hr. cbv zeta in Hr. rewrite desired_key in Hr.
    destruct Hr as [_ ->]. split_and!; [| | |by rewrite Hoc]; unfold touch; simpl_store.
    + exists desired. rewrite lookup_insert_eq. eauto.
    + intros k o. destruct (decide (k = key)) as [->|Hne].
      * rewrite lookup_insert_eq. intros [= <-]. by rewrite desired_live.
      * rewrite lookup_insert_ne by done. apply Hset.
    + intros k Hne. by rewrite lookup_insert_ne.
  - apply Get_inv in Hg as [-> Ho]. destruct (Ho _ eq_refl) as (old & Hold & ->).
    destruct (update_meta (named key old)) as (Hk & Hd & Hf).
    destruct (named_meta metaOf_setMeta key old) as (Hk0 & Hd0 & Hf0).
    rewrite Hk0 in Hk. rewrite Hd0 in Hd. rewrite Hf0 in Hf.
    cbn [errorOf] in Hr, Hog.
    destruct (Update_frame (update (named key old))
                (touch (mkApiCall VGet kindOf key None) w)) as [Hou _].
    rewrite Hr in Hou. cbn [snd] in Hou.
    apply Update_inv in Hr. cbv zeta in Hr. rewrite Hk in Hr.
    destruct Hr as (old' & _ & ->). split_and!; [| | |by rewrite Hou];
      rewrite onUpdate_new; unfold put, touch; simpl_store;
      (rewrite bool_decide_eq_false_2;
        [|rewrite Hd, Hf; intros [? ?]; by eapply Hset]); simpl_store.
    + eexists. rewrite lookup_insert_eq. eauto.
    + intros k o. destruct (decide (k = key)) as [->|Hne].
      * rewrite lookup_insert_eq. intros [= <-]. rewrite Hd, Hf. by eapply Hset.
      * rewrite lookup_insert_ne by done. apply Hset.
    + intros k Hne. by rewrite lookup_insert_ne.
Qed.

(** When the stored object is a fixed point of the update, a run without
    faults reads it and updates it to itself. *)
Lemma fetchCreateOrUpdate_noop w o :
  faults w = [] →
  settled (store w) →
  store w !! key = Some o →
  objKey (metaOf o) = key →
  update o = o →
  ∃ w', fetchCreateOrUpdate key desired update w = (None, w')
        ∧ store w' = store w
        ∧ others w' = others w
        ∧ faults w' = []
        ∧ calls w' = mkApiCall VUpdate kindOf key None
                       :: mkApiCall VGet kindOf key None :: calls w.
Proof.
  intros Hf Hset Hl Hk Hfix. unfold fetchCreateOrUpdate, mbind, M_bind.
  rewrite Get_nofault by (unfold nextFault; by rewrite Hf). rewrite Hl.
  rewrite (named_id setMeta_metaOf key o Hk), Hfix.
  set (w1 := touch _ w).
  assert (Hf1 : faults w1 = []) by (subst w1; by rewrite faults_touch, Hf).
  destruct (Update_frame o w1) as [Hou Hfu].
  assert (Hl1 : store w1 !! objKey (metaOf o) = Some o).
  { rewrite Hk. subst w1. unfold touch. simpl_store. exact Hl. }
  assert (Hn1 : nextFault w1 = None) by (unfold nextFault; by rewrite Hf1).
  pose proof (Update_nofault o w1 o Hn1 Hl1) as Hu.
  rewrite Hk, onUpdate_new, Hf1 in Hu. rewrite Hu in Hou, Hfu |- *.
  cbn [snd] in Hou, Hfu. eexists. split; [reflexivity|]. split_and!.
  - unfold put. rewrite bool_decide_eq_false_2.
    2:{ intros [? ?]. by eapply Hset. }
    subst w1. unfold touch. simpl_store. by apply insert_id.
  - rewrite Hou. subst w1. unfold touch. by rewrite others_record, others_setFaults.
  - by rewrite Hfu, Hf1.
  - unfold put. case_bool_decide; cbn [calls record]; by rewrite calls_setStore.
Qed.
End FetchCreateOrUpdate.

Section ProjectChildren.
Import KalypsoProjectReconciler.

Lemma childLabels_in project envName :
  childLabelsIn (Name (projMeta project)) envName (childLabels project envName).
Proof.
  unfold childLabelsIn, childLabels, ProjectLabelKey, EnvironmentLabelKey, ManagedByLabelKey.
  split_and!; by simplify_map_eq.
Qed.

Lemma relabel_in projectName envName (l : gmap string string) :
  childLabelsIn projectName envName
    (<[ManagedByLabelKey := ManagedByLabelValue]>
       (<[EnvironmentLabelKey := envName]> (<[ProjectLabelKey := projectName]> l))).
Proof.
  unfold childLabelsIn, ProjectLabelKey, EnvironmentLabelKey, ManagedByLabelKey.
  split_and!; by simplify_map_eq.
Qed.

Lemma relabel_id projectName envName (l : gmap string string) :
  childLabelsIn projectName envName l →
  <[ManagedByLabelKey := ManagedByLabelValue]>
    (<[EnvironmentLabelKey := envName]> (<[ProjectLabelKey := projectName]> l)) = l.
Proof.
  intros (Hp & He & Hm).
  rewrite (insert_id l ProjectLabelKey) by done.
  rewrite (insert_id l EnvironmentLabelKey) by done.
  by rewrite insert_id.
Qed.

Lemma reconcileNamespace_established project envName nsName w w' :
  reconcileNamespace project envName nsName w = (None, w') →
  settled (namespaces w) →
  (∃ ns, namespaces w' !! ("", nsName) = Some ns
         ∧ objKey (nsMeta ns) = ("", nsName)
         ∧ childLabelsIn (Name (projMeta project)) envName (Labels (nsMeta ns)))
  ∧ settled (namespaces w')
  ∧ (∀ k, k ≠ ("", nsName) → namespaces w' !! k = namespaces w !! k)
  ∧ quotas w' = quotas w ∧ limitRanges w' = limitRanges w
  ∧ projects w' = projects w.
Proof.
  intros Hr Hset.
  destruct (fetchCreateOrUpdate_stored (A := Namespace_) ("", nsName)
    (mkNamespace (withLabels (childLabels project envName) (emptyMeta "" nsName)))
    (λ existingNs, mkNamespace (withLabels
       (<[ManagedByLabelKey := ManagedByLabelValue]>
          (<[EnvironmentLabelKey := envName]>
             (<[ProjectLabelKey := Name (projMeta project)]> (Labels (nsMeta existingNs)))))
       (nsMeta existingNs)))) with (w := w) (w' := w')
    as ((o & Ho & Hcase) & Hs' & Hframe & Hothers); try done.
  split_and!; try done.
  - exists o. split; [done|]. destruct Hcase as [->|(old & _ & ->)].
    + split; [done|]. apply childLabels_in.
    + split; [done|]. apply relabel_in.
  - by apply (f_equal quotas) in Hothers.
  - by apply (f_equal limitRanges) in Hothers.
  - by apply (f_equal projects) in Hothers.
Qed.

Lemma reconcileResourceQuota_established project envName nsName quotaSpec w w' :
  reconcileResourceQuota project envName nsName quotaSpec w = (None, w') →
  settled (quotas w) →
  let key := (nsName, Name (projMeta project) +:+ "-quota") in
  (∃ rq, quotas w' !! key = Some rq ∧ objKey (rqMeta rq) = key
         ∧ rqHard rq = quotaHard quotaSpec)
  ∧ settled (quotas w')
  ∧ (∀ k, k ≠ key → quotas w' !! k = quotas w !! k)
  ∧ namespaces w' = namespaces w ∧ limitRanges w' = limitRanges w
  ∧ projects w' = projects w.
Proof.
  intros Hr Hset key.
  destruct (fetchCreateOrUpdate_stored (A := ResourceQuota) key
    (mkResourceQuota
       (withLabels (childLabels project envName)
          (emptyMeta nsName (Name (projMeta project) +:+ "-quota")))
       (quotaHard quotaSpec))
    (λ existingQuota, mkResourceQuota (rqMeta existingQuota) (quotaHard quotaSpec)))
    with (w := w) (w' := w')
    as ((o & Ho & Hcase) & Hs' & Hframe & Hothers); try done.
  split_and!; try done.
  - exists o. split; [done|]. by destruct Hcase as [->|(old & _ & ->)].
  - by apply (f_equal namespaces) in Hothers.
  - by apply (f_equal limitRanges) in Hothers.
  - by apply (f_equal projects) in Hothers.
Qed.

Lemma reconcileLimitRange_established project envName nsName limitSpec w w' :
  reconcileLimitRange project envName nsName limitSpec w = (None, w') →
  settled (limitRanges w) →
  let key := (nsName, Name (projMeta project) +:+ "-limits") in
  (∃ lr, limitRanges w' !! key = Some lr ∧ objKey (lrMeta lr) = key
         ∧ lrLimits lr = lrsLimits limitSpec)
  ∧ settled (limitRanges w')
  ∧ (∀ k, k ≠ key → limitRanges w' !! k = limitRanges w !! k)
  ∧ namespaces w' = namespaces w ∧ quotas w' = quotas w
  ∧ projects w' = projects w.
Proof.
  intros Hr Hset key.
  destruct (fetchCreateOrUpdate_stored (A := LimitRange) key
    (mkLimitRange
       (withLabels (childLabels project envName)
          (emptyMeta nsName (Name (projMeta project) +:+ "-limits")))
       (lrsLimits limitSpec))
    (λ existingLimit, mkLimitRange (lrMeta existingLimit) (lrsLimits limitSpec)))
    with (w := w) (w' := w')
    as ((o & Ho & Hcase) & Hs' & Hframe & Hothers); try done.
  split_and!; try done.
  - exists o. split; [done|]. by destruct Hcase as [->|(old & _ & ->)].
  - by apply (f_equal namespaces) in Hothers.
  - by apply (f_equal quotas) in Hothers.
  - by apply (f_equal projects) in Hothers.
Qed.

Lemma quietly_refl w : faults w = [] → quietly w w.
Proof. intros Hf. unfold quietly. split_and!; try done. by exists []. Qed.

Lemma quietly_trans w1 w2 w3 : quietly w1 w2 → quietly w2 w3 → quietly w1 w3.
Proof.
  intros (Hn & Hq & Hl & Hp & Hg & _ & run1 & Hc1 & Hr1)
         (Hn' & Hq' & Hl' & Hp' & Hg' & Hf' & run2 & Hc2 & Hr2).
  unfold quietly. split_and!; try congruence.
  exists (run2 ++ run1)%list. split.
  - by rewrite Hc2, Hc1, app_assoc.
  - by apply Forall_app.
Qed.

Lemma update_after_get k key e k' key' e' :
  Forall readOrUpdate [mkApiCall VUpdate k key e; mkApiCall VGet k' key' e'].
Proof. apply Forall_cons; split; [by right|]. apply Forall_cons; split; [by left|done]. Qed.

Lemma reconcileNamespace_noop project envName nsName w ns :
  faults w = [] →
  settled (namespaces w) →
  namespaces w !! ("", nsName) = Some ns →
  objKey (nsMeta ns) = ("", nsName) →
  childLabelsIn (Name (projMeta project)) envName (Labels (nsMeta ns)) →
  ∃ w', reconcileNamespace project envName nsName w = (None, w') ∧ quietly w w'.
Proof.
  intros Hf Hset Hl Hk Hlab.
  destruct (fetchCreateOrUpdate_noop (A := Namespace_) ("", nsName)
    (mkNamespace (withLabels (childLabels project envName) (emptyMeta "" nsName)))
    (λ existingNs, mkNamespace (withLabels
       (<[ManagedByLabelKey := ManagedByLabelValue]>
          (<[EnvironmentLabelKey := envName]>
             (<[ProjectLabelKey := Name (projMeta project)]> (Labels (nsMeta existingNs)))))
       (nsMeta existingNs)))) with (w := w) (o := ns)
    as (w' & Hr & Hs & Ho & Hf' & Hc); try done.
  { by intros o; destruct o. }
  { rewrite relabel_id by done. rewrite withLabels_id by done. by destruct ns. }
  exists w'. split; [done|]. unfold quietly. split_and!; try done.
  - by apply (f_equal quotas) in Ho.
  - by apply (f_equal limitRanges) in Ho.
  - by apply (f_equal projects) in Ho.
  - by apply (f_equal logs) in Ho.
  - eexists [_; _]. split; [exact Hc|]. apply update_after_get.
Qed.

Lemma reconcileResourceQuota_noop project envName nsName quotaSpec w rq :
  faults w = [] →
  settled (quotas w) →
  quotas w !! (nsName, Name (projMeta project) +:+ "-quota") = Some rq →
  objKey (rqMeta rq) = (nsName, Name (projMeta project) +:+ "-quota") →
  rqHard rq = quotaHard quotaSpec →
  ∃ w', reconcileResourceQuota project envName nsName quotaSpec w = (None, w')
        ∧ quietly w w'.
Proof.
  intros Hf Hset Hl Hk Hhard.
  destruct (fetchCreateOrUpdate_noop (A := ResourceQuota)
    (nsName, Name (projMeta project) +:+ "-quota")
    (mkResourceQuota
       (withLabels (childLabels project envName)
          (emptyMeta nsName (Name (projMeta project) +:+ "-quota")))
       (quotaHard quotaSpec))
    (λ existingQuota, mkResourceQuota (rqMeta existingQuota) (quotaHard quotaSpec)))
    with (w := w) (o := rq)
    as (w' & Hr & Hs & Ho & Hf' & Hc); try done.
  { by intros o; destruct o. }
  { rewrite <- Hhard. by destruct rq. }
  exists w'. split; [done|]. unfold quietly. split_and!; try done.
  - by apply (f_equal namespaces) in Ho.
  - by apply (f_equal limitRanges) in Ho.
  - by apply (f_equal projects) in Ho.
  - by apply (f_equal logs) in Ho.
  - eexists [_; _]. split; [exact Hc|]. apply update_after_get.
Qed.

Lemma reconcileLimitRange_noop project envName nsName limitSpec w lr :
  faults w = [] →
  settled (limitRanges w) →
  limitRanges w !! (nsName, Name (projMeta project) +:+ "-limits") = Some lr →
  objKey (lrMeta lr) = (nsName, Name (projMeta project) +:+ "-limits") →
  lrLimits lr = lrsLimits limitSpec →
  ∃ w', reconcileLimitRange project envName nsName limitSpec w = (None, w')
        ∧ quietly w w'.
Proof.
  intros Hf Hset Hl Hk Hlim.
  destruct (fetchCreateOrUpdate_noop (A := LimitRange)
    (nsName, Name (projMeta project) +:+ "-limits")
    (mkLimitRange
       (withLabels (childLabels project envName)
          (emptyMeta nsName (Name (projMeta project) +:+ "-limits")))
       (lrsLimits limitSpec))
    (λ existingLimit, mkLimitRange (lrMeta existingLimit) (lrsLimits limitSpec)))
    with (w := w) (o := lr)
    as (w' & Hr & Hs & Ho & Hf' & Hc); try done.
  { by intros o; destruct o. }
  { rewrite <- Hlim. by destruct lr. }
  exists w'. split; [done|]. unfold quietly. split_and!; try done.
  - by apply (f_equal namespaces) in Ho.
  - by apply (f_equal quotas) in Ho.
  - by apply (f_equal projects) in Ho.
  - by apply (f_equal logs) in Ho.
  - eexists [_; _]. split; [exact Hc|]. apply update_after_get.
Qed.

Lemma fetchCreateOrUpdate_logs {A} `{Object A} key (desired : A) update w :
  logs (fetchCreateOrUpdate key desired update w).2 = logs w.
Proof.
  unfold fetchCreateOrUpdate, mbind, M_bind.
  pose proof (Get_logs (A := A) key w) as Hg.
  destruct (Get key w) as [[err|existing] w1]; cbn [snd] in Hg.
  - destruct (IsNotFound err); [|done]. by rewrite Create_logs.
  - by rewrite Update_logs.
Qed.

Lemma setFailedStatus_project_logs project message w :
  logs (setFailedStatus project message w).2 = logs w.
Proof.
  unfold setFailedStatus, mbind, M_bind, Now, mret, M_ret.
  match goal with |- context [StatusUpdate ?o w] =>
    pose proof (StatusUpdate_logs o w) as Hs end.
  by destruct (StatusUpdate _ w).
Qed.

Lemma reconcileEnvironments_cons project envName envSpec rest created w :
  reconcileEnvironments project ((envName, envSpec) :: rest) created w =
    (let nsName := nsNameOf (Name (projMeta project)) (envName, envSpec) in
     e ← reconcileNamespace project envName nsName;
     match e with
     | Some err =>
         _ ← logError "Failed to reconcile namespace";
         _ ← setFailedStatus project
               ("Failed to create namespace " +:+ nsName +:+ ": " +:+ Error err);
         mret (inl (Result0, Some err))
     | None =>
         e ← match envResourceQuota envSpec with
             | Some quotaSpec => reconcileResourceQuota project envName nsName quotaSpec
             | None => mret None
             end;
         match e with
         | Some err =>
             _ ← logError "Failed to reconcile ResourceQuota";
             _ ← setFailedStatus project
                   ("Failed to create ResourceQuota in " +:+ nsName +:+ ": " +:+ Error err);
             mret (inl (Result0, Some err))
         | None =>
             e ← match envLimitRange envSpec with
                 | Some limitSpec => reconcileLimitRange project envName nsName limitSpec
                 | None => mret None
                 end;
             match e with
             | Some err =>
                 _ ← logError "Failed to reconcile LimitRange";
                 _ ← setFailedStatus project
                       ("Failed to create LimitRange in " +:+ nsName +:+ ": " +:+ Error err);
                 mret (inl (Result0, Some err))
             | None => reconcileEnvironments project rest (created ++ [nsName])
             end
         end
     end) w.
Proof. reflexivity. Qed.

(** The loop logs nothing when it runs to its end, and an error line when
    it returns early. *)
Lemma reconcileEnvironments_logs project envs created w r w' :
  reconcileEnvironments project envs created w = (r, w') →
  match r with
  | inr _ => logs w' = logs w
  | inl _ => ∃ msg, logs w' = LogError msg :: logs w
  end.
Proof.
  revert created w. induction envs as [|[envName envSpec] rest IH]; intros created w.
  { by intros [= <- <-]. }
  rewrite reconcileEnvironments_cons. cbv zeta. unfold mbind, M_bind.
  set (nsName := nsNameOf _ _).
  pose proof (fetchCreateOrUpdate_logs (A := Namespace_) ("", nsName)
    (mkNamespace (withLabels (childLabels project envName) (emptyMeta "" nsName)))
    (λ existingNs, mkNamespace (withLabels
       (<[ManagedByLabelKey := ManagedByLabelValue]>
          (<[EnvironmentLabelKey := envName]>
             (<[ProjectLabelKey := Name (projMeta project)]> (Labels (nsMeta existingNs)))))
       (nsMeta existingNs))) w) as Hl1.
  change (fetchCreateOrUpdate _ _ _) with (reconcileNamespace project envName nsName) in Hl1.
  destruct (reconcileNamespace _ _ _ w) as [[err|] w1]; cbn [snd] in Hl1.
  { unfold logError. match goal with |- context [setFailedStatus ?p ?m ?w0] =>
      pose proof (setFailedStatus_project_logs p m w0) as Hl2 end.
    destruct (setFailedStatus _ _ _) as [[] w2]. cbn in Hl2.
    intros [= <- <-]. rewrite Hl2, Hl1. eauto. }
  set (quotaStep := match envResourceQuota envSpec with
                    | Some quotaSpec =>
                        reconcileResourceQuota project envName nsName quotaSpec
                    | None => mret None
                    end).
  assert (Hl2 : ∀ w0, logs (quotaStep w0).2 = logs w0).
  { intros w0. subst quotaStep. destruct (envResourceQuota envSpec) as [q|]; [|done].
    apply (fetchCreateOrUpdate_logs (A := ResourceQuota)). }
  specialize (Hl2 w1).
  destruct (quotaStep w1) as [[err|] w2]; cbn [snd] in Hl2.
  { unfold logError. match goal with |- context [setFailedStatus ?p ?m ?w0] =>
      pose proof (setFailedStatus_project_logs p m w0) as Hl3 end.
    destruct (setFailedStatus _ _ _) as [[] w3]. cbn in Hl3.
    intros [= <- <-]. rewrite Hl3, Hl2, Hl1. eauto. }
  set (limitStep := match envLimitRange envSpec with
                    | Some limitSpec =>
                        reconcileLimitRange project envName nsName limitSpec
                    | None => mret None
                    end).
  assert (Hl3 : ∀ w0, logs (limitStep w0).2 = logs w0).
  { intros w0. subst limitStep. destruct (envLimitRange envSpec) as [l|]; [|done].
    apply (fetchCreateOrUpdate_logs (A := LimitRange)). }
  specialize (Hl3 w2).
  destruct (limitStep w2) as [[err|] w3]; cbn [snd] in Hl3.
  { unfold logError. match goal with |- context [setFailedStatus ?p ?m ?w0] =>
      pose proof (setFailedStatus_project_logs p m w0) as Hl4 end.
    destruct (setFailedStatus _ _ _) as [[] w4]. cbn in Hl4.
    intros [= <- <-]. rewrite Hl4, Hl3, Hl2, Hl1. eauto. }
  intros Hr. apply IH in Hr. rewrite Hl3, Hl2, Hl1 in Hr. exact Hr.
Qed.

(** One turn of the loop that succeeds puts the children of its entry in
    place and leaves those of entries with another namespace alone. *)
Lemma environment_established project envName envSpec w w1 w2 w3 :
  let projectName := Name (projMeta project) in
  let nsName := nsNameOf projectName (envName, envSpec) in
  reconcileNamespace project envName nsName w = (None, w1) →
  (match envResourceQuota envSpec with
   | Some quotaSpec => reconcileResourceQuota project envName nsName quotaSpec
   | None => mret None
   end) w1 = (None, w2) →
  (match envLimitRange envSpec with
   | Some limitSpec => reconcileLimitRange project envName nsName limitSpec
   | None => mret None
   end) w2 = (None, w3) →
  childrenSettled w →
  childrenSettled w3
  ∧ envSettledIn projectName (envName, envSpec) w3
  ∧ (∀ e0, nsNameOf projectName e0 ≠ nsName →
           envSettledIn projectName e0 w → envSettledIn projectName e0 w3)
  ∧ projects w3 = projects w.
Proof.
  intros projectName nsName Hr1 Hr2 Hr3 (Hsn & Hsq & Hsl).
  apply reconcileNamespace_established in Hr1
    as (Hns & Hsn1 & Hfn & Hq1 & Hl1 & Hp1); [|done].
  assert (Hquota :
    (∀ quotaSpec, envResourceQuota envSpec = Some quotaSpec →
       ∃ rq, quotas w2 !! (nsName, projectName +:+ "-quota") = Some rq
             ∧ objKey (rqMeta rq) = (nsName, projectName +:+ "-quota")
             ∧ rqHard rq = quotaHard quotaSpec)
    ∧ settled (quotas w2)
    ∧ (∀ k, k ≠ (nsName, projectName +:+ "-quota") → quotas w2 !! k = quotas w1 !! k)
    ∧ namespaces w2 = namespaces w1 ∧ limitRanges w2 = limitRanges w1
    ∧ projects w2 = projects w1).
  { destruct (envResourceQuota envSpec) as [q|].
    - apply reconcileResourceQuota_established in Hr2
        as (Hrq & Hsq2 & Hfq & Hn2 & Hl2 & Hp2); [|by rewrite Hq1].
      split_and!; try done. by intros ? [= <-].
    - injection Hr2 as <-. split_and!; try done. by rewrite Hq1. }
  destruct Hquota as (Hrq & Hsq2 & Hfq & Hn2 & Hl2 & Hp2).
  assert (Hlimit :
    (∀ limitSpec, envLimitRange envSpec = Some limitSpec →
       ∃ lr, limitRanges w3 !! (nsName, projectName +:+ "-limits") = Some lr
             ∧ objKey (lrMeta lr) = (nsName, projectName +:+ "-limits")
             ∧ lrLimits lr = lrsLimits limitSpec)
    ∧ settled (limitRanges w3)
    ∧ (∀ k, k ≠ (nsName, projectName +:+ "-limits") →
            limitRanges w3 !! k = limitRanges w2 !! k)
    ∧ namespaces w3 = namespaces w2 ∧ quotas w3 = quotas w2
    ∧ projects w3 = projects w2).
  { destruct (envLimitRange envSpec) as [l|].
    - apply reconcileLimitRange_established in Hr3
        as (Hlr & Hsl3 & Hfl & Hn3 & Hq3 & Hp3); [|by rewrite Hl2, Hl1].
      split_and!; try done. by intros ? [= <-].
    - injection Hr3 as <-. split_and!; try done. by rewrite Hl2, Hl1. }
  destruct Hlimit as (Hlr & Hsl3 & Hfl & Hn3 & Hq3 & Hp3).
  split_and!.
  - unfold childrenSettled. by rewrite Hn3, Hn2, Hq3.
  - unfold envSettledIn. cbv zeta. fold nsName. rewrite Hn3, Hn2, Hq3. done.
  - intros e0 Hne ((ns0 & Hl0 & Hk0 & Hlab0) & Hq0 & Hli0).
    unfold envSettledIn. cbv zeta. rewrite Hn3, Hn2, Hq3. split_and!.
    + exists ns0. rewrite Hfn; [done|]. by intros [= ?].
    + intros q Hq. destruct (Hq0 q Hq) as (rq & ? & ?). exists rq.
      rewrite Hfq; [by rewrite Hq1|]. by intros [= ?].
    + intros l Hl. destruct (Hli0 l Hl) as (lr & ? & ?). exists lr.
      rewrite Hfl; [by rewrite Hl2, Hl1|]. by intros [= ?].
  - by rewrite Hp3, Hp2.
Qed.

Lemma reconcileEnvironments_established project envs created w created' w' :
  let projectName := Name (projMeta project) in
  reconcileEnvironments project envs created w = (inr created', w') →
  childrenSettled w →
  NoDup (nsNameOf projectName <$> envs) →
  childrenSettled w'
  ∧ (∀ e, e ∈ envs → envSettledIn projectName e w')
  ∧ (∀ e0, nsNameOf projectName e0 ∉ (nsNameOf projectName <$> envs) →
           envSettledIn projectName e0 w → envSettledIn projectName e0 w')
  ∧ projects w' = projects w.
Proof.
  intros projectName. revert created w.
  induction envs as [|[envName envSpec] rest IH]; intros created w.
  { intros [= <- <-] Hs _. split_and!; try done. by intros e ?%elem_of_nil. }
  rewrite reconcileEnvironments_cons. cbv zeta. unfold mbind, M_bind.
  fold projectName. set (nsName := nsNameOf _ _).
  destruct (reconcileNamespace _ _ _ w) as [[err|] w1] eqn:Hr1.
  { unfold logError. destruct (setFailedStatus _ _ _) as [[] ?]. by intros [=]. }
  set (quotaStep := match envResourceQuota envSpec with
                    | Some quotaSpec =>
                        reconcileResourceQuota project envName nsName quotaSpec
                    | None => mret None
                    end).
  destruct (quotaStep w1) as [[err|] w2] eqn:Hr2.
  { unfold logError. destruct (setFailedStatus _ _ _) as [[] ?]. by intros [=]. }
  set (limitStep := match envLimitRange envSpec with
                    | Some limitSpec =>
                        reconcileLimitRange project envName nsName limitSpec
                    | None => mret None
                    end).
  destruct (limitStep w2) as [[err|] w3] eqn:Hr3.
  { unfold logError. destruct (setFailedStatus _ _ _) as [[] ?]. by intros [=]. }
  intros Hrest Hs Hnd. rewrite fmap_cons in Hnd. apply NoDup_cons in Hnd as [Hnin Hnd].
  destruct (environment_established project envName envSpec w w1 w2 w3 Hr1 Hr2 Hr3 Hs)
    as (Hs3 & He3 & Hframe3 & Hp3).
  destruct (IH _ _ Hrest Hs3 Hnd) as (Hs' & Hall & Hframe & Hp').
  split_and!.
  - done.
  - intros e [->|Hin]%elem_of_cons; [|by apply Hall]. by apply Hframe.
  - intros e0 Hn0 He0. rewrite fmap_cons in Hn0. apply not_elem_of_cons in Hn0 as [Hne Hn0].
    apply Hframe; [done|]. by apply Hframe3.
  - by rewrite Hp', Hp3.
Qed.

Lemma envSettledIn_quietly projectName e w w' :
  quietly w w' → envSettledIn projectName e w → envSettledIn projectName e w'.
Proof. intros (Hn & Hq & Hl & _). unfold envSettledIn. by rewrite Hn, Hq, Hl. Qed.

Lemma childrenSettled_quietly w w' : quietly w w' → childrenSettled w → childrenSettled w'.
Proof. intros (Hn & Hq & Hl & _). unfold childrenSettled. by rewrite Hn, Hq, Hl. Qed.

(** In a cluster where the children of every entry are in place, a loop
    without faults runs to its end with reads and updates that change
    nothing. *)
Lemma reconcileEnvironments_quiet project envs created w :
  let projectName := Name (projMeta project) in
  faults w = [] →
  childrenSettled w →
  (∀ e, e ∈ envs → envSettledIn projectName e w) →
  ∃ created' w', reconcileEnvironments project envs created w = (inr created', w')
                 ∧ quietly w w'.
Proof.
  intros projectName. revert created w.
  induction envs as [|[envName envSpec] rest IH]; intros created w Hf Hs Hall.
  { eexists _, _. split; [reflexivity|]. by apply quietly_refl. }
  rewrite reconcileEnvironments_cons. cbv zeta. unfold mbind, M_bind.
  fold projectName. set (nsName := nsNameOf _ _).
  destruct (Hall (envName, envSpec)) as ((ns & Hns & Hnk & Hnl) & Hq & Hl).
  { apply list_elem_of_here. }
  fold nsName in Hns, Hnk, Hq, Hl. cbn [fst snd] in Hnl, Hq, Hl.
  destruct Hs as (Hsn & Hsq & Hsl).
  destruct (reconcileNamespace_noop project envName nsName w ns) as (w1 & -> & Hq1); try done.
  assert (Hstep2 : ∃ w2,
    (match envResourceQuota envSpec with
     | Some quotaSpec => reconcileResourceQuota project envName nsName quotaSpec
     | None => mret None
     end) w1 = (None, w2) ∧ quietly w1 w2).
  { destruct (envResourceQuota envSpec) as [q|].
    - destruct (Hq q eq_refl) as (rq & Hrq & Hrk & Hrh).
      destruct Hq1 as (_ & Hq1 & _ & _ & _ & Hf1 & _).
      apply (reconcileResourceQuota_noop project envName nsName q w1 rq);
        try done; by rewrite Hq1.
    - exists w1. split; [done|]. apply quietly_refl. by destruct Hq1 as (_ & _ & _ & _ & _ & ? & _). }
  destruct Hstep2 as (w2 & -> & Hq2).
  pose proof (quietly_trans _ _ _ Hq1 Hq2) as Hq12.
  assert (Hstep3 : ∃ w3,
    (match envLimitRange envSpec with
     | Some limitSpec => reconcileLimitRange project envName nsName limitSpec
     | None => mret None
     end) w2 = (None, w3) ∧ quietly w2 w3).
  { destruct (envLimitRange envSpec) as [l|].
    - destruct (Hl l eq_refl) as (lr & Hlr & Hlk & Hll).
      destruct Hq12 as (_ & _ & Hl12 & _ & _ & Hf2 & _).
      apply (reconcileLimitRange_noop project envName nsName l w2 lr);
        try done; by rewrite Hl12.
    - exists w2. split; [done|]. apply quietly_refl. by destruct Hq12 as (_ & _ & _ & _ & _ & ? & _). }
  destruct Hstep3 as (w3 & -> & Hq3).
  pose proof (quietly_trans _ _ _ Hq12 Hq3) as Hq13.
  destruct (IH (created ++ [nsName])%list w3) as (created' & w' & Hr & Hq').
  - by destruct Hq13 as (_ & _ & _ & _ & _ & ? & _).
  - by apply (childrenSettled_quietly w).
  - intros e Hin. apply (envSettledIn_quietly _ _ w); [done|]. apply Hall. by right.
  - exists created', w'. split; [done|]. by eapply quietly_trans.
Qed.
End ProjectChildren.

Section ProjectIdempotence.
Import KalypsoProjectReconciler.

Lemma Delete_logs {A} `{Object A} (o : A) w : logs (Delete o w).2 = logs w.
Proof.
  destruct (Delete o w) as [e w'] eqn:Hd. apply Delete_inv in Hd. cbv zeta in Hd.
  destruct Hd as [->|[->|(old & _ & _ & ->)]]; cbn; by rewrite ?logs_setStore.
Qed.

(** A cleanup logs nothing but the deletions and its own success. *)
Lemma reconcileDelete_logs project w ret w' :
  reconcileDelete project w = (ret, w') →
  logs w' ≠ LogInfo "Successfully reconciled KalypsoProject" :: logs w.
Proof.
  assert (Hloop : ∀ names w r w',
    deleteNamespaces project names w = (r, w') →
    ∃ l, logs w' = (l ++ logs w)%list ∧ Forall (λ e, e = LogInfo "Deleting namespace") l).
  { clear. intros names. induction names as [|n rest IH]; intros w r w'.
    { intros [= <- <-]. by exists []. }
    rewrite deleteNamespaces_cons. unfold mbind, M_bind.
    pose proof (Get_logs (A := Namespace_) ("", n) w) as Hg.
    destruct (Get _ w) as [[err|ns] w1]; cbn [snd] in Hg.
    - destruct (IsNotFound err).
      + intros Hr. apply IH in Hr as (l & Hl & HF). exists l. by rewrite Hl, Hg.
      + intros [= <- <-]. exists []. by rewrite Hg.
    - case_bool_decide.
      + cbn. pose proof (Delete_logs ns
          (writeLog (LogInfo "Deleting namespace") w1)) as Hd.
        destruct (Delete _ _) as [e w2]. cbn in Hd.
        assert (Hrest : deleteNamespaces project rest w2 = (r, w') →
          ∃ l, logs w' = (l ++ logs w)%list
               ∧ Forall (λ e, e = LogInfo "Deleting namespace") l).
        { intros Hr. apply IH in Hr as (l & Hl & HF).
          exists (l ++ [LogInfo "Deleting namespace"])%list.
          rewrite Hl, Hd, Hg, <- app_assoc. split; [done|].
          apply Forall_app. split; [done|]. by constructor. }
        destruct e as [err|]; [|done].
        destruct (negb (IsNotFound err)); [|done].
        intros [= <- <-]. exists [LogInfo "Deleting namespace"]. rewrite Hd, Hg.
        split; [done|]. by constructor.
      + intros Hr. apply IH in Hr as (l & Hl & HF). exists l. by rewrite Hl, Hg. }
  intros Hr Hlog.
  assert (Hone : ∀ l, (l ++ logs w)%list
                      = LogInfo "Successfully reconciled KalypsoProject" :: logs w →
                      l = [LogInfo "Successfully reconciled KalypsoProject"]).
  { intros l Hl. by apply (app_inv_tail (logs w) l [_]). }
  unfold reconcileDelete, mbind, M_bind in Hr.
  destruct (deleteNamespaces _ _ w) as [[ret0|[]] w1] eqn:Hl.
  - injection Hr as <- <-. apply Hloop in Hl as (l & Hl & HF). rewrite Hl in Hlog.
    apply Hone in Hlog as ->. by apply Forall_cons in HF as [[=] _].
  - apply Hloop in Hl as (l & Hl & HF).
    match type of Hr with context [Update ?o w1] =>
      pose proof (Update_logs o w1) as Hu end.
    destruct (Update _ w1) as [[err|] w2]; cbn [snd] in Hu.
    + injection Hr as <- <-. rewrite Hu, Hl in Hlog.
      apply Hone in Hlog as ->. by apply Forall_cons in HF as [[=] _].
    + cbn in Hr. injection Hr as <- <-. cbn in Hlog. rewrite Hu, Hl in Hlog.
      apply (Hone (_ :: l)) in Hlog. by injection Hlog.
Qed.

(** A run of the Project reconcile that logs its success fetched a live
    Project past its gates, ran the loop to its end and wrote phase Ready. *)
Lemma Project_success_path range req w ret w' :
  Reconcile range req w = (ret, w') →
  logs w' = LogInfo "Successfully reconciled KalypsoProject" :: logs w →
  ret = (Result0, None)
  ∧ ∃ project w1 created w2 st w3,
      Get req w = (inr project, w1)
      ∧ DeletionTimestamp (projMeta project) = None
      ∧ FinalizerName ∈ Finalizers (projMeta project)
      ∧ projPhase (projStatus project) ≠ ""
      ∧ reconcileEnvironments project (range (projEnvironments (projSpec project))) [] w1
          = (inr created, w2)
      ∧ projPhase st = ProjectPhaseReady
      ∧ StatusUpdate (withStatus st project) w2 = (None, w3)
      ∧ w' = writeLog (LogInfo "Successfully reconciled KalypsoProject") w3.
Proof.
  unfold Reconcile, mbind, M_bind.
  pose proof (Get_logs (A := KalypsoProject) req w) as Hl1.
  destruct (Get req w) as [[err|project] w1] eqn:Hg1; cbn [snd] in Hl1.
  { destruct (IsNotFound err); cbn; intros [= <- <-]; cbn; rewrite Hl1; by intros [=]. }
  case_bool_decide as Hdel.
  { intros Hr Hlog. apply reconcileDelete_logs in Hr. by rewrite Hl1 in Hr. }
  unfold ContainsFinalizer. case_bool_decide as Hfin; cbn [negb].
  2:{ match goal with |- context [Update ?o w1] =>
        pose proof (Update_logs o w1) as Hl2 end.
      destruct (Update _ w1) as [[e|] w2]; cbn [snd] in Hl2;
        intros [= <- <-]; rewrite Hl2, Hl1; intros Hc; by apply cons_neq_self in Hc. }
  case_bool_decide as Hph.
  { match goal with |- context [StatusUpdate ?o w1] =>
      pose proof (StatusUpdate_logs o w1) as Hl2 end.
    destruct (StatusUpdate _ w1) as [[e|] w2]; cbn [snd] in Hl2;
      intros [= <- <-]; rewrite Hl2, Hl1; intros Hc; by apply cons_neq_self in Hc. }
  destruct (reconcileEnvironments _ _ _ w1) as [[ret0|created] w2] eqn:Hloop;
    pose proof (reconcileEnvironments_logs _ _ _ _ _ _ Hloop) as Hl2; cbn in Hl2.
  { intros [= <- <-]. destruct Hl2 as [msg ->]. rewrite Hl1. by intros [=]. }
  unfold Now. cbv zeta.
  match goal with |- context [StatusUpdate ?o w2] =>
    pose proof (StatusUpdate_logs o w2) as Hl3 end.
  destruct (StatusUpdate _ w2) as [[e|] w3] eqn:Hu; cbn [snd] in Hl3.
  { intros [= <- <-]. rewrite Hl3, Hl2, Hl1. intros Hc. by apply cons_neq_self in Hc. }
  cbn. intros [= <- <-] _. split; [done|].
  assert (Hdel' : DeletionTimestamp (projMeta project) = None).
  { destruct (DeletionTimestamp (projMeta project)); [|done]. by destruct Hdel. }
  eexists project, w1, created, w2, _, w3. split_and!; try done.
  reflexivity.
Qed.

(** C2 for the Project: after a reconcile that logs its success, a second
    reconcile without faults sends reads and updates to the child objects
    and leaves all of them as they are. *)
Lemma Project_second_reconcile range1 range2 req w p0 ret1 w1 ret2 w2 :
  let environments := projEnvironments (projSpec p0) in
  projects w !! req = Some p0 →
  range1 environments ≡ₚ map_to_list environments →
  range2 environments ≡ₚ map_to_list environments →
  NoDup (nsNameOf req.2 <$> map_to_list environments) →
  childrenSettled w →
  Reconcile range1 req w = (ret1, w1) →
  logs w1 = LogInfo "Successfully reconciled KalypsoProject" :: logs w →
  faults w1 = [] →
  Reconcile range2 req w1 = (ret2, w2) →
  ret2 = (Result0, None)
  ∧ namespaces w2 = namespaces w1
  ∧ quotas w2 = quotas w1
  ∧ limitRanges w2 = limitRanges w1
  ∧ Forall (λ c, isChild (callKind c) = true → readOrUpdate c) (runCalls w1 w2).
Proof.
  intros environments Hp0 Hperm1 Hperm2 Hnd Hsettled Hr1 Hlog Hf Hr2.
  destruct (Project_success_path _ _ _ _ _ Hr1 Hlog)
    as (-> & project & wa & created & wb & st & wc & Hg & Hdel & Hfin & Hph & Hloop
        & Hready & Hu & ->).
  destruct req as [ns name]. cbn [fst snd] in *.
  apply Get_inv in Hg as [-> Ho]. destruct (Ho _ eq_refl) as (p0' & Hp0' & ->).
  cbn in Hp0'. rewrite Hp0 in Hp0'. injection Hp0' as <-.
  set (project := named (ns, name) p0) in *.
  change (projEnvironments (projSpec project)) with environments in Hloop.
  (* the first run *)
  destruct (reconcileEnvironments_established project _ _ _ _ _ Hloop)
    as (Hsb & Hall & _ & Hpb).
  { done. }
  { change (Name (projMeta project)) with name. by rewrite Hperm1. }
  change (Name (projMeta project)) with name in Hall.
  apply StatusUpdate_inv in Hu. cbv zeta in Hu.
  change (objKey (metaOf (withStatus st project))) with (ns, name) in Hu.
  destruct Hu as (old & Hold & ->).
  cbn in Hold, Hpb. rewrite Hpb, Hp0 in Hold. injection Hold as <-.
  (* the second run *)
  revert Hr2. unfold Reconcile, mbind, M_bind.
  set (w1 := writeLog _ _) in *.
  rewrite Get_nofault by (unfold nextFault; by rewrite Hf).
  assert (Hstored : projects w1 !! (ns, name)
                    = Some (mkKalypsoProject (projMeta p0) (projSpec p0) st)).
  { subst w1. cbn. by rewrite lookup_insert_eq. }
  change (store w1) with (projects w1). rewrite Hstored.
  set (project2 := named (ns, name) _).
  change (DeletionTimestamp (projMeta project2)) with (DeletionTimestamp (projMeta project)).
  rewrite bool_decide_eq_false_2 by (by rewrite Hdel; intros ?).
  unfold ContainsFinalizer.
  change (Finalizers (projMeta project2)) with (Finalizers (projMeta project)).
  rewrite (bool_decide_eq_true_2 _ Hfin). cbn [negb].
  change (projPhase (projStatus project2)) with (projPhase st).
  rewrite bool_decide_eq_false_2 by (by rewrite Hready).
  change (projEnvironments (projSpec project2)) with environments.
  set (u1 := touch _ w1).
  assert (Hfu1 : faults u1 = []) by (subst u1; by rewrite faults_touch, Hf).
  destruct (reconcileEnvironments_quiet project2 (range2 environments) [] u1)
    as (created2 & u2 & -> & Hquiet).
  { done. }
  { subst u1 w1. exact Hsb. }
  { intros e He. change (Name (projMeta project2)) with name.
    assert (Hin : e ∈ range1 environments) by (by rewrite Hperm1, <- Hperm2).
    specialize (Hall e Hin). subst u1 w1. exact Hall. }
  destruct Hquiet as (Hn & Hq & Hl & Hp & _ & Hfu2 & run & Hc & Hrun).
  unfold Now. cbv zeta.
  erewrite (StatusUpdate_nofault (A := KalypsoProject));
    [|unfold nextFault; by rewrite Hfu2|].
  2:{ change (objKey (metaOf _)) with (ns, name). change (store u2) with (projects u2).
      rewrite Hp. subst u1. exact Hstored. }
  cbn. intros [= <- <-]. split; [done|]. split_and!; try done.
  erewrite runCalls_app.
  2:{ cbn. rewrite Hc. subst u1. cbn.
      instantiate (1 := (_ :: run ++ [_])%list). cbn. by rewrite <- app_assoc. }
  apply Forall_cons. split; [done|]. apply Forall_app. split.
  - eapply Forall_impl; [exact Hrun|]. by intros c Hc' _.
  - apply Forall_cons. split; [done|]. constructor.
Qed.
End ProjectIdempotence.

Section SecondReconcile.

(** C2 for the Server: after a reconcile that logs its success, a second
    reconcile without faults writes to no child object. *)
Lemma Server_second_reconcile req w ret1 w1 ret2 w2 :
  settled (deployments w) →
  settled (services w) →
  KalypsoTritonServerReconciler.Reconcile req w = (ret1, w1) →
  logs w1 = LogInfo "Successfully reconciled KalypsoTritonServer" :: logs w →
  faults w1 = [] →
  KalypsoTritonServerReconciler.Reconcile req w1 = (ret2, w2) →
  ret2 = (Result0, None)
  ∧ childWrites (runCalls w1 w2) = []
  ∧ deployments w2 = deployments w1
  ∧ services w2 = services w1.
Proof.
  intros Hsd Hss Hr1 Hlog Hf Hr2.
  pose proof (Reconcile_success_converged _ _ _ _ Hr1 Hlog Hsd Hss) as Hconv.
  destruct (Reconcile_converged req w1 Hf Hconv) as (w2' & appKey & Hr2' & Hrun & Hd & Hs).
  rewrite Hr2 in Hr2'. injection Hr2' as -> <-. split_and!; try done.
  by rewrite Hrun.
Qed.
End SecondReconcile.

(** * The requests of the Application reconciler *)

Section Requests.
Context (P : Kind → Prop).

Lemma sendsOnly_ret {A} (x : A) : sendsOnly P (mret x).
Proof. intros w. by exists []. Qed.

Lemma sendsOnly_bind {A B} (m : M A) (k : A → M B) :
  sendsOnly P m → (∀ a, sendsOnly P (k a)) → sendsOnly P (m ≫= k).
Proof.
  intros Hm Hk w. unfold mbind, M_bind.
  destruct (Hm w) as (run1 & Hc1 & Hr1). destruct (m w) as [a w1]. cbn [snd] in Hc1.
  destruct (Hk a w1) as (run2 & Hc2 & Hr2).
  exists (run2 ++ run1)%list. split.
  - by rewrite Hc2, Hc1, app_assoc.
  - by apply Forall_app.
Qed.

Lemma sendsOnly_logInfo msg : sendsOnly P (logInfo msg).
Proof. intros w. by exists []. Qed.

Lemma sendsOnly_logError msg : sendsOnly P (logError msg).
Proof. intros w. by exists []. Qed.

Lemma sendsOnly_Now : sendsOnly P Now.
Proof. intros w. by exists []. Qed.

Lemma sendsOnly_request {B} v k key (serve : World → (error + B) * World) :
  P k → (∀ w0, calls (serve w0).2 = calls w0) → sendsOnly P (request v k key serve).
Proof.
  intros Hk Hs w. unfold request.
  destruct (faults w) as [|[e|] fs]; cbn.
  - specialize (Hs (setFaults [] w)). destruct (serve _) as [r w1]. cbn in *.
    eexists [_]. split; [by rewrite Hs|]. by repeat constructor.
  - eexists [_]. split; [done|]. by repeat constructor.
  - specialize (Hs (setFaults fs w)). destruct (serve _) as [r w1]. cbn in *.
    eexists [_]. split; [by rewrite Hs|]. by repeat constructor.
Qed.

Context {A : Type} `{Object A}.
Hypothesis kind_ok : P (kindOf (A := A)).

Lemma sendsOnly_Get key : sendsOnly P (Get (A := A) key).
Proof.
  apply sendsOnly_request; [done|]. intros w0. by destruct (store w0 !! key).
Qed.

Lemma sendsOnly_List ns : sendsOnly P (List_ (A := A) ns).
Proof. by apply sendsOnly_request. Qed.

Lemma sendsOnly_Update (o : A) : sendsOnly P (Update o).
Proof.
  apply sendsOnly_bind; [|intros; apply sendsOnly_ret].
  apply sendsOnly_request; [done|]. intros w0.
  destruct (store w0 !! _); [|done]. cbn. unfold put.
  case_bool_decide; by rewrite calls_setStore.
Qed.

Lemma sendsOnly_StatusUpdate (o : A) : sendsOnly P (StatusUpdate o).
Proof.
  apply sendsOnly_bind; [|intros; apply sendsOnly_ret].
  apply sendsOnly_request; [done|]. intros w0.
  destruct (store w0 !! _); [|done]. cbn. by rewrite calls_setStore.
Qed.
End Requests.

Section ApplicationRequests.
Import KalypsoApplicationReconciler.

Ltac sends :=
  repeat (cbv beta zeta; match goal with
  | |- sendsOnly _ (if ?b then _ else _) => destruct b
  | |- sendsOnly _ (match ?x with _ => _ end) => destruct x
  | |- sendsOnly _ (_ ≫= _) => apply sendsOnly_bind; [|intros ?]
  | |- sendsOnly _ (mret _) => apply sendsOnly_ret
  | |- sendsOnly _ (logInfo _) => apply sendsOnly_logInfo
  | |- sendsOnly _ (logError _) => apply sendsOnly_logError
  | |- sendsOnly _ Now => apply sendsOnly_Now
  | |- sendsOnly _ (Get _) => apply sendsOnly_Get; reflexivity
  | |- sendsOnly _ (List_ _) => apply sendsOnly_List; reflexivity
  | |- sendsOnly _ (Update _) => apply sendsOnly_Update; reflexivity
  | |- sendsOnly _ (StatusUpdate _) => apply sendsOnly_StatusUpdate; reflexivity
  end).

(** The Application reconciler addresses Applications, Projects and Servers,
    and no child object. *)
Lemma Application_requests req :
  sendsOnly (λ k, isChild k = false) (Reconcile req).
Proof.
  unfold Reconcile, reconcileDelete, setFailedStatus, countActiveTritonServers.
  sends.
Qed.

Lemma childWrites_none run :
  Forall (λ c, isChild (callKind c) = false) run → childWrites run = [].
Proof.
  induction 1 as [|c run Hc _ IH]; [done|].
  unfold childWrites in *. rewrite filter_cons_False; [done|].
  rewrite Hc. by destruct (isWrite _).
Qed.
End ApplicationRequests.

(** * Claim C2 *)

Section Idempotence.

(** The second reconcile of the demo Project, its spec unchanged, sends
    three updates to child objects. *)
Lemma C2_second_reconcile_updates :
  let req := ("kalypso-system", "demo") in
  let first := KalypsoProjectReconciler.Reconcile sampleRange req (demoWorld []) in
  let second := KalypsoProjectReconciler.Reconcile sampleRange req first.2 in
  first.1 = (Result0, None)
  ∧ second.1 = (Result0, None)
  ∧ projSpec <$> projects first.2 !! req = Some (projSpec demoProject)
  ∧ childWrites (runCalls first.2 second.2)
    = [mkApiCall VUpdate KResourceQuota ("demo-prod", "demo-quota") None;
       mkApiCall VUpdate KNamespace ("", "demo-prod") None;
       mkApiCall VUpdate KNamespace ("", "demo-dev") None].
Proof. vm_compute. done. Qed.


End Idempotence.

(** * The requests a reconcile sends *)

Section Sends.
Context (P : ApiCall → Prop).

Lemma sends_ret {A} (x : A) (Q : A → Prop) : Q x → sends P (mret x) Q.
Proof. intros Hq w. split; [by exists []|done]. Qed.

Lemma sends_bind {A B} (m : M A) (k : A → M B) (Q : A → Prop) (R : B → Prop) :
  sends P m Q → (∀ a, Q a → sends P (k a) R) → sends P (m ≫= k) R.
Proof.
  intros Hm Hk w. unfold mbind, M_bind.
  destruct (Hm w) as [(run1 & Hc1 & Hr1) Hq]. destruct (m w) as [a w1]. cbn [fst snd] in *.
  destruct (Hk a Hq w1) as [(run2 & Hc2 & Hr2) Hr]. split; [|done].
  exists (run2 ++ run1)%list. split.
  - by rewrite Hc2, Hc1, app_assoc.
  - by apply Forall_app.
Qed.

Lemma sends_weaken {A} (m : M A) (Q Q' : A → Prop) :
  sends P m Q → (∀ a, Q a → Q' a) → sends P m Q'.
Proof. intros Hm Hq w. destruct (Hm w) as [Hc Ha]. split; [done|]. by apply Hq. Qed.

Lemma sends_logInfo msg : sends P (logInfo msg) (λ _, True).
Proof. intros w. split; [by exists []|done]. Qed.

Lemma sends_logError msg : sends P (logError msg) (λ _, True).
Proof. intros w. split; [by exists []|done]. Qed.

Lemma sends_Now : sends P Now (λ _, True).
Proof. intros w. split; [by exists []|done]. Qed.

Lemma sends_request {B} v k key (serve : World → (error + B) * World) (Q : error + B → Prop) :
  (∀ e, P (mkApiCall v k key e)) →
  (∀ w0, calls (serve w0).2 = calls w0 ∧ Q (serve w0).1) →
  (∀ e, Q (inl e)) →
  sends P (request v k key serve) Q.
Proof.
  intros Hk Hs Hq w. unfold request.
  destruct (faults w) as [|[e|] fs]; cbn.
  - destruct (Hs (setFaults [] w)) as [Hc Hr]. destruct (serve _) as [r w1]. cbn in *.
    split; [|done]. eexists [_]. split; [by rewrite Hc|]. by repeat constructor.
  - split; [|done]. eexists [_]. split; [done|]. by repeat constructor.
  - destruct (Hs (setFaults fs w)) as [Hc Hr]. destruct (serve _) as [r w1]. cbn in *.
    split; [|done]. eexists [_]. split; [by rewrite Hc|]. by repeat constructor.
Qed.

Context {A : Type} `{Object A}.
Hypothesis meta_setMeta : ∀ m (o : A), metaOf (setMeta m o) = m.

Lemma sends_Get key :
  (∀ e, P (mkApiCall VGet (kindOf (A := A)) key e)) →
  sends P (Get (A := A) key) (fetched key).
Proof.
  intros Hk. apply sends_request; [done| |done]. intros w0.
  destruct (store w0 !! key) as [o|]; cbn; [|done]. split; [done|].
  intros o' [= <-]. unfold named. rewrite meta_setMeta. by destruct key.
Qed.

Lemma sends_List ns :
  (∀ e, P (mkApiCall VList (kindOf (A := A)) (ns, "") e)) →
  sends P (List_ (A := A) ns) (λ _, True).
Proof. intros Hk. by apply sends_request. Qed.

Lemma sends_Create (o : A) :
  (∀ e, P (mkApiCall VCreate (kindOf (A := A)) (objKey (metaOf o)) e)) →
  sends P (Create o) (λ _, True).
Proof.
  intros Hk. eapply sends_bind; [|intros; by apply sends_ret].
  apply (sends_request _ _ _ _ (λ _, True)); [done| |done]. intros w0.
  destruct (store w0 !! _); [done|]. cbn. by rewrite calls_setStore.
Qed.

Lemma sends_Update (o : A) :
  (∀ e, P (mkApiCall VUpdate (kindOf (A := A)) (objKey (metaOf o)) e)) →
  sends P (Update o) (λ _, True).
Proof.
  intros Hk. eapply sends_bind; [|intros; by apply sends_ret].
  apply (sends_request _ _ _ _ (λ _, True)); [done| |done]. intros w0.
  destruct (store w0 !! _); [|done]. cbn. unfold put.
  case_bool_decide; by rewrite calls_setStore.
Qed.

Lemma sends_StatusUpdate (o : A) :
  (∀ e, P (mkApiCall VStatusUpdate (kindOf (A := A)) (objKey (metaOf o)) e)) →
  sends P (StatusUpdate o) (λ _, True).
Proof.
  intros Hk. eapply sends_bind; [|intros; by apply sends_ret].
  apply (sends_request _ _ _ _ (λ _, True)); [done| |done]. intros w0.
  destruct (store w0 !! _); [|done]. cbn. by rewrite calls_setStore.
Qed.

Lemma sends_Delete (o : A) :
  (∀ e, P (mkApiCall VDelete (kindOf (A := A)) (objKey (metaOf o)) e)) →
  sends P (Delete o) (λ _, True).
Proof.
  intros Hk. eapply sends_bind; [|intros; by apply sends_ret].
  apply (sends_request _ _ _ _ (λ _, True)); [done| |done]. intros w0.
  destruct (store w0 !! _); [|done].
  repeat case_bool_decide; cbn; by rewrite ?calls_setStore.
Qed.

Lemma sends_CreateOrUpdate `{EqDecision A} (fresh : A) (mutate : A → error + A) :
  (∀ o o', mutate o = inr o' → objKey (metaOf o') = objKey (metaOf o)) →
  (∀ v e, v = VGet ∨ v = VCreate ∨ v = VUpdate →
          P (mkApiCall v (kindOf (A := A)) (objKey (metaOf fresh)) e)) →
  sends P (CreateOrUpdate fresh mutate) (λ _, True).
Proof.
  intros Hm Hp. unfold CreateOrUpdate.
  eapply sends_bind; [apply sends_Get; intros; apply Hp; auto|].
  intros [err|existing] Hk.
  - destruct (IsNotFound err); [|by apply sends_ret].
    destruct (mutate fresh) as [e|o] eqn:Hf; [by apply sends_ret|].
    apply sends_Create. intros e. rewrite (Hm _ _ Hf). apply Hp. auto.
  - specialize (Hk existing eq_refl).
    destruct (mutate existing) as [e|o] eqn:Hf; [by apply sends_ret|].
    case_bool_decide; [by apply sends_ret|].
    apply sends_Update. intros e. rewrite (Hm _ _ Hf), Hk. apply Hp. auto.
Qed.
End Sends.

Section Scopes.

Lemma objKey_AddFinalizer m f : objKey (AddFinalizer m f) = objKey m.
Proof. unfold AddFinalizer. by destruct (ContainsFinalizer m f). Qed.

Lemma objKey_RemoveFinalizer m f : objKey (RemoveFinalizer m f) = objKey m.
Proof. done. Qed.

Ltac sends_step :=
  cbv beta zeta; match goal with
  | |- sends _ (if ?b then _ else _) _ => destruct b
  | |- sends _ (match ?x with _ => _ end) _ => destruct x
  | |- sends _ (_ ≫= _) _ => eapply sends_bind; [|intros ? ?]
  | |- sends _ (mret _) _ =>
      first [by apply sends_ret | by apply (sends_ret _ _ (λ _, True))]
  | |- sends _ (logInfo _) _ => apply sends_logInfo
  | |- sends _ (logError _) _ => apply sends_logError
  | |- sends _ Now _ => apply sends_Now
  end.

Ltac fetched_key H :=
  match type of H with
  | fetched _ (inr ?o) => specialize (H o eq_refl); cbn in H
  end.

Lemma Application_sends req :
  sends (applicationScope req) (KalypsoApplicationReconciler.Reconcile req) (λ _, True).
Proof.
  unfold KalypsoApplicationReconciler.Reconcile, KalypsoApplicationReconciler.reconcileDelete,
    KalypsoApplicationReconciler.setFailedStatus,
    KalypsoApplicationReconciler.countActiveTritonServers.
  assert (Hw : ∀ (app : KalypsoApplication) m st e v,
             objKey (appMeta app) = req → objKey m = req →
             v = VUpdate ∨ v = VStatusUpdate →
             applicationScope req
               (mkApiCall v KApplication
                  (objKey (metaOf (mkKalypsoApplication m (appSpec app) st))) e)).
  { intros app m st e v Hk Hm [-> | ->]; unfold applicationScope;
      change (callKey _) with (objKey m); rewrite Hm; by cbn. }
  eapply sends_bind; [apply sends_Get; [done|intros e; unfold applicationScope; by cbn]|]. intros [err|app] Hk.
  { by repeat sends_step. }
  fetched_key Hk.
  assert (Hns : Namespace (appMeta app) = req.1) by (by rewrite <- Hk).
  destruct (bool_decide _).
  { eapply sends_bind; [apply sends_Update; intros e; apply Hw; auto|].
    intros ? ?. by repeat sends_step. }
  destruct (negb _).
  { eapply sends_bind;
      [apply sends_Update; intros e; apply Hw; rewrite ?objKey_AddFinalizer; auto|].
    intros ? ?. by repeat sends_step. }
  destruct (bool_decide _).
  { cbv zeta. eapply sends_bind; [apply sends_StatusUpdate; intros e; apply Hw; auto|].
    intros ? ?. by repeat sends_step. }
  eapply sends_bind.
  { apply (sends_Get _ (A := KalypsoProject)); [done|]. intros e.
    unfold applicationScope. by cbn. }
  intros [err|project] _.
  { destruct (IsNotFound err); [|by repeat sends_step].
    eapply sends_bind; [apply sends_logError|]. intros _ _.
    eapply sends_bind; [|intros; by apply sends_ret].
    eapply sends_bind; [apply sends_Now|]. intros now _. cbv zeta.
    eapply sends_bind; [apply sends_StatusUpdate; intros e; apply Hw; auto|].
    intros ? ?. by repeat sends_step. }
  destruct (bool_decide _).
  { eapply sends_bind; [apply sends_logInfo|]. intros _ _.
    eapply sends_bind; [apply sends_Get; [done|intros e; unfold applicationScope; by cbn]|]. intros [err|app'] Hk'; [by repeat sends_step|].
    fetched_key Hk'.
    eapply sends_bind; [apply sends_Now|]. intros now _. cbv zeta.
    eapply sends_bind; [apply sends_StatusUpdate; intros e; apply Hw; auto|].
    intros ? ?. by repeat sends_step. }
  eapply sends_bind.
  { eapply sends_bind.
    - apply (sends_List _ (A := KalypsoTritonServer)). intros e. unfold applicationScope. by cbn.
    - intros [err|items] _; by apply (sends_ret _ _ (λ _, True)). }
  intros [activeModels err] _.
  eapply sends_bind.
  { instantiate (1 := λ _, True). destruct err; [apply sends_logError|by apply sends_ret]. }
  intros _ _.
  eapply sends_bind; [apply sends_Get; [done|intros e; unfold applicationScope; by cbn]|]. intros [err'|app'] Hk'; [by repeat sends_step|].
  fetched_key Hk'.
  eapply sends_bind; [apply sends_Now|]. intros now _. cbv zeta.
  eapply sends_bind; [apply sends_StatusUpdate; intros e; apply Hw; auto|].
  intros ? ?. by repeat sends_step.
Qed.

Lemma Server_sends req :
  sends (serverScope req) (KalypsoTritonServerReconciler.Reconcile req) (λ _, True).
Proof.
  unfold KalypsoTritonServerReconciler.Reconcile, KalypsoTritonServerReconciler.reconcileDelete,
    KalypsoTritonServerReconciler.setFailedStatus,
    KalypsoTritonServerReconciler.reconcileDeployment,
    KalypsoTritonServerReconciler.reconcileService.
  assert (Hw : ∀ (server : KalypsoTritonServer) m st e v,
             objKey m = req → v = VUpdate ∨ v = VStatusUpdate →
             serverScope req
               (mkApiCall v KTritonServer
                  (objKey (metaOf (mkKalypsoTritonServer m (srvSpec server) st))) e)).
  { intros server m st e v Hm [-> | ->]; unfold serverScope;
      change (callKey _) with (objKey m); by rewrite Hm. }
  assert (Hfail : ∀ (server : KalypsoTritonServer) msg,
             objKey (srvMeta server) = req →
             sends (serverScope req)
               (KalypsoTritonServerReconciler.setFailedStatus server msg) (λ _, True)).
  { intros server msg Hk. unfold KalypsoTritonServerReconciler.setFailedStatus.
    eapply sends_bind; [apply sends_Now|]. intros now _. cbv zeta.
    eapply sends_bind; [apply sends_StatusUpdate; intros e; apply Hw; auto|].
    intros ? ?. by apply sends_ret. }
  fold KalypsoTritonServerReconciler.setFailedStatus.
  eapply sends_bind; [apply sends_Get; [done|intros e; by unfold serverScope]|].
  intros [err|server] Hk.
  { by repeat sends_step. }
  fetched_key Hk.
  assert (Hns : Namespace (srvMeta server) = req.1) by (by rewrite <- Hk).
  assert (Hnm : Name (srvMeta server) = req.2) by (by rewrite <- Hk).
  destruct (bool_decide _).
  { eapply sends_bind; [apply sends_Update; intros e; apply Hw; auto|].
    intros ? ?. by repeat sends_step. }
  destruct (negb _).
  { eapply sends_bind;
      [apply sends_Update; intros e; apply Hw; rewrite ?objKey_AddFinalizer; auto|].
    intros ? ?. by repeat sends_step. }
  destruct (bool_decide _).
  { cbv zeta. eapply sends_bind; [apply sends_StatusUpdate; intros e; apply Hw; auto|].
    intros ? ?. by repeat sends_step. }
  eapply sends_bind.
  { apply (sends_Get _ (A := KalypsoApplication)); [done|]. intros e.
    unfold serverScope. by cbn. }
  intros [err|app] _.
  { destruct (IsNotFound err); [|by repeat sends_step].
    eapply sends_bind; [apply sends_logError|]. intros _ _.
    eapply sends_bind; [by apply Hfail|]. intros ? ?. by apply sends_ret. }
  cbv zeta. rewrite Hns, Hnm.
  eapply sends_bind.
  { apply sends_CreateOrUpdate; [done| |].
    - intros o o' Ho. by apply mutateDeployment_inv in Ho as [? _].
    - intros v e [-> | [-> | ->]]; by unfold serverScope. }
  intros [err|] _.
  { eapply sends_bind; [apply sends_logError|]. intros _ _.
    eapply sends_bind; [by apply Hfail|]. intros ? ?. by apply sends_ret. }
  eapply sends_bind.
  { apply sends_CreateOrUpdate; [done| |].
    - intros o o' Ho. unfold KalypsoTritonServerReconciler.mutateService in Ho.
      destruct (SetControllerReference _ _ _) as [?|m] eqn:Hs; [done|].
      injection Ho as <-. apply SetControllerReference_key in Hs as (Hn & Hs & _).
      unfold objKey. cbn in *. by rewrite Hn, Hs.
    - intros v e [-> | [-> | ->]]; by unfold serverScope. }
  intros [err|] _.
  { eapply sends_bind; [apply sends_logError|]. intros _ _.
    eapply sends_bind; [by apply Hfail|]. intros ? ?. by apply sends_ret. }
  eapply sends_bind.
  { apply (sends_Get _ (A := Deployment)); [done|]. intros e. by unfold serverScope. }
  intros [err|deployment] _; [by repeat sends_step|].
  eapply sends_bind; [apply sends_Get; [done|intros e; by unfold serverScope]|].
  intros [err|server'] Hk'; [by repeat sends_step|].
  fetched_key Hk'.
  eapply sends_bind; [apply sends_Now|]. intros now _. cbv zeta.
  eapply sends_bind; [apply sends_StatusUpdate; intros e; apply Hw; auto|].
  intros ? ?. by repeat sends_step.
Qed.

Lemma Project_sends range req :
  sends (projectScope req) (KalypsoProjectReconciler.Reconcile range req) (λ _, True).
Proof.
  assert (Hw : ∀ (project : KalypsoProject) m st e v,
             objKey m = req → v = VUpdate ∨ v = VStatusUpdate →
             projectScope req
               (mkApiCall v KProject
                  (objKey (metaOf (mkKalypsoProject m (projSpec project) st))) e)).
  { intros project m st e v Hm [-> | ->]; unfold projectScope;
      change (callKey _) with (objKey m); by rewrite Hm. }
  assert (Hfail : ∀ (project : KalypsoProject) msg,
             objKey (projMeta project) = req →
             sends (projectScope req)
               (KalypsoProjectReconciler.setFailedStatus project msg) (λ _, True)).
  { intros project msg Hk. unfold KalypsoProjectReconciler.setFailedStatus.
    eapply sends_bind; [apply sends_Now|]. intros now _. cbv zeta.
    eapply sends_bind; [apply sends_StatusUpdate; intros e; apply Hw; auto|].
    intros ? ?. by apply sends_ret. }
  assert (Hdel : ∀ (project : KalypsoProject) names,
             sends (projectScope req)
               (KalypsoProjectReconciler.deleteNamespaces project names) (λ _, True)).
  { intros project names. induction names as [|nsName rest IH]; [by apply sends_ret|].
    cbn [KalypsoProjectReconciler.deleteNamespaces].
    eapply sends_bind.
    { apply (sends_Get _ (A := Namespace_)); [done|]. intros e. by unfold projectScope. }
    intros [err|ns] Hk; [destruct (IsNotFound err); [done|by apply sends_ret]|].
    fetched_key Hk. destruct (bool_decide _); [|done].
    eapply sends_bind; [apply sends_logInfo|]. intros _ _.
    eapply sends_bind.
    { apply sends_Delete. intros e. unfold projectScope.
      change (callKey _) with (objKey (nsMeta ns)). by rewrite Hk. }
    intros [err|] _; [|done]. destruct (negb _); [by apply sends_ret|done]. }
  assert (Henv : ∀ (project : KalypsoProject) envs created,
             objKey (projMeta project) = req →
             sends (projectScope req)
               (KalypsoProjectReconciler.reconcileEnvironments project envs created)
               (λ _, True)).
  { intros project envs created Hk.
    assert (Hnm : Name (projMeta project) = req.2) by (by rewrite <- Hk).
    revert created. induction envs as [|[envName envSpec] rest IH]; intros created.
    { by apply sends_ret. }
    cbn [KalypsoProjectReconciler.reconcileEnvironments]. cbv zeta.
    set (nsName := if bool_decide _ then _ else _).
    eapply sends_bind.
    { instantiate (1 := λ _, True).
      unfold KalypsoProjectReconciler.reconcileNamespace. cbv zeta.
      eapply sends_bind.
      { apply (sends_Get _ (A := Namespace_)); [done|]. intros e. by unfold projectScope. }
      intros [err|ns] Hg.
      - destruct (IsNotFound err); [|by apply sends_ret].
        apply sends_Create. intros e. by unfold projectScope.
      - fetched_key Hg. apply sends_Update. intros e. unfold projectScope.
        change (callKey _) with (objKey (nsMeta ns)). by rewrite Hg. }
    intros [err|] _.
    { eapply sends_bind; [apply sends_logError|]. intros _ _.
      eapply sends_bind; [by apply Hfail|]. intros ? ?. by apply sends_ret. }
    eapply sends_bind.
    { instantiate (1 := λ _, True).
      destruct (envResourceQuota envSpec) as [quotaSpec|]; [|by apply sends_ret].
      unfold KalypsoProjectReconciler.reconcileResourceQuota. cbv zeta.
      eapply sends_bind.
      { apply (sends_Get _ (A := ResourceQuota)); [done|]. intros e.
        unfold projectScope. cbn. by rewrite Hnm. }
      intros [err|rq] Hg.
      - destruct (IsNotFound err); [|by apply sends_ret].
        apply sends_Create. intros e. unfold projectScope. cbn. by rewrite Hnm.
      - fetched_key Hg. apply sends_Update. intros e. unfold projectScope.
        change (callKey _) with (objKey (rqMeta rq)). rewrite Hg. cbn. by rewrite Hnm. }
    intros [err|] _.
    { eapply sends_bind; [apply sends_logError|]. intros _ _.
      eapply sends_bind; [by apply Hfail|]. intros ? ?. by apply sends_ret. }
    eapply sends_bind.
    { instantiate (1 := λ _, True).
      destruct (envLimitRange envSpec) as [limitSpec|]; [|by apply sends_ret].
      unfold KalypsoProjectReconciler.reconcileLimitRange. cbv zeta.
      eapply sends_bind.
      { apply (sends_Get _ (A := LimitRange)); [done|]. intros e.
        unfold projectScope. cbn. by rewrite Hnm. }
      intros [err|lr] Hg.
      - destruct (IsNotFound err); [|by apply sends_ret].
        apply sends_Create. intros e. unfold projectScope. cbn. by rewrite Hnm.
      - fetched_key Hg. apply sends_Update. intros e. unfold projectScope.
        change (callKey _) with (objKey (lrMeta lr)). rewrite Hg. cbn. by rewrite Hnm. }
    intros [err|] _; [|by apply IH].
    eapply sends_bind; [apply sends_logError|]. intros _ _.
    eapply sends_bind; [by apply Hfail|]. intros ? ?. by apply sends_ret. }
  unfold KalypsoProjectReconciler.Reconcile, KalypsoProjectReconciler.reconcileDelete.
  eapply sends_bind; [apply sends_Get; [done|intros e; by unfold projectScope]|].
  intros [err|project] Hk.
  { by repeat sends_step. }
  fetched_key Hk.
  destruct (bool_decide _).
  { eapply sends_bind; [apply Hdel|]. intros [ret|[]] _; [by apply sends_ret|].
    eapply sends_bind; [apply sends_Update; intros e; apply Hw; auto|].
    intros ? ?. by repeat sends_step. }
  destruct (negb _).
  { eapply sends_bind;
      [apply sends_Update; intros e; apply Hw; rewrite ?objKey_AddFinalizer; auto|].
    intros ? ?. by repeat sends_step. }
  destruct (bool_decide _).
  { cbv zeta. eapply sends_bind; [apply sends_StatusUpdate; intros e; apply Hw; auto|].
    intros ? ?. by repeat sends_step. }
  eapply sends_bind; [by apply Henv|]. intros [ret|created] _; [by apply sends_ret|].
  eapply sends_bind; [apply sends_Now|]. intros now _. cbv zeta.
  eapply sends_bind; [apply sends_StatusUpdate; intros e; apply Hw; auto|].
  intros ? ?. by repeat sends_step.
Qed.

Lemma sends_runCalls {A} P (m : M A) Q w : sends P m Q → Forall P (runCalls w (m w).2).
Proof.
  intros Hm. destruct (Hm w) as [(run & Hc & Hrun) _]. by rewrite (runCalls_app _ _ _ Hc).
Qed.

(** The Application reconciler stays in the namespace of its request: it
    reads the Application and Projects, lists Servers, and writes nothing
    but the Application it reconciles. *)
Theorem Application_request_scope req w :
  Forall (applicationScope req)
    (runCalls w (KalypsoApplicationReconciler.Reconcile req w).2).
Proof. eapply sends_runCalls, Application_sends. Qed.

(** The Server reconciler addresses its Server, the Applications of its
    namespace (reading), the Deployment [<name>-deploy] and the Service
    [<name>-svc] of its namespace, and nothing else; it deletes nothing. *)
Theorem Server_request_scope req w :
  Forall (serverScope req)
    (runCalls w (KalypsoTritonServerReconciler.Reconcile req w).2).
Proof. eapply sends_runCalls, Server_sends. Qed.

(** The Project reconciler addresses its Project, cluster-scoped
    Namespaces, and the quotas [<name>-quota] and limit ranges
    [<name>-limits]; the only objects it deletes are Namespaces. *)
Theorem Project_request_scope range req w :
  Forall (projectScope req)
    (runCalls w (KalypsoProjectReconciler.Reconcile range req w).2).
Proof. eapply sends_runCalls, Project_sends. Qed.
End Scopes.

(** * The Deployment and the Service of a Server *)

Section ServerChildren.
Import KalypsoTritonServerReconciler.

Lemma upsertOwnerRef_in r l : r ∈ upsertOwnerRef r l.
Proof.
  induction l as [|x l IH]; cbn; [apply list_elem_of_here|].
  destruct (sameOwner x r); [apply list_elem_of_here|by apply list_elem_of_further].
Qed.

Lemma SetControllerReference_owner kind name m m' :
  SetControllerReference kind name m = inr m' →
  mkOwnerReference kind name true ∈ OwnerReferences m'.
Proof.
  unfold SetControllerReference.
  destruct (List.find _ _) as [x|]; [destruct (sameOwner _ _); [|done]|];
    intros [= <-]; apply upsertOwnerRef_in.
Qed.

(** What a successful reconcile leaves in the cluster for its Server. *)
Lemma Server_success_children req w ret w' :
  Reconcile req w = (ret, w') →
  logs w' = LogInfo "Successfully reconciled KalypsoTritonServer" :: logs w →
  settled (deployments w) →
  settled (services w) →
  ∃ a app d sv,
    let server := named req a in
    servers w' !! req = Some a
    ∧ deployments w' !! (req.1, req.2 +:+ "-deploy") = Some d
    ∧ services w' !! (req.1, req.2 +:+ "-svc") = Some sv
    ∧ dTemplate d = mkPodTemplateSpec (serverLabels server) ∅ [tritonContainer server app]
    ∧ dSelector d = Some (serverLabels server)
    ∧ dReplicas d = Some (default 1 (srvReplicas (srvSpec a)))
    ∧ mkOwnerReference "KalypsoTritonServer" req.2 true ∈ OwnerReferences (dMeta d)
    ∧ sSelector sv = {[TritonServerLabelKey := req.2]}
    ∧ sPorts sv = [mkServicePort "http" (httpPortOf a) "http" "TCP";
                   mkServicePort "grpc" (grpcPortOf a) "grpc" "TCP";
                   mkServicePort "metrics" (metricsPortOf a) "metrics" "TCP"]
    ∧ sType sv = "ClusterIP"
    ∧ mkOwnerReference "KalypsoTritonServer" req.2 true ∈ OwnerReferences (sMeta sv).
Proof.
  intros Hr Hl Hsd Hss.
  destruct (Reconcile_success_converged _ _ _ _ Hr Hl Hsd Hss)
    as (a & app0 & d & sv & Ha & _ & _ & _ & _ & Hd & Hmd & Hsv & Hms).
  cbv zeta in *. exists a, (named (req.1, srvApplicationRef (srvSpec a)) app0), d, sv.
  cbv zeta. split_and!; try done.
  - by apply mutateDeployment_inv in Hmd as (_ & ? & _).
  - by apply mutateDeployment_inv in Hmd as (_ & _ & _ & ? & _).
  - by apply mutateDeployment_inv in Hmd as (_ & _ & ? & _).
  - unfold mutateDeployment in Hmd.
    destruct (SetControllerReference _ _ _) as [?|m] eqn:Hs; [done|].
    apply SetControllerReference_owner in Hs. injection Hmd as Hm _ _.
    destruct req. by rewrite Hm in Hs.
  - unfold mutateService in Hms.
    destruct (SetControllerReference _ _ _) as [?|m] eqn:Hs; [done|].
    by injection Hms as _ ? _ _.
  - unfold mutateService in Hms.
    destruct (SetControllerReference _ _ _) as [?|m] eqn:Hs; [done|].
    by injection Hms as _ _ ? _.
  - unfold mutateService in Hms.
    destruct (SetControllerReference _ _ _) as [?|m] eqn:Hs; [done|].
    by injection Hms as _ _ _ ?.
  - unfold mutateService in Hms.
    destruct (SetControllerReference _ _ _) as [?|m] eqn:Hs; [done|].
    apply SetControllerReference_owner in Hs. injection Hms as Hm _ _ _.
    destruct req. by rewrite Hm in Hs.
Qed.

(** After a successful reconcile the Service selects the pods of the
    Deployment: the selector of the Deployment is the label set of its pod
    template, and the selector of the Service, which is not empty, is part
    of that label set. *)
Theorem Server_service_selects_pods req w ret w' :
  Reconcile req w = (ret, w') →
  logs w' = LogInfo "Successfully reconciled KalypsoTritonServer" :: logs w →
  settled (deployments w) →
  settled (services w) →
  ∃ d sv,
    deployments w' !! (req.1, req.2 +:+ "-deploy") = Some d
    ∧ services w' !! (req.1, req.2 +:+ "-svc") = Some sv
    ∧ dSelector d = Some (ptLabels (dTemplate d))
    ∧ sSelector sv ⊆ ptLabels (dTemplate d)
    ∧ sSelector sv ≠ ∅.
Proof.
  intros Hr Hl Hsd Hss.
  destruct (Server_success_children _ _ _ _ Hr Hl Hsd Hss)
    as (a & app & d & sv & _ & Hd & Hsv & Ht & Hsel & _ & _ & Hss' & _).
  cbv zeta in *. exists d, sv. rewrite Ht, Hsel, Hss'. split_and!; try done.
  cbn [ptLabels]. apply map_singleton_subseteq_l. unfold serverLabels.
    exact (lookup_insert_eq _ _ _).
Qed.

Lemma Server_service_selects_pods_witness :
  let req := ("kalypso-system", "recommendation-v1") in
  let run := Reconcile req (serverWorld sampleServer []) in
  ∃ d sv,
    deployments run.2 !! (req.1, req.2 +:+ "-deploy") = Some d
    ∧ services run.2 !! (req.1, req.2 +:+ "-svc") = Some sv
    ∧ dSelector d = Some (ptLabels (dTemplate d))
    ∧ sSelector sv ⊆ ptLabels (dTemplate d)
    ∧ sSelector sv ≠ ∅.
Proof.
  intros req run.
  refine (Server_service_selects_pods req (serverWorld sampleServer []) run.1 run.2 _ _ _ _).
  - exact (surjective_pairing _).
  - vm_compute. reflexivity.
  - intros k o Hk. change (deployments _) with (∅ : gmap Key Deployment) in Hk.
    rewrite lookup_empty in Hk. discriminate Hk.
  - intros k o Hk. change (services _) with (∅ : gmap Key Service) in Hk.
    rewrite lookup_empty in Hk. discriminate Hk.
Defined.

(** After a successful reconcile every port of the Service reaches the
    container: its target names a container port with the same number.
    The two probes of the container call the port the Service publishes as
    [http]. *)
Theorem Server_service_ports_reach_container req w ret w' :
  Reconcile req w = (ret, w') →
  logs w' = LogInfo "Successfully reconciled KalypsoTritonServer" :: logs w →
  settled (deployments w) →
  settled (services w) →
  ∃ d sv c,
    deployments w' !! (req.1, req.2 +:+ "-deploy") = Some d
    ∧ services w' !! (req.1, req.2 +:+ "-svc") = Some sv
    ∧ ptContainers (dTemplate d) = [c]
    ∧ Forall (λ sp, ∃ cp, cp ∈ cPorts c ∧ cpName cp = spTargetPort sp
                          ∧ cpContainerPort cp = spPort sp ∧ cpProtocol cp = spProtocol sp)
        (sPorts sv)
    ∧ (∃ sp ready live,
         sp ∈ sPorts sv ∧ spName sp = "http"
         ∧ cReadinessProbe c = Some ready ∧ probePort ready = spPort sp
         ∧ cLivenessProbe c = Some live ∧ probePort live = spPort sp).
Proof.
  intros Hr Hl Hsd Hss.
  destruct (Server_success_children _ _ _ _ Hr Hl Hsd Hss)
    as (a & app & d & sv & _ & Hd & Hsv & Ht & _ & _ & _ & _ & Hp & _).
  cbv zeta in *. exists d, sv, (tritonContainer (named req a) app).
  rewrite Ht, Hp. split_and!; try done.
  - repeat apply Forall_cons_2; [| | |apply Forall_nil_2].
    + eexists. split; [apply list_elem_of_here|done].
    + eexists. split; [apply list_elem_of_further, list_elem_of_here|done].
    + eexists. split; [do 2 apply list_elem_of_further; apply list_elem_of_here|done].
  - eexists _, _, _. split; [apply list_elem_of_here|]. done.
Qed.

Lemma Server_service_ports_reach_container_witness :
  let req := ("kalypso-system", "recommendation-v1") in
  let run := Reconcile req (serverWorld sampleServer []) in
  ∃ d sv c,
    deployments run.2 !! (req.1, req.2 +:+ "-deploy") = Some d
    ∧ services run.2 !! (req.1, req.2 +:+ "-svc") = Some sv
    ∧ ptContainers (dTemplate d) = [c]
    ∧ Forall (λ sp, ∃ cp, cp ∈ cPorts c ∧ cpName cp = spTargetPort sp
                          ∧ cpContainerPort cp = spPort sp ∧ cpProtocol cp = spProtocol sp)
        (sPorts sv)
    ∧ (∃ sp ready live,
         sp ∈ sPorts sv ∧ spName sp = "http"
         ∧ cReadinessProbe c = Some ready ∧ probePort ready = spPort sp
         ∧ cLivenessProbe c = Some live ∧ probePort live = spPort sp).
Proof.
  intros req run.
  refine (Server_service_ports_reach_container req (serverWorld sampleServer [])
            run.1 run.2 _ _ _ _).
  - exact (surjective_pairing _).
  - vm_compute. reflexivity.
  - intros k o Hk. change (deployments _) with (∅ : gmap Key Deployment) in Hk.
    rewrite lookup_empty in Hk. discriminate Hk.
  - intros k o Hk. change (services _) with (∅ : gmap Key Service) in Hk.
    rewrite lookup_empty in Hk. discriminate Hk.
Defined.

(** After a successful reconcile the Deployment and the Service hold a
    controller owner reference to the Server, on which the garbage
    collection that [reconcileDelete] leaves them to relies. *)
Theorem Server_children_owned req w ret w' :
  Reconcile req w = (ret, w') →
  logs w' = LogInfo "Successfully reconciled KalypsoTritonServer" :: logs w →
  settled (deployments w) →
  settled (services w) →
  ∃ d sv,
    deployments w' !! (req.1, req.2 +:+ "-deploy") = Some d
    ∧ services w' !! (req.1, req.2 +:+ "-svc") = Some sv
    ∧ mkOwnerReference "KalypsoTritonServer" req.2 true ∈ OwnerReferences (dMeta d)
    ∧ mkOwnerReference "KalypsoTritonServer" req.2 true ∈ OwnerReferences (sMeta sv).
Proof.
  intros Hr Hl Hsd Hss.
  destruct (Server_success_children _ _ _ _ Hr Hl Hsd Hss)
    as (a & app & d & sv & _ & Hd & Hsv & _ & _ & _ & Hod & _ & _ & _ & Hos).
  by exists d, sv.
Qed.

Lemma Server_children_owned_witness :
  let req := ("kalypso-system", "recommendation-v1") in
  let run := Reconcile req (serverWorld sampleServer []) in
  ∃ d sv,
    deployments run.2 !! (req.1, req.2 +:+ "-deploy") = Some d
    ∧ services run.2 !! (req.1, req.2 +:+ "-svc") = Some sv
    ∧ mkOwnerReference "KalypsoTritonServer" req.2 true ∈ OwnerReferences (dMeta d)
    ∧ mkOwnerReference "KalypsoTritonServer" req.2 true ∈ OwnerReferences (sMeta sv).
Proof.
  intros req run.
  refine (Server_children_owned req (serverWorld sampleServer []) run.1 run.2 _ _ _ _).
  - exact (surjective_pairing _).
  - vm_compute. reflexivity.
  - intros k o Hk. change (deployments _) with (∅ : gmap Key Deployment) in Hk.
    rewrite lookup_empty in Hk. discriminate Hk.
  - intros k o Hk. change (services _) with (∅ : gmap Key Service) in Hk.
    rewrite lookup_empty in Hk. discriminate Hk.
Defined.
End ServerChildren.

(** * The status a Project publishes *)

Section ProjectStatus.
Import KalypsoProjectReconciler.

Lemma fetchCreateOrUpdate_frame {A} `{Object A} key (desired : A) update w :
  others (fetchCreateOrUpdate key desired update w).2 = others w.
Proof.
  unfold fetchCreateOrUpdate, mbind, M_bind.
  pose proof (Get_frame (A := A) key w) as [Hg _].
  destruct (Get key w) as [[err|existing] w1]; cbn [snd] in Hg.
  - destruct (IsNotFound err); [|done].
    pose proof (Create_frame desired w1) as [Hc _]. by rewrite Hc.
  - pose proof (Update_frame (update existing) w1) as [Hu _]. by rewrite Hu.
Qed.

(** A loop that runs to its end collects the namespace of every entry, in
    the order of the iteration, and leaves the Projects alone. *)
Lemma reconcileEnvironments_created project envs created w created' w' :
  reconcileEnvironments project envs created w = (inr created', w') →
  created' = (created ++ (nsNameOf (Name (projMeta project)) <$> envs))%list
  ∧ projects w' = projects w.
Proof.
  revert created w. induction envs as [|[envName envSpec] rest IH]; intros created w.
  { intros [= <- <-]. by rewrite app_nil_r. }
  rewrite reconcileEnvironments_cons. cbv zeta. unfold mbind, M_bind.
  change (if bool_decide (envNamespace envSpec = "") then _ else _)
    with (nsNameOf (Name (projMeta project)) (envName, envSpec)).
  set (nsName := nsNameOf _ _).
  pose proof (fetchCreateOrUpdate_frame (A := Namespace_) ("", nsName)
    (mkNamespace (withLabels (childLabels project envName) (emptyMeta "" nsName)))
    (λ existingNs, mkNamespace (withLabels
       (<[ManagedByLabelKey := ManagedByLabelValue]>
          (<[EnvironmentLabelKey := envName]>
             (<[ProjectLabelKey := Name (projMeta project)]> (Labels (nsMeta existingNs)))))
       (nsMeta existingNs))) w) as H1.
  change (fetchCreateOrUpdate _ _ _ w) with (reconcileNamespace project envName nsName w) in H1.
  destruct (reconcileNamespace _ _ _ w) as [[err|] w1]; cbn [snd] in H1.
  { unfold logError. by destruct (setFailedStatus project _ _). }
  apply (f_equal projects) in H1. cbn in H1.
  set (quotaStep := match envResourceQuota envSpec with
                    | Some quotaSpec =>
                        reconcileResourceQuota project envName nsName quotaSpec
                    | None => mret None
                    end).
  assert (H2 : ∀ w2 e, quotaStep w1 = (e, w2) → projects w2 = projects w1).
  { intros w2 e. subst quotaStep. destruct (envResourceQuota envSpec) as [q|]; [|by intros [= <- <-]].
    intros Hq.
    pose proof (fetchCreateOrUpdate_frame (A := ResourceQuota)
      (nsName, Name (projMeta project) +:+ "-quota")
      (mkResourceQuota
         (withLabels (childLabels project envName)
            (emptyMeta nsName (Name (projMeta project) +:+ "-quota")))
         (quotaHard q))
      (λ existingQuota, mkResourceQuota (rqMeta existingQuota) (quotaHard q)) w1) as Hf.
    change (fetchCreateOrUpdate _ _ _ w1)
      with (reconcileResourceQuota project envName nsName q w1) in Hf.
    rewrite Hq in Hf. by apply (f_equal projects) in Hf. }
  destruct (quotaStep w1) as [[err|] w2] eqn:Hq.
  { unfold logError. by destruct (setFailedStatus project _ _). }
  specialize (H2 _ _ eq_refl).
  set (limitStep := match envLimitRange envSpec with
                    | Some limitSpec =>
                        reconcileLimitRange project envName nsName limitSpec
                    | None => mret None
                    end).
  assert (H3 : ∀ w3 e, limitStep w2 = (e, w3) → projects w3 = projects w2).
  { intros w3 e. subst limitStep. destruct (envLimitRange envSpec) as [l|]; [|by intros [= <- <-]].
    intros Hlr.
    pose proof (fetchCreateOrUpdate_frame (A := LimitRange)
      (nsName, Name (projMeta project) +:+ "-limits")
      (mkLimitRange
         (withLabels (childLabels project envName)
            (emptyMeta nsName (Name (projMeta project) +:+ "-limits")))
         (lrsLimits l))
      (λ existingLimit, mkLimitRange (lrMeta existingLimit) (lrsLimits l)) w2) as Hf.
    change (fetchCreateOrUpdate _ _ _ w2)
      with (reconcileLimitRange project envName nsName l w2) in Hf.
    rewrite Hlr in Hf. by apply (f_equal projects) in Hf. }
  destruct (limitStep w2) as [[err|] w3] eqn:Hlr.
  { unfold logError. by destruct (setFailedStatus project _ _). }
  specialize (H3 _ _ eq_refl). intros Hrest. apply IH in Hrest as [-> Hp].
  split; [by rewrite <- app_assoc|]. congruence.
Qed.

(** A run that logs its success wrote the status it computed from the
    namespaces the loop collected. *)
Lemma Project_success_status range req w ret w' :
  Reconcile range req w = (ret, w') →
  logs w' = LogInfo "Successfully reconciled KalypsoProject" :: logs w →
  ∃ project w1 created w2 w3,
    Get req w = (inr project, w1)
    ∧ reconcileEnvironments project (range (projEnvironments (projSpec project))) [] w1
        = (inr created, w2)
    ∧ StatusUpdate (withStatus
         (mkKalypsoProjectStatus ProjectPhaseReady
            (SetStatusCondition (projConditions (projStatus project))
               (mkCondition "NamespaceCreated" ConditionTrue "NamespacesReady"
                  ("All " +:+ pretty (length created) +:+ " namespaces are ready")
                  (clock w2)))
            created) project) w2 = (None, w3)
    ∧ w' = writeLog (LogInfo "Successfully reconciled KalypsoProject") w3.
Proof.
  unfold Reconcile, mbind, M_bind.
  pose proof (Get_logs (A := KalypsoProject) req w) as Hl1.
  destruct (Get req w) as [[err|project] w1] eqn:Hg1; cbn [snd] in Hl1.
  { destruct (IsNotFound err); cbn; intros [= <- <-]; cbn; rewrite Hl1; by intros [=]. }
  case_bool_decide as Hdel.
  { intros Hr Hlog. apply reconcileDelete_logs in Hr. by rewrite Hl1 in Hr. }
  destruct (negb _).
  { match goal with |- context [Update ?o w1] =>
      pose proof (Update_logs o w1) as Hl2 end.
    destruct (Update _ w1) as [[e|] w2]; cbn [snd] in Hl2;
      intros [= <- <-]; rewrite Hl2, Hl1; intros Hc; by apply cons_neq_self in Hc. }
  case_bool_decide as Hph.
  { match goal with |- context [StatusUpdate ?o w1] =>
      pose proof (StatusUpdate_logs o w1) as Hl2 end.
    destruct (StatusUpdate _ w1) as [[e|] w2]; cbn [snd] in Hl2;
      intros [= <- <-]; rewrite Hl2, Hl1; intros Hc; by apply cons_neq_self in Hc. }
  destruct (reconcileEnvironments _ _ _ w1) as [[ret0|created] w2] eqn:Hloop;
    pose proof (reconcileEnvironments_logs _ _ _ _ _ _ Hloop) as Hl2; cbn in Hl2.
  { intros [= <- <-]. destruct Hl2 as [msg ->]. rewrite Hl1. by intros [=]. }
  unfold Now. cbv zeta.
  match goal with |- context [StatusUpdate ?o w2] =>
    pose proof (StatusUpdate_logs o w2) as Hl3 end.
  destruct (StatusUpdate _ w2) as [[e|] w3] eqn:Hu; cbn [snd] in Hl3.
  { intros [= <- <-]. rewrite Hl3, Hl2, Hl1. intros Hc. by apply cons_neq_self in Hc. }
  cbn. intros [= <- <-] _. by exists project, w1, created, w2, w3.
Qed.

(** A Project reconcile that logs its success leaves the Project with
    phase Ready, with the namespace of every environment of its spec on
    [CreatedNamespaces], in the order of the iteration, and with the
    condition NamespaceCreated true and counting them; metadata and spec
    are as they were. *)
Theorem Project_status_lists_namespaces range req w ret w' :
  Reconcile range req w = (ret, w') →
  logs w' = LogInfo "Successfully reconciled KalypsoProject" :: logs w →
  ∃ p0 p c,
    let envs := range (projEnvironments (projSpec p0)) in
    projects w !! req = Some p0
    ∧ projects w' !! req = Some p
    ∧ projMeta p = projMeta p0
    ∧ projSpec p = projSpec p0
    ∧ projPhase (projStatus p) = ProjectPhaseReady
    ∧ projCreatedNamespaces (projStatus p) = (nsNameOf req.2 <$> envs)
    ∧ FindStatusCondition (projConditions (projStatus p)) "NamespaceCreated" = Some c
    ∧ condStatus c = ConditionTrue
    ∧ condMessage c = "All " +:+ pretty (length envs) +:+ " namespaces are ready".
Proof.
  intros Hr Hlog.
  destruct (Project_success_status _ _ _ _ _ Hr Hlog)
    as (project & w1 & created & w2 & w3 & Hg & Hloop & Hu & ->).
  destruct req as [ns name].
  apply Get_inv in Hg as [-> Ho]. destruct (Ho _ eq_refl) as (p0 & Hp0 & ->).
  cbn in Hp0.
  apply reconcileEnvironments_created in Hloop as [-> Hp2]. cbn [app] in *.
  change (Name (projMeta (named (ns, name) p0))) with name in *.
  change (projEnvironments (projSpec (named (ns, name) p0)))
    with (projEnvironments (projSpec p0)) in *.
  apply StatusUpdate_inv in Hu. cbv zeta in Hu.
  change (objKey (metaOf (withStatus _ _))) with (ns, name) in Hu.
  destruct Hu as (old & Hold & ->).
  cbn in Hold, Hp2. rewrite Hp2, Hp0 in Hold. injection Hold as <-.
  set (c := mkCondition "NamespaceCreated" _ _ _ _).
  destruct (FindStatusCondition_Set (projConditions (projStatus p0)) c)
    as (c' & Hfind & Hst & _ & Hmsg).
  eexists p0, _, c'. cbv zeta. split_and!.
  - done.
  - cbn. by rewrite lookup_insert_eq.
  - done.
  - done.
  - done.
  - done.
  - exact Hfind.
  - done.
  - rewrite Hmsg. cbn. by rewrite length_fmap.
Qed.

Lemma Project_status_lists_namespaces_witness :
  let req := ("kalypso-system", "demo") in
  let run := Reconcile sampleRange req (demoWorld []) in
  (projCreatedNamespaces ∘ projStatus) <$> projects run.2 !! req
  = Some ["demo-dev"; "demo-prod"].
Proof.
  intros req run.
  destruct (Project_status_lists_namespaces sampleRange req (demoWorld []) run.1 run.2)
    as (p0 & p & c & Hp0 & Hp & _ & _ & _ & Hns & _).
  - exact (surjective_pairing _).
  - vm_compute. reflexivity.
  - rewrite Hp. cbn [fmap option_fmap option_map compose]. f_equal. rewrite Hns.
    assert (Hd : p0 = demoProject).
    { cbv zeta in Hp0. change (projects (demoWorld []) !! req) with (Some demoProject) in Hp0.
      by injection Hp0. }
    subst p0. vm_compute. reflexivity.
Defined.
End ProjectStatus.

(** * The hard list of a quota *)

Section QuotaHard.
Import KalypsoProjectReconciler.
Context (f : string → string) `{!Inj (=) (=) f}.

Lemma foldl_insert_other (l : list (string * string)) (h : ResourceList) k :
  (∀ r v, (r, v) ∈ l → f r ≠ k) →
  foldl (λ h kv, <[f kv.1 := kv.2]> h) h l !! k = h !! k.
Proof.
  revert h. induction l as [|[r v] l IH]; intros h Hk; [done|].
  cbn. rewrite IH.
  - rewrite lookup_insert_ne; [done|]. apply (Hk r v), list_elem_of_here.
  - intros r' v' Hin. apply (Hk r' v'). by apply list_elem_of_further.
Qed.

Lemma foldl_insert_key (l : list (string * string)) (h : ResourceList) r v :
  NoDup l.*1 → (r, v) ∈ l →
  foldl (λ h kv, <[f kv.1 := kv.2]> h) h l !! f r = Some v.
Proof.
  revert h. induction l as [|[r' v'] l IH]; intros h Hnd Hin.
  { by apply elem_of_nil in Hin. }
  apply NoDup_cons in Hnd as [Hr' Hnd]. cbn.
  apply elem_of_cons in Hin as [[= <- <-]|Hin]; [|by apply IH].
  rewrite foldl_insert_other; [by rewrite lookup_insert_eq|].
  intros r'' v'' Hin Heq. apply (inj f) in Heq as ->.
  apply Hr'. apply list_elem_of_fmap. by exists (r, v'').
Qed.
End QuotaHard.

Section QuotaHardClaims.
Import KalypsoProjectReconciler.

(** The hard list of a quota holds every request of the spec under
    [requests.<resource>], and under every other name what the limits of
    the spec hold under it: a limit is shadowed by a request that maps to
    its name, and nothing else is on the list. *)
Theorem quotaHard_lookup quotaSpec :
  (∀ r v, rqsRequests quotaSpec !! r = Some v →
          quotaHard quotaSpec !! ("requests." +:+ r) = Some v)
  ∧ (∀ k, (∀ r, k = "requests." +:+ r → rqsRequests quotaSpec !! r = None) →
          quotaHard quotaSpec !! k = rqsLimits quotaSpec !! k).
Proof.
  unfold quotaHard. cbv zeta. split.
  - intros r v Hr.
    apply (foldl_insert_key (String.append "requests.")).
    + apply NoDup_fst_map_to_list.
    + by apply elem_of_map_to_list.
  - intros k Hk.
    rewrite (foldl_insert_other (String.append "requests.")).
    2:{ intros r v Hin Heq. apply elem_of_map_to_list in Hin.
        by rewrite (Hk r (eq_sym Heq)) in Hin. }
    destruct (rqsLimits quotaSpec !! k) as [v|] eqn:Hl.
    + apply (foldl_insert_key id); [apply NoDup_fst_map_to_list|].
      by apply elem_of_map_to_list.
    + rewrite (foldl_insert_other id); [done|].
      intros r v Hin Heq. apply elem_of_map_to_list in Hin. cbn in Heq. congruence.
Qed.

Lemma quotaHard_lookup_witness :
  let quotaSpec :=
    mkResourceQuotaSpec {["requests.cpu" := "1"; "memory" := "4Gi"]} {["cpu" := "8"]} in
  quotaHard quotaSpec !! "requests.cpu" = Some "8"
  ∧ quotaHard quotaSpec !! "memory" = Some "4Gi".
Proof.
  intros quotaSpec. destruct (quotaHard_lookup quotaSpec) as [Hreq Hlim]. split.
  - apply (Hreq "cpu"). reflexivity.
  - rewrite Hlim; [reflexivity|]. intros r Hr. discriminate Hr.
Defined.
End QuotaHardClaims.

(** * Namespaces that exist already, and cleanups that fail *)

Section ProjectEdges.
Import KalypsoProjectReconciler.

(** [reconcileNamespace] takes over a namespace that exists already,
    whatever its labels say: without faults it sets the three labels of the
    Project on it, keeps every other label and the rest of the metadata,
    and reports no error. *)
Theorem reconcileNamespace_takes_over project envName nsName w ns0 :
  faults w = [] →
  namespaces w !! ("", nsName) = Some ns0 →
  (DeletionTimestamp (nsMeta ns0) ≠ None → Finalizers (nsMeta ns0) ≠ []) →
  ∃ w' ns,
    reconcileNamespace project envName nsName w = (None, w')
    ∧ namespaces w' !! ("", nsName) = Some ns
    ∧ childLabelsIn (Name (projMeta project)) envName (Labels (nsMeta ns))
    ∧ (∀ k, k ∉ [ProjectLabelKey; EnvironmentLabelKey; ManagedByLabelKey] →
            Labels (nsMeta ns) !! k = Labels (nsMeta ns0) !! k)
    ∧ Finalizers (nsMeta ns) = Finalizers (nsMeta ns0)
    ∧ DeletionTimestamp (nsMeta ns) = DeletionTimestamp (nsMeta ns0)
    ∧ OwnerReferences (nsMeta ns) = OwnerReferences (nsMeta ns0).
Proof.
  intros Hf Hl Hset.
  unfold reconcileNamespace. cbv zeta. unfold mbind, M_bind.
  rewrite Get_nofault by (unfold nextFault; by rewrite Hf).
  change (store w) with (namespaces w). rewrite Hl.
  set (w1 := touch _ w).
  set (o := mkNamespace _).
  erewrite (Update_nofault o w1 ns0).
  2:{ unfold nextFault. subst w1. by rewrite faults_touch, Hf. }
  2:{ subst w1 o. exact Hl. }
  eexists _, o. split; [reflexivity|].
  change (objKey (metaOf o)) with ("", nsName).
  change (onUpdate ns0 o) with o.
  split_and!.
  - unfold put. rewrite bool_decide_eq_false_2.
    + cbn. by rewrite lookup_insert_eq.
    + intros [Hd He]. by apply Hset.
  - apply relabel_in.
  - intros k Hk. subst o. cbn [nsMeta Labels withLabels].
    apply not_elem_of_cons in Hk as [H1 Hk].
    apply not_elem_of_cons in Hk as [H2 Hk].
    apply not_elem_of_cons in Hk as [H3 _].
    by rewrite !lookup_insert_ne.
  - done.
  - done.
  - done.
Qed.

Lemma reconcileNamespace_takes_over_witness :
  let foreign :=
    mkNamespace (mkObjectMeta "demo-dev" "" {[ProjectLabelKey := "other"; "team" := "data"]}
                   [] None []) in
  let w := mkWorld ∅ ∅ ∅ {[("", "demo-dev") := foreign]} ∅ ∅ ∅ ∅ [] [] [] 0%nat in
  let run := reconcileNamespace demoProject "dev" "demo-dev" w in
  run.1 = None
  ∧ ∃ ns, namespaces run.2 !! ("", "demo-dev") = Some ns
          ∧ Labels (nsMeta ns) !! ProjectLabelKey = Some "demo"
          ∧ Labels (nsMeta ns) !! "team" = Some "data".
Proof.
  intros foreign w run.
  destruct (reconcileNamespace_takes_over demoProject "dev" "demo-dev" w foreign)
    as (w' & ns & Hr & Hns & (Hp & _) & Hother & _).
  - reflexivity.
  - vm_compute. reflexivity.
  - intros Hd. by destruct Hd.
  - subst run. rewrite Hr. split; [reflexivity|]. exists ns. split_and!; [done..|].
    rewrite Hother; [vm_compute; reflexivity|].
    rewrite !not_elem_of_cons. split_and!; try discriminate. apply not_elem_of_nil.
Defined.

(** A reconcile of a Project under deletion that returns an error leaves
    every Project as it is: the finalizer stays until the cleanup went
    through. *)
Theorem Project_cleanup_failure_keeps_project range req w p res err w' :
  projects w !! req = Some p →
  DeletionTimestamp (projMeta p) ≠ None →
  Reconcile range req w = ((res, Some err), w') →
  projects w' = projects w.
Proof.
  intros Hp Hdel. unfold Reconcile, mbind, M_bind.
  destruct (Get req w) as [[e|project] w1] eqn:Hg.
  { apply Get_inv in Hg as [-> _]. destruct (IsNotFound e); by intros [= _ _ <-]. }
  apply Get_inv in Hg as [-> Ho]. destruct (Ho _ eq_refl) as (p0 & Hp0 & ->).
  cbn in Hp0. rewrite Hp in Hp0. injection Hp0 as <-.
  change (DeletionTimestamp (projMeta (named req p))) with (DeletionTimestamp (projMeta p)).
  rewrite bool_decide_eq_true_2 by done.
  intros Hr. apply reconcileDelete_inv in Hr as [(e & Hd & _)|(w1 & w2 & e & Hd & Hu & He & _ & _ & ->)].
  - apply deleteNamespaces_frame in Hd as (_ & _ & ->). done.
  - apply deleteNamespaces_frame in Hd as (_ & _ & Hp1).
    injection He as _ <-. apply Update_inv in Hu. cbv zeta in Hu. subst w2.
    cbn. by rewrite Hp1.
Qed.

Lemma Project_cleanup_failure_keeps_project_witness :
  let req := ("kalypso-system", "demo") in
  let deleting :=
    mkKalypsoProject (withDeletionTimestamp (Some 7%nat) (projMeta demoProject))
      (projSpec demoProject) (mkKalypsoProjectStatus "Ready" [] ["demo-dev"]) in
  let w := mkWorld {[req := deleting]} ∅ ∅ ∅ ∅ ∅ ∅ ∅ [None; Some (ErrOther "etcdserver: request timed out")] [] [] 9%nat in
  projects (Reconcile sampleRange req w).2 = projects w.
Proof.
  intros req deleting w.
  refine (Project_cleanup_failure_keeps_project sampleRange req w deleting Result0
            (ErrOther "etcdserver: request timed out")
            (Reconcile sampleRange req w).2 _ _ _).
  - vm_compute. reflexivity.
  - intros Hd. discriminate Hd.
  - vm_compute. reflexivity.
Defined.
End ProjectEdges.

(** * An environment that fails *)

Section ProjectFailure.
Import KalypsoProjectReconciler.

(** What [setFailedStatus] sends, and what it leaves when the write goes
    through. *)
Lemma setFailedStatus_inv project message w :
  let w' := (setFailedStatus project message w).2 in
  ∃ e, calls w' = mkApiCall VStatusUpdate KProject (objKey (projMeta project)) e :: calls w
       ∧ (e = None →
          ∃ p c, projects w' !! objKey (projMeta project) = Some p
                 ∧ projPhase (projStatus p) = ProjectPhaseFailed
                 ∧ FindStatusCondition (projConditions (projStatus p)) "Ready" = Some c
                 ∧ condStatus c = ConditionFalse
                 ∧ condReason c = "ReconciliationFailed"
                 ∧ condMessage c = message).
Proof.
  unfold setFailedStatus, Now, mbind, M_bind. cbv zeta.
  match goal with |- context [StatusUpdate ?x w] => set (o := x) end.
  destruct (StatusUpdate o w) as [e w1] eqn:Hu. cbn [snd].
  apply StatusUpdate_inv in Hu. cbv zeta in Hu.
  change (objKey (metaOf o)) with (objKey (projMeta project)) in Hu.
  exists e. destruct e as [err|].
  - subst w1. split; [done|]. by intros [=].
  - destruct Hu as (old & Hold & ->). split; [done|]. intros _.
    destruct (FindStatusCondition_Set (projConditions (projStatus project))
                (mkCondition "Ready" ConditionFalse "ReconciliationFailed" message (clock w)))
      as (c' & Hfind & Hst & Hre & Hmsg).
    eexists _, c'. split; [cbn; by rewrite lookup_insert_eq|]. by cbn.
Qed.

(** A loop that stops early returns the error of the step that failed,
    after [setFailedStatus] sent the last request of the run. *)
Lemma reconcileEnvironments_failure project envs created w ret w' :
  reconcileEnvironments project envs created w = (inl ret, w') →
  ∃ err e env what,
    env ∈ envs
    ∧ what ∈ ["namespace "; "ResourceQuota in "; "LimitRange in "]
    ∧ ret = (Result0, Some err)
    ∧ head (calls w') = Some (mkApiCall VStatusUpdate KProject (objKey (projMeta project)) e)
    ∧ (e = None →
       ∃ p c, projects w' !! objKey (projMeta project) = Some p
              ∧ projPhase (projStatus p) = ProjectPhaseFailed
              ∧ FindStatusCondition (projConditions (projStatus p)) "Ready" = Some c
              ∧ condStatus c = ConditionFalse
              ∧ condReason c = "ReconciliationFailed"
              ∧ condMessage c =
                  "Failed to create " +:+ what +:+ nsNameOf (Name (projMeta project)) env
                    +:+ ": " +:+ Error err).
Proof.
  revert created w. induction envs as [|[envName envSpec] rest IH]; intros created w.
  { by intros [=]. }
  rewrite reconcileEnvironments_cons. cbv zeta. unfold mbind, M_bind.
  change (if bool_decide (envNamespace envSpec = "") then _ else _)
    with (nsNameOf (Name (projMeta project)) (envName, envSpec)).
  set (nsName := nsNameOf _ _).
  assert (Hfail : ∀ what err w0 w1,
    what ∈ ["namespace "; "ResourceQuota in "; "LimitRange in "] →
    (setFailedStatus project
       ("Failed to create " +:+ what +:+ nsName +:+ ": " +:+ Error err) w0).2 = w1 →
    ∃ err0 e env what0,
      env ∈ (envName, envSpec) :: rest
      ∧ what0 ∈ ["namespace "; "ResourceQuota in "; "LimitRange in "]
      ∧ (Result0, Some err) = (Result0, Some err0)
      ∧ head (calls w1)
        = Some (mkApiCall VStatusUpdate KProject (objKey (projMeta project)) e)
      ∧ (e = None →
         ∃ p c, projects w1 !! objKey (projMeta project) = Some p
                ∧ projPhase (projStatus p) = ProjectPhaseFailed
                ∧ FindStatusCondition (projConditions (projStatus p)) "Ready" = Some c
                ∧ condStatus c = ConditionFalse
                ∧ condReason c = "ReconciliationFailed"
                ∧ condMessage c =
                    "Failed to create " +:+ what0 +:+ nsNameOf (Name (projMeta project)) env
                      +:+ ": " +:+ Error err0)).
  { intros what err w0 w1 Hwhat <-.
    destruct (setFailedStatus_inv project
                ("Failed to create " +:+ what +:+ nsName +:+ ": " +:+ Error err) w0)
      as (e & Hc & Hp).
    exists err, e, (envName, envSpec), what.
    split_and!; [apply list_elem_of_here|done|done|by rewrite Hc|done]. }
  destruct (reconcileNamespace _ _ _ w) as [[err|] w1].
  { unfold logError.
    destruct (setFailedStatus project _ _) as [[] w2] eqn:Hs. intros [= <- <-].
    eapply (Hfail "namespace "); [apply list_elem_of_here|]. exact (f_equal snd Hs). }
  set (quotaStep := match envResourceQuota envSpec with
                    | Some quotaSpec =>
                        reconcileResourceQuota project envName nsName quotaSpec
                    | None => mret None
                    end).
  destruct (quotaStep w1) as [[err|] w2].
  { unfold logError.
    destruct (setFailedStatus project _ _) as [[] w3] eqn:Hs. intros [= <- <-].
    eapply (Hfail "ResourceQuota in ");
      [apply list_elem_of_further, list_elem_of_here|]. exact (f_equal snd Hs). }
  set (limitStep := match envLimitRange envSpec with
                    | Some limitSpec =>
                        reconcileLimitRange project envName nsName limitSpec
                    | None => mret None
                    end).
  destruct (limitStep w2) as [[err|] w3].
  { unfold logError.
    destruct (setFailedStatus project _ _) as [[] w4] eqn:Hs. intros [= <- <-].
    eapply (Hfail "LimitRange in ");
      [do 2 apply list_elem_of_further; apply list_elem_of_here|]. exact (f_equal snd Hs). }
  intros Hrest. apply IH in Hrest as (err & e & env & what & Hin & Hrest).
  exists err, e, env, what. split; [by apply list_elem_of_further|done].
Qed.

(** When the reconcile of a namespace, quota or limit range fails, the
    Project reconcile stops there and returns that error; the last
    request it sends is the status write of [setFailedStatus], and when
    that write goes through the Project is left in phase Failed with the
    condition Ready false, its message naming the namespace and the
    error. *)
Theorem Project_environment_failure range req w project w1 ret w' :
  Get req w = (inr project, w1) →
  DeletionTimestamp (projMeta project) = None →
  FinalizerName ∈ Finalizers (projMeta project) →
  projPhase (projStatus project) ≠ "" →
  reconcileEnvironments project (range (projEnvironments (projSpec project))) [] w1
    = (inl ret, w') →
  Reconcile range req w = (ret, w')
  ∧ ∃ err e env what,
      env ∈ range (projEnvironments (projSpec project))
      ∧ what ∈ ["namespace "; "ResourceQuota in "; "LimitRange in "]
      ∧ ret = (Result0, Some err)
      ∧ head (calls w') = Some (mkApiCall VStatusUpdate KProject req e)
      ∧ (e = None →
         ∃ p c, projects w' !! req = Some p
                ∧ projPhase (projStatus p) = ProjectPhaseFailed
                ∧ FindStatusCondition (projConditions (projStatus p)) "Ready" = Some c
                ∧ condStatus c = ConditionFalse
                ∧ condReason c = "ReconciliationFailed"
                ∧ condMessage c =
                    "Failed to create " +:+ what +:+ nsNameOf req.2 env
                      +:+ ": " +:+ Error err).
Proof.
  intros Hg Hdel Hfin Hph Hloop. split.
  - unfold Reconcile, mbind, M_bind. rewrite Hg.
    rewrite bool_decide_eq_false_2 by (by rewrite Hdel; intros ?).
    unfold ContainsFinalizer. rewrite (bool_decide_eq_true_2 _ Hfin). cbn [negb].
    rewrite bool_decide_eq_false_2 by done. by rewrite Hloop.
  - assert (Hk : objKey (projMeta project) = req).
    { apply (Get_key (A := KalypsoProject)) in Hg; [done|]. by intros m o. }
    assert (Hn : Name (projMeta project) = req.2) by (by rewrite <- Hk).
    apply reconcileEnvironments_failure in Hloop. by rewrite Hk, Hn in Hloop.
Qed.

Lemma Project_environment_failure_witness :
  let req := ("kalypso-system", "demo") in
  let w := demoWorld [None; Some (ErrOther "etcdserver: request timed out")] in
  (Reconcile sampleRange req w).1 = (Result0, Some (ErrOther "etcdserver: request timed out")).
Proof.
  intros req w.
  destruct (Project_environment_failure sampleRange req w
              (named req demoProject) (Get (A := KalypsoProject) req w).2
              (Reconcile sampleRange req w).1 (Reconcile sampleRange req w).2)
    as [Hr _].
  - vm_compute. reflexivity.
  - reflexivity.
  - apply list_elem_of_here.
  - discriminate.
  - vm_compute. reflexivity.
  - vm_compute. reflexivity.
Defined.
End ProjectFailure.

(** * The status an Application publishes *)

Section ApplicationStatus.
Import KalypsoApplicationReconciler.

Lemma List_nofault {A} `{Object A} ns w :
  nextFault w = None →
  List_ (A := A) ns w =
    (inr ((λ kv, named kv.1 kv.2) <$> filter (λ kv, kv.1.1 = ns) (map_to_list (store w))),
     touch (mkApiCall VList kindOf (ns, "") None) w).
Proof.
  intros Hn. unfold List_. rewrite request_nofault by done. by rewrite store_setFaults.
Qed.

Lemma countRefs_length name (l : list (Key * KalypsoTritonServer)) count :
  countRefs name ((λ kv, named kv.1 kv.2) <$> l) count
  = count + Z.of_nat (length (filter (λ kv, srvApplicationRef (srvSpec kv.2) = name) l)).
Proof.
  revert count. induction l as [|[k s] l IH]; intros count; [cbn; lia|].
  rewrite fmap_cons. cbn [countRefs]. rewrite IH, filter_cons. cbn [fst snd].
  change (srvApplicationRef (srvSpec (named k s))) with (srvApplicationRef (srvSpec s)).
  destruct (decide (srvApplicationRef (srvSpec s) = name)) as [Heq|Hne].
  - rewrite bool_decide_eq_true_2 by done. cbn [length]. lia.
  - rewrite bool_decide_eq_false_2 by done. lia.
Qed.

(** Without a fault, [countActiveTritonServers] returns the number of
    stored Servers of the namespace of the Application whose
    [applicationRef] is the name of the Application, and no error. *)
Theorem countActiveTritonServers_counts app w :
  nextFault w = None →
  (countActiveTritonServers app w).1
  = (Z.of_nat (length (filter
                 (λ kv, srvApplicationRef (srvSpec kv.2) = Name (appMeta app)
                        ∧ kv.1.1 = Namespace (appMeta app))
                 (map_to_list (servers w)))),
     None).
Proof.
  intros Hn. unfold countActiveTritonServers, mbind, M_bind.
  rewrite List_nofault by done. cbn [fst mret M_ret].
  rewrite countRefs_length. by rewrite list_filter_filter.
Qed.

Lemma countActiveTritonServers_counts_witness :
  let other :=
    mkKalypsoTritonServer (mkObjectMeta "recommendation-v1" "staging" ∅ [] None [])
      (srvSpec sampleServer) (srvStatus sampleServer) in
  let w := mkWorld ∅ ∅ {[("kalypso-system", "recommendation-v1") := sampleServer;
                         ("staging", "recommendation-v1") := other]}
             ∅ ∅ ∅ ∅ ∅ [] [] [] 0%nat in
  (countActiveTritonServers countedApplication w).1 = (1, None).
Proof.
  intros other w. rewrite (countActiveTritonServers_counts countedApplication w).
  - vm_compute. reflexivity.
  - reflexivity.
Defined.

Lemma nextFault_nil w : faults w = [] → nextFault w = None.
Proof. unfold nextFault. by intros ->. Qed.

(** Without faults, the reconcile of a live Application that holds its
    finalizer and a phase, and whose Project is Ready, succeeds: it stores
    phase Ready, the number of Servers of the namespace that refer to the
    Application as [ActiveModels], the gateway endpoint
    [http://istio-gateway.istio-system.svc/<name>], and the conditions
    ProjectReady and Ready true; nothing else in the cluster changes. *)
Theorem Application_publishes_count req w a p :
  faults w = [] →
  applications w !! req = Some a →
  DeletionTimestamp (appMeta a) = None →
  ApplicationFinalizerName ∈ Finalizers (appMeta a) →
  appPhase (appStatus a) ≠ "" →
  projects w !! (req.1, appProjectRef (appSpec a)) = Some p →
  projPhase (projStatus p) = ProjectPhaseReady →
  ∃ w' a' c1 c2,
    Reconcile req w = ((Result0, None), w')
    ∧ applications w' = <[req := a']> (applications w)
    ∧ appMeta a' = appMeta a ∧ appSpec a' = appSpec a
    ∧ appPhase (appStatus a') = ApplicationPhaseReady
    ∧ appActiveModels (appStatus a')
      = Z.of_nat (length (filter
                    (λ kv, srvApplicationRef (srvSpec kv.2) = req.2 ∧ kv.1.1 = req.1)
                    (map_to_list (servers w))))
    ∧ appGatewayEndpoint (appStatus a') = "http://istio-gateway.istio-system.svc/" +:+ req.2
    ∧ FindStatusCondition (appConditions (appStatus a')) "ProjectReady" = Some c1
    ∧ condStatus c1 = ConditionTrue
    ∧ FindStatusCondition (appConditions (appStatus a')) "Ready" = Some c2
    ∧ condStatus c2 = ConditionTrue
    ∧ projects w' = projects w ∧ servers w' = servers w
    ∧ namespaces w' = namespaces w ∧ quotas w' = quotas w
    ∧ limitRanges w' = limitRanges w
    ∧ deployments w' = deployments w ∧ services w' = services w.
Proof.
  intros Hf Ha Hdel Hfin Hph Hp Hready. destruct req as [ns name].
  unfold Reconcile, mbind, M_bind.
  rewrite Get_nofault by (by apply nextFault_nil).
  change (store w) with (applications w). rewrite Ha.
  set (app := named (ns, name) a). set (w1 := touch _ w).
  change (DeletionTimestamp (appMeta app)) with (DeletionTimestamp (appMeta a)).
  rewrite bool_decide_eq_false_2 by (by rewrite Hdel; intros ?).
  unfold ContainsFinalizer.
  change (Finalizers (appMeta app)) with (Finalizers (appMeta a)).
  rewrite (bool_decide_eq_true_2 _ Hfin). cbn [negb].
  change (appPhase (appStatus app)) with (appPhase (appStatus a)).
  rewrite (bool_decide_eq_false_2 _ Hph).
  change (Namespace (appMeta app)) with ns.
  change (appProjectRef (appSpec app)) with (appProjectRef (appSpec a)).
  assert (Hf1 : faults w1 = []) by (subst w1; by rewrite faults_touch, Hf).
  rewrite (Get_nofault (A := KalypsoProject)) by (by apply nextFault_nil).
  change (store w1) with (projects w). cbn [fst] in Hp. rewrite Hp.
  set (w2 := touch _ w1).
  change (projPhase (projStatus (named _ p))) with (projPhase (projStatus p)).
  rewrite bool_decide_eq_false_2 by (by intros ?).
  assert (Hf2 : faults w2 = []) by (subst w2; by rewrite faults_touch, Hf1).
  pose proof (countActiveTritonServers_counts app w2 (nextFault_nil _ Hf2)) as Hcount.
  unfold countActiveTritonServers, mbind, M_bind in Hcount |- *.
  rewrite List_nofault in Hcount |- * by (by apply nextFault_nil).
  cbn [mret M_ret fst] in Hcount |- *. injection Hcount as Hcount.
  set (count := countRefs _ _ _) in *.
  set (w3 := touch _ w2).
  assert (Hf3 : faults w3 = []) by (subst w3; by rewrite faults_touch, Hf2).
  rewrite Get_nofault by (by apply nextFault_nil).
  change (store w3) with (applications w). rewrite Ha. fold app.
  set (w4 := touch _ w3). unfold Now. cbv zeta.
  assert (Hf4 : faults w4 = []) by (subst w4; by rewrite faults_touch, Hf3).
  erewrite (StatusUpdate_nofault (A := KalypsoApplication));
    [|by apply nextFault_nil|exact Ha].
  set (c1 := mkCondition "ProjectReady" _ _ _ _).
  set (c2 := mkCondition "Ready" _ _ _ _).
  destruct (FindStatusCondition_Set
              (SetStatusCondition (appConditions (appStatus a)) c1) c2)
    as (c2' & Hfind2 & Hst2 & _).
  destruct (FindStatusCondition_Set (appConditions (appStatus a)) c1)
    as (c1' & Hfind1 & Hst1 & _).
  cbn [mret M_ret]. unfold logInfo.
  eexists _, _, c1', c2'. split; [reflexivity|].
  split_and!; try done.
  change (FindStatusCondition
            (SetStatusCondition (SetStatusCondition (appConditions (appStatus a)) c1) c2)
            "ProjectReady" = Some c1').
  rewrite FindStatusCondition_Set_ne by done. exact Hfind1.
Qed.

Lemma Application_publishes_count_witness :
  let req := ("kalypso-system", "recommendation-application") in
  let w := applicationWorld true [] in
  (appActiveModels ∘ appStatus) <$> applications w !! req = Some 3
  ∧ (appActiveModels ∘ appStatus) <$> applications (Reconcile req w).2 !! req = Some 0.
Proof.
  intros req w. split; [vm_compute; reflexivity|].
  destruct (Application_publishes_count req w countedApplication readyProject)
    as (w' & a' & c1 & c2 & Hr & Ha & _ & _ & _ & Hcount & _).
  - reflexivity.
  - vm_compute. reflexivity.
  - reflexivity.
  - apply list_elem_of_here.
  - discriminate.
  - vm_compute. reflexivity.
  - reflexivity.
  - rewrite Hr. cbn [snd]. rewrite Ha, lookup_insert_eq. cbn. f_equal.
    rewrite Hcount. vm_compute. reflexivity.
Defined.

(** Without faults, the reconcile of a live Application whose Project
    exists but is not Ready asks to be run again after ten seconds, with
    no error; it stores the condition ProjectReady false, naming the
    phase of the Project, and leaves phase, [ActiveModels] and the
    endpoint of the Application as they are. *)
Theorem Application_waits_for_project req w a p :
  faults w = [] →
  applications w !! req = Some a →
  DeletionTimestamp (appMeta a) = None →
  ApplicationFinalizerName ∈ Finalizers (appMeta a) →
  appPhase (appStatus a) ≠ "" →
  projects w !! (req.1, appProjectRef (appSpec a)) = Some p →
  projPhase (projStatus p) ≠ ProjectPhaseReady →
  ∃ w' a' c,
    Reconcile req w = ((mkResult false 10000000000, None), w')
    ∧ applications w' = <[req := a']> (applications w)
    ∧ appMeta a' = appMeta a ∧ appSpec a' = appSpec a
    ∧ appPhase (appStatus a') = appPhase (appStatus a)
    ∧ appActiveModels (appStatus a') = appActiveModels (appStatus a)
    ∧ appGatewayEndpoint (appStatus a') = appGatewayEndpoint (appStatus a)
    ∧ FindStatusCondition (appConditions (appStatus a')) "ProjectReady" = Some c
    ∧ condStatus c = ConditionFalse
    ∧ condReason c = "ProjectNotReady"
    ∧ condMessage c = "KalypsoProject '" +:+ appProjectRef (appSpec a)
                        +:+ "' is in phase: " +:+ projPhase (projStatus p).
Proof.
  intros Hf Ha Hdel Hfin Hph Hp Hnr. destruct req as [ns name].
  unfold Reconcile, mbind, M_bind.
  rewrite Get_nofault by (by apply nextFault_nil).
  change (store w) with (applications w). rewrite Ha.
  set (app := named (ns, name) a). set (w1 := touch _ w).
  change (DeletionTimestamp (appMeta app)) with (DeletionTimestamp (appMeta a)).
  rewrite bool_decide_eq_false_2 by (by rewrite Hdel; intros ?).
  unfold ContainsFinalizer.
  change (Finalizers (appMeta app)) with (Finalizers (appMeta a)).
  rewrite (bool_decide_eq_true_2 _ Hfin). cbn [negb].
  change (appPhase (appStatus app)) with (appPhase (appStatus a)).
  rewrite (bool_decide_eq_false_2 _ Hph).
  change (Namespace (appMeta app)) with ns.
  change (appProjectRef (appSpec app)) with (appProjectRef (appSpec a)).
  assert (Hf1 : faults w1 = []) by (subst w1; by rewrite faults_touch, Hf).
  rewrite (Get_nofault (A := KalypsoProject)) by (by apply nextFault_nil).
  change (store w1) with (projects w). cbn [fst] in Hp. rewrite Hp.
  set (w2 := touch _ w1).
  change (projPhase (projStatus (named _ p))) with (projPhase (projStatus p)).
  rewrite (bool_decide_eq_true_2 _ Hnr). unfold logInfo.
  set (w3 := writeLog _ w2).
  assert (Hf3 : faults w3 = []).
  { change (faults w3) with (tail (faults w1)). by rewrite Hf1. }
  rewrite Get_nofault by (by apply nextFault_nil).
  change (store w3) with (applications w). rewrite Ha. fold app.
  set (w4 := touch _ w3). unfold Now. cbv zeta.
  assert (Hf4 : faults w4 = []) by (subst w4; by rewrite faults_touch, Hf3).
  erewrite (StatusUpdate_nofault (A := KalypsoApplication));
    [|by apply nextFault_nil|exact Ha].
  set (c := mkCondition "ProjectReady" _ _ _ _).
  destruct (FindStatusCondition_Set (appConditions (appStatus a)) c)
    as (c' & Hfind & Hst & Hre & Hmsg).
  cbn [mret M_ret].
  eexists _, _, c'. split; [reflexivity|]. by split_and!.
Qed.

Lemma Application_waits_for_project_witness :
  let req := ("kalypso-system", "recommendation-application") in
  let w := mkWorld {[("kalypso-system", "sample-project") := demoProject]}
             {[req := countedApplication]} ∅ ∅ ∅ ∅ ∅ ∅ [] [] [] 0%nat in
  (Reconcile req w).1 = (mkResult false 10000000000, None).
Proof.
  intros req w.
  destruct (Application_waits_for_project req w countedApplication demoProject)
    as (w' & a' & c & Hr & _).
  - reflexivity.
  - vm_compute. reflexivity.
  - reflexivity.
  - apply list_elem_of_here.
  - discriminate.
  - vm_compute. reflexivity.
  - discriminate.
  - by rewrite Hr.
Defined.
End ApplicationStatus.

(** * A Server that cannot be served *)

Section ServerFailures.
Import KalypsoTritonServerReconciler.

(** What [setFailedStatus] of the Server reconciler sends, and what it
    leaves when the write goes through. *)
Lemma setFailedStatus_server_inv server message w :
  let w' := (setFailedStatus server message w).2 in
  ∃ e, w' = (StatusUpdate (withStatus
               (mkKalypsoTritonServerStatus TritonServerPhaseFailed
                  (srvDeploymentName (srvStatus server))
                  (srvServiceEndpoint (srvStatus server))
                  (srvAvailableReplicas (srvStatus server)) message
                  (SetStatusCondition (srvConditions (srvStatus server))
                     (mkCondition "Available" ConditionFalse "ReconciliationFailed" message
                        (clock w)))) server) w).2
       ∧ calls w' = mkApiCall VStatusUpdate KTritonServer (objKey (srvMeta server)) e
                      :: calls w
       ∧ deployments w' = deployments w ∧ services w' = services w
       ∧ applications w' = applications w
       ∧ (e = None →
          ∃ a c, servers w' !! objKey (srvMeta server) = Some a
                 ∧ srvPhase (srvStatus a) = TritonServerPhaseFailed
                 ∧ srvMessage (srvStatus a) = message
                 ∧ FindStatusCondition (srvConditions (srvStatus a)) "Available" = Some c
                 ∧ condStatus c = ConditionFalse
                 ∧ condReason c = "ReconciliationFailed"
                 ∧ condMessage c = message).
Proof.
  unfold setFailedStatus, Now, mbind, M_bind. cbv zeta.
  match goal with |- context [StatusUpdate ?x w] => set (o := x) end.
  destruct (StatusUpdate o w) as [e w1] eqn:Hu. cbn [snd].
  apply StatusUpdate_inv in Hu. cbv zeta in Hu.
  change (objKey (metaOf o)) with (objKey (srvMeta server)) in Hu.
  exists e. split; [done|]. destruct e as [err|].
  - subst w1. by split_and!.
  - destruct Hu as (old & Hold & ->). split_and!; try done. intros _.
    destruct (FindStatusCondition_Set (srvConditions (srvStatus server))
                (mkCondition "Available" ConditionFalse "ReconciliationFailed" message
                   (clock w)))
      as (c' & Hfind & Hst & Hre & Hmsg).
    eexists _, c'. split; [cbn; by rewrite lookup_insert_eq|]. by cbn.
Qed.

(** Without faults, the reconcile of a live Server whose Application is
    not in its namespace creates neither Deployment nor Service: it stores
    phase Failed with a message naming the Application and asks to be run
    again after thirty seconds, with no error. *)
Theorem Server_waits_for_application req w a :
  faults w = [] →
  servers w !! req = Some a →
  DeletionTimestamp (srvMeta a) = None →
  TritonServerFinalizerName ∈ Finalizers (srvMeta a) →
  srvPhase (srvStatus a) ≠ "" →
  applications w !! (req.1, srvApplicationRef (srvSpec a)) = None →
  ∃ w' a' c,
    Reconcile req w = ((mkResult false 30000000000, None), w')
    ∧ servers w' = <[req := a']> (servers w)
    ∧ srvMeta a' = srvMeta a ∧ srvSpec a' = srvSpec a
    ∧ srvPhase (srvStatus a') = TritonServerPhaseFailed
    ∧ srvMessage (srvStatus a')
      = "KalypsoApplication '" +:+ srvApplicationRef (srvSpec a) +:+ "' not found"
    ∧ FindStatusCondition (srvConditions (srvStatus a')) "Available" = Some c
    ∧ condStatus c = ConditionFalse
    ∧ deployments w' = deployments w ∧ services w' = services w
    ∧ Forall (λ c, isChild (callKind c) = false) (runCalls w w').
Proof.
  intros Hf Ha Hdel Hfin Hph Happ. destruct req as [ns name].
  unfold Reconcile, mbind, M_bind.
  rewrite Get_nofault by (by apply nextFault_nil).
  change (store w) with (servers w). rewrite Ha.
  set (server := named (ns, name) a). set (w1 := touch _ w).
  change (DeletionTimestamp (srvMeta server)) with (DeletionTimestamp (srvMeta a)).
  rewrite bool_decide_eq_false_2 by (by rewrite Hdel; intros ?).
  unfold ContainsFinalizer.
  change (Finalizers (srvMeta server)) with (Finalizers (srvMeta a)).
  rewrite (bool_decide_eq_true_2 _ Hfin). cbn [negb].
  change (srvPhase (srvStatus server)) with (srvPhase (srvStatus a)).
  rewrite (bool_decide_eq_false_2 _ Hph).
  change (Namespace (srvMeta server)) with ns.
  change (srvApplicationRef (srvSpec server)) with (srvApplicationRef (srvSpec a)).
  assert (Hf1 : faults w1 = []) by (subst w1; by rewrite faults_touch, Hf).
  rewrite (Get_nofault (A := KalypsoApplication)) by (by apply nextFault_nil).
  change (store w1) with (applications w). cbn [fst] in Happ. rewrite Happ.
  change (IsNotFound ErrNotFound) with true. cbv iota.
  set (w2 := touch _ w1). unfold logError.
  set (w3 := writeLog _ w2).
  assert (Hf3 : faults w3 = []).
  { change (faults w3) with (tail (faults w1)). by rewrite Hf1. }
  unfold setFailedStatus, Now, mbind, M_bind. cbv zeta.
  erewrite (StatusUpdate_nofault (A := KalypsoTritonServer));
    [|by apply nextFault_nil|exact Ha].
  set (c := mkCondition "Available" _ _ _ _).
  destruct (FindStatusCondition_Set (srvConditions (srvStatus a)) c)
    as (c' & Hfind & Hst & _).
  cbn [mret M_ret].
  eexists _, _, c'. split; [reflexivity|]. split_and!; try done.
  erewrite runCalls_app.
  2:{ cbn. instantiate (1 := [_; _; _]). reflexivity. }
  by repeat constructor.
Qed.

Lemma Server_waits_for_application_witness :
  let req := ("kalypso-system", "recommendation-v1") in
  let w := mkWorld ∅ ∅ {[req := sampleServer]} ∅ ∅ ∅ ∅ ∅ [] [] [] 0%nat in
  (Reconcile req w).1 = (mkResult false 30000000000, None)
  ∧ deployments (Reconcile req w).2 = ∅.
Proof.
  intros req w.
  destruct (Server_waits_for_application req w sampleServer)
    as (w' & a' & c & Hr & _ & _ & _ & _ & _ & _ & _ & Hd & _).
  - reflexivity.
  - vm_compute. reflexivity.
  - reflexivity.
  - apply list_elem_of_here.
  - discriminate.
  - vm_compute. reflexivity.
  - rewrite Hr. by split.
Defined.

(** When [reconcileDeployment] fails, the Server reconcile returns its
    error and stops before the Service: no request for a Service is sent
    and the stored Services are as they were.  The last request is the
    status write of [setFailedStatus]; when it goes through the Server is
    left in phase Failed, its message carrying the error. *)
Theorem Server_deployment_failure req w server w1 app w2 err w3 :
  Get req w = (inr server, w1) →
  DeletionTimestamp (srvMeta server) = None →
  TritonServerFinalizerName ∈ Finalizers (srvMeta server) →
  srvPhase (srvStatus server) ≠ "" →
  Get (A := KalypsoApplication)
    (Namespace (srvMeta server), srvApplicationRef (srvSpec server)) w1 = (inr app, w2) →
  reconcileDeployment server app (Name (srvMeta server) +:+ "-deploy") w2 = (Some err, w3) →
  ∃ w' e,
    Reconcile req w = ((Result0, Some err), w')
    ∧ calls w' = mkApiCall VStatusUpdate KTritonServer req e :: calls w3
    ∧ services w' = services w
    ∧ Forall (λ c, callKind c ≠ KService) (runCalls w w')
    ∧ (e = None →
       ∃ a c, servers w' !! req = Some a
              ∧ srvPhase (srvStatus a) = TritonServerPhaseFailed
              ∧ srvMessage (srvStatus a) = "Failed to reconcile Deployment: " +:+ Error err
              ∧ FindStatusCondition (srvConditions (srvStatus a)) "Available" = Some c
              ∧ condStatus c = ConditionFalse
              ∧ condReason c = "ReconciliationFailed").
Proof.
  intros Hg Hdel Hfin Hph Hga Hd.
  assert (Hk : objKey (srvMeta server) = req).
  { apply (Get_key (A := KalypsoTritonServer)) in Hg; [done|]. by intros m o. }
  set (w4 := writeLog (LogError "Failed to reconcile Deployment") w3).
  destruct (setFailedStatus_server_inv server
              ("Failed to reconcile Deployment: " +:+ Error err) w4)
    as (e & _ & Hc & _ & Hsv & _ & Hst).
  cbv zeta in Hc, Hsv, Hst. rewrite Hk in Hc, Hst.
  exists (setFailedStatus server ("Failed to reconcile Deployment: " +:+ Error err) w4).2, e.
  split_and!.
  - unfold Reconcile, mbind, M_bind. rewrite Hg.
    rewrite bool_decide_eq_false_2 by (by rewrite Hdel; intros ?).
    unfold ContainsFinalizer. rewrite (bool_decide_eq_true_2 _ Hfin). cbn [negb].
    rewrite (bool_decide_eq_false_2 _ Hph). rewrite Hga. cbv zeta. rewrite Hd.
    unfold logError. fold w4.
    destruct (setFailedStatus server _ w4) as [[] w5]. reflexivity.
  - exact Hc.
  - rewrite Hsv.
    pose proof (Get_frame (A := KalypsoTritonServer) req w) as [H1 _].
    pose proof (Get_frame (A := KalypsoApplication)
                  (Namespace (srvMeta server), srvApplicationRef (srvSpec server)) w1)
      as [H2 _].
    pose proof (CreateOrUpdate_frame
                  (mkDeployment
                     (emptyMeta (Namespace (srvMeta server)) (Name (srvMeta server) +:+ "-deploy"))
                     None None (mkPodTemplateSpec ∅ ∅ []) 0)
                  (mutateDeployment server app) w2) as [H3 _].
    change (CreateOrUpdate _ _ w2)
      with (reconcileDeployment server app (Name (srvMeta server) +:+ "-deploy") w2) in H3.
    rewrite Hg in H1. rewrite Hga in H2. rewrite Hd in H3. cbn [snd] in *.
    apply (f_equal services) in H1, H2, H3. cbn in H1, H2, H3.
    change (services w4) with (services w3). congruence.
  - assert (Hrun : ∃ run, calls w3 = (run ++ calls w)%list
                          ∧ Forall (λ c, callKind c ≠ KService) run).
    { apply Get_inv in Hg as [-> _]. apply Get_inv in Hga as [-> _].
      assert (Hs : sends (λ c, callKind c = KDeployment)
                     (reconcileDeployment server app (Name (srvMeta server) +:+ "-deploy"))
                     (λ _, True)).
      { apply sends_CreateOrUpdate; [done| |done].
        intros o o' Ho. by apply mutateDeployment_inv in Ho as [? _]. }
      match type of Hd with reconcileDeployment _ _ _ ?x = _ =>
        destruct (Hs x) as [(run & Hrun & Hall) _] end.
      rewrite Hd in Hrun. cbn [snd] in Hrun.
      eexists (run ++ [_; _])%list. split.
      - rewrite Hrun. cbn. rewrite <- app_assoc. reflexivity.
      - apply Forall_app. split.
        + eapply Forall_impl; [exact Hall|]. intros c ->. done.
        + by repeat constructor. }
    destruct Hrun as (run & Hc3 & Hall).
    erewrite runCalls_app.
    2:{ rewrite Hc. change (calls w4) with (calls w3). rewrite Hc3.
        instantiate (1 := (_ :: run)%list). reflexivity. }
    by constructor.
  - intros He. destruct (Hst He) as (a & c & Ha & Hp & Hm & Hf & Hs & Hr & _).
    by exists a, c.
Qed.

Lemma Server_deployment_failure_witness :
  let req := ("kalypso-system", "recommendation-v1") in
  let w := serverWorld sampleServer [None; None; Some (ErrOther "connection refused")] in
  (Reconcile req w).1 = (Result0, Some (ErrOther "connection refused"))
  ∧ services (Reconcile req w).2 = ∅.
Proof.
  intros req w.
  pose (w1 := (Get (A := KalypsoTritonServer) req w).2).
  pose (w2 := (Get (A := KalypsoApplication)
                 ("kalypso-system", "recommendation-application") w1).2).
  destruct (Server_deployment_failure req w (named req sampleServer) w1
              (named ("kalypso-system", "recommendation-application") countedApplication) w2
              (ErrOther "connection refused")
              (reconcileDeployment (named req sampleServer)
                 (named ("kalypso-system", "recommendation-application") countedApplication)
                 "recommendation-v1-deploy" w2).2)
    as (w' & e & Hr & _ & Hs & _).
  - vm_compute. reflexivity.
  - reflexivity.
  - apply list_elem_of_here.
  - discriminate.
  - vm_compute. reflexivity.
  - vm_compute. reflexivity.
  - rewrite Hr. by split.
Defined.
End ServerFailures.

(** * The finalizer: first and last reconcile *)

Section Finalizers.

(** Without faults, the reconcile of a Server (of an Application) that is
    being deleted removes the finalizer of the controller with one update
    and succeeds.  When no other finalizer is left the object is gone from
    the cluster, otherwise it stays with the remaining finalizers.  The
    Deployments and Services are not touched: they are left to the garbage
    collector. *)
Theorem deletion_releases req w :
  faults w = [] →
  (∀ a, servers w !! req = Some a →
        DeletionTimestamp (srvMeta a) ≠ None →
        let rest := filter (λ g, g ≠ KalypsoTritonServerReconciler.TritonServerFinalizerName)
                      (Finalizers (srvMeta a)) in
        ∃ w', KalypsoTritonServerReconciler.Reconcile req w = ((Result0, None), w')
              ∧ (rest = [] → servers w' = delete req (servers w))
              ∧ (rest ≠ [] →
                 ∃ a', servers w' = <[req := a']> (servers w)
                       ∧ Finalizers (srvMeta a') = rest
                       ∧ srvSpec a' = srvSpec a ∧ srvStatus a' = srvStatus a)
              ∧ deployments w' = deployments w ∧ services w' = services w
              ∧ runCalls w w' = [mkApiCall VUpdate KTritonServer req None;
                                 mkApiCall VGet KTritonServer req None])
  ∧ (∀ a, applications w !! req = Some a →
          DeletionTimestamp (appMeta a) ≠ None →
          let rest := filter (λ g, g ≠ KalypsoApplicationReconciler.ApplicationFinalizerName)
                        (Finalizers (appMeta a)) in
          ∃ w', KalypsoApplicationReconciler.Reconcile req w = ((Result0, None), w')
                ∧ (rest = [] → applications w' = delete req (applications w))
                ∧ (rest ≠ [] →
                   ∃ a', applications w' = <[req := a']> (applications w)
                         ∧ Finalizers (appMeta a') = rest
                         ∧ appSpec a' = appSpec a ∧ appStatus a' = appStatus a)
                ∧ servers w' = servers w
                ∧ runCalls w w' = [mkApiCall VUpdate KApplication req None;
                                   mkApiCall VGet KApplication req None]).
Proof.
  intros Hf. destruct req as [ns name]. split.
  - intros a Ha Hdel rest.
    unfold KalypsoTritonServerReconciler.Reconcile, mbind, M_bind.
    rewrite Get_nofault by (by apply nextFault_nil).
    change (store w) with (servers w). rewrite Ha.
    set (server := named (ns, name) a). set (w1 := touch _ w).
    change (DeletionTimestamp (srvMeta server)) with (DeletionTimestamp (srvMeta a)).
    rewrite (bool_decide_eq_true_2 _ Hdel).
    unfold KalypsoTritonServerReconciler.reconcileDelete, mbind, M_bind.
    assert (Hf1 : faults w1 = []) by (subst w1; by rewrite faults_touch, Hf).
    erewrite (Update_nofault (A := KalypsoTritonServer));
      [|by apply nextFault_nil|exact Ha].
    change (objKey (metaOf _)) with (ns, name).
    eexists. split; [reflexivity|]. unfold logInfo, put.
    change (Finalizers (metaOf (onUpdate a _))) with rest.
    change (DeletionTimestamp (metaOf (onUpdate a _))) with (DeletionTimestamp (srvMeta a)).
    split_and!.
    + intros Hrest. rewrite bool_decide_eq_true_2 by done. reflexivity.
    + intros Hrest. rewrite bool_decide_eq_false_2 by (by intros [_ ?]).
      eexists. split; [reflexivity|]. done.
    + by case_bool_decide.
    + by case_bool_decide.
    + erewrite runCalls_app; [reflexivity|].
      by case_bool_decide.
  - intros a Ha Hdel rest.
    unfold KalypsoApplicationReconciler.Reconcile, mbind, M_bind.
    rewrite Get_nofault by (by apply nextFault_nil).
    change (store w) with (applications w). rewrite Ha.
    set (app := named (ns, name) a). set (w1 := touch _ w).
    change (DeletionTimestamp (appMeta app)) with (DeletionTimestamp (appMeta a)).
    rewrite (bool_decide_eq_true_2 _ Hdel).
    unfold KalypsoApplicationReconciler.reconcileDelete, mbind, M_bind.
    assert (Hf1 : faults w1 = []) by (subst w1; by rewrite faults_touch, Hf).
    erewrite (Update_nofault (A := KalypsoApplication));
      [|by apply nextFault_nil|exact Ha].
    change (objKey (metaOf _)) with (ns, name).
    eexists. split; [reflexivity|]. unfold logInfo, put.
    change (Finalizers (metaOf (onUpdate a _))) with rest.
    change (DeletionTimestamp (metaOf (onUpdate a _))) with (DeletionTimestamp (appMeta a)).
    split_and!.
    + intros Hrest. rewrite bool_decide_eq_true_2 by done. reflexivity.
    + intros Hrest. rewrite bool_decide_eq_false_2 by (by intros [_ ?]).
      eexists. split; [reflexivity|]. done.
    + by case_bool_decide.
    + erewrite runCalls_app; [reflexivity|].
      by case_bool_decide.
Qed.

Lemma deletion_releases_witness :
  let req := ("kalypso-system", "recommendation-v1") in
  let deleting :=
    mkKalypsoTritonServer (withDeletionTimestamp (Some 5%nat) (srvMeta sampleServer))
      (srvSpec sampleServer) (srvStatus sampleServer) in
  let w := serverWorld deleting [] in
  servers (KalypsoTritonServerReconciler.Reconcile req w).2 = ∅.
Proof.
  intros req deleting w.
  destruct (deletion_releases req w eq_refl) as [Hs _].
  destruct (Hs deleting) as (w' & Hr & Hgone & _).
  - vm_compute. reflexivity.
  - discriminate.
  - rewrite Hr. cbn [snd]. rewrite Hgone by reflexivity. vm_compute. reflexivity.
Defined.

(** Without faults, the first reconcile of a live Project that does not
    hold the finalizer only adds it: the update appends the finalizer and
    changes nothing else of the Project, no request for a namespace, quota
    or limit range is sent, and the result asks for an immediate requeue.
    No child object exists before the finalizer that guards its cleanup is
    stored. *)
Theorem Project_finalizer_first range req w p :
  faults w = [] →
  projects w !! req = Some p →
  DeletionTimestamp (projMeta p) = None →
  KalypsoProjectReconciler.FinalizerName ∉ Finalizers (projMeta p) →
  ∃ w' p',
    KalypsoProjectReconciler.Reconcile range req w = ((mkResult true 0, None), w')
    ∧ projects w' = <[req := p']> (projects w)
    ∧ Finalizers (projMeta p')
      = (Finalizers (projMeta p) ++ [KalypsoProjectReconciler.FinalizerName])%list
    ∧ Labels (projMeta p') = Labels (projMeta p)
    ∧ projSpec p' = projSpec p ∧ projStatus p' = projStatus p
    ∧ namespaces w' = namespaces w ∧ quotas w' = quotas w
    ∧ limitRanges w' = limitRanges w
    ∧ runCalls w w' = [mkApiCall VUpdate KProject req None;
                       mkApiCall VGet KProject req None].
Proof.
  intros Hf Hp Hdel Hfin. destruct req as [ns name].
  unfold KalypsoProjectReconciler.Reconcile, mbind, M_bind.
  rewrite Get_nofault by (by apply nextFault_nil).
  change (store w) with (projects w). rewrite Hp.
  set (project := named (ns, name) p). set (w1 := touch _ w).
  change (DeletionTimestamp (projMeta project)) with (DeletionTimestamp (projMeta p)).
  rewrite bool_decide_eq_false_2 by (by rewrite Hdel; intros ?).
  unfold ContainsFinalizer.
  change (Finalizers (projMeta project)) with (Finalizers (projMeta p)).
  rewrite (bool_decide_eq_false_2 _ Hfin). cbn [negb].
  assert (Hf1 : faults w1 = []) by (subst w1; by rewrite faults_touch, Hf).
  assert (Hadd : AddFinalizer (projMeta project) KalypsoProjectReconciler.FinalizerName
                 = withFinalizers
                     (Finalizers (projMeta p) ++ [KalypsoProjectReconciler.FinalizerName])
                     (projMeta project)).
  { unfold AddFinalizer, ContainsFinalizer.
    change (Finalizers (projMeta project)) with (Finalizers (projMeta p)).
    by rewrite (bool_decide_eq_false_2 _ Hfin). }
  rewrite Hadd.
  erewrite (Update_nofault (A := KalypsoProject));
    [|by apply nextFault_nil|exact Hp].
  change (objKey (metaOf _)) with (ns, name).
  unfold put. rewrite bool_decide_eq_false_2.
  2:{ intros [Hd _]. by apply Hd. }
  eexists _, _. split; [reflexivity|]. split_and!; try done.
  by erewrite runCalls_app.
Qed.

Lemma Project_finalizer_first_witness :
  let req := ("kalypso-system", "demo") in
  let fresh :=
    mkKalypsoProject (mkObjectMeta "demo" "kalypso-system" ∅ [] None [])
      (projSpec demoProject) (mkKalypsoProjectStatus "" [] []) in
  let w := mkWorld {[req := fresh]} ∅ ∅ ∅ ∅ ∅ ∅ ∅ [] [] [] 0%nat in
  (KalypsoProjectReconciler.Reconcile sampleRange req w).1 = (mkResult true 0, None)
  ∧ namespaces (KalypsoProjectReconciler.Reconcile sampleRange req w).2 = ∅.
Proof.
  intros req fresh w.
  destruct (Project_finalizer_first sampleRange req w fresh)
    as (w' & p' & Hr & _ & _ & _ & _ & _ & Hn & _).
  - reflexivity.
  - vm_compute. reflexivity.
  - reflexivity.
  - apply not_elem_of_nil.
  - rewrite Hr. by split.
Defined.
End Finalizers.

(** * Reconciles that cannot fail *)

Section Total.
Context {A : Type} `{Object A}.
Hypothesis metaOf_setMeta : ∀ m (o : A), metaOf (setMeta m o) = m.

Lemma Create_nofault (o : A) w :
  nextFault w = None →
  store w !! objKey (metaOf o) = None →
  Create o w =
    (None, record (mkApiCall VCreate kindOf (objKey (metaOf o)) None)
             (setStore (<[objKey (metaOf o) := o]> (store w))
                (setFaults (tail (faults w)) w))).
Proof.
  intros Hn Hl. unfold Create, mbind, M_bind.
  rewrite request_nofault by done. rewrite store_setFaults, Hl. reflexivity.
Qed.

Lemma faults_put key (o : A) w : faults (put key o w) = faults w.
Proof. unfold put. case_bool_decide; by rewrite faults_setStore. Qed.

(** Without faults the fetch-create-or-update of a child succeeds. *)
Lemma fetchCreateOrUpdate_total key (desired : A) (update : A → A) w :
  faults w = [] →
  objKey (metaOf desired) = key →
  (∀ o, objKey (metaOf (update o)) = objKey (metaOf o)) →
  ∃ w', fetchCreateOrUpdate key desired update w = (None, w') ∧ faults w' = [].
Proof.
  intros Hf Hk Hu. unfold fetchCreateOrUpdate, mbind, M_bind.
  rewrite Get_nofault by (by apply nextFault_nil).
  set (w1 := touch _ w).
  assert (Hf1 : faults w1 = []) by (subst w1; by rewrite faults_touch, Hf).
  destruct (store w !! key) as [old|] eqn:Hl.
  - erewrite (Update_nofault _ w1 old).
    + eexists. split; [reflexivity|]. cbn [faults record].
      by rewrite faults_put, Hf1.
    + by apply nextFault_nil.
    + rewrite Hu, (named_key _ _ metaOf_setMeta). subst w1. unfold touch. by simpl_store.
  - change (IsNotFound ErrNotFound) with true. cbv iota.
    rewrite Create_nofault.
    + eexists. split; [reflexivity|]. cbn [faults record].
      by rewrite faults_setStore, Hf1.
    + by apply nextFault_nil.
    + rewrite Hk. subst w1. unfold touch. by simpl_store.
Qed.
End Total.

Section ProjectTotal.
Import KalypsoProjectReconciler.

Lemma reconcileEnvironments_total project envs created w :
  faults w = [] →
  ∃ created' w',
    reconcileEnvironments project envs created w = (inr created', w') ∧ faults w' = [].
Proof.
  revert created w. induction envs as [|[envName envSpec] rest IH]; intros created w Hf.
  { by eexists _, _. }
  rewrite reconcileEnvironments_cons. cbv zeta. unfold mbind, M_bind.
  change (if bool_decide (envNamespace envSpec = "") then _ else _)
    with (nsNameOf (Name (projMeta project)) (envName, envSpec)).
  set (nsName := nsNameOf _ _).
  destruct (fetchCreateOrUpdate_total (A := Namespace_) (H := Namespace_Object) (λ m o, eq_refl) ("", nsName)
    (mkNamespace (withLabels (childLabels project envName) (emptyMeta "" nsName)))
    (λ existingNs, mkNamespace (withLabels
       (<[ManagedByLabelKey := ManagedByLabelValue]>
          (<[EnvironmentLabelKey := envName]>
             (<[ProjectLabelKey := Name (projMeta project)]> (Labels (nsMeta existingNs)))))
       (nsMeta existingNs))) w Hf eq_refl (λ o, eq_refl)) as (w1 & H1 & Hf1).
  change (fetchCreateOrUpdate _ _ _ w) with (reconcileNamespace project envName nsName w) in H1.
  rewrite H1.
  set (quotaStep := match envResourceQuota envSpec with
                    | Some quotaSpec =>
                        reconcileResourceQuota project envName nsName quotaSpec
                    | None => mret None
                    end).
  assert (H2 : ∃ w2, quotaStep w1 = (None, w2) ∧ faults w2 = []).
  { subst quotaStep. destruct (envResourceQuota envSpec) as [q|]; [|by exists w1].
    apply (fetchCreateOrUpdate_total (A := ResourceQuota) (H := ResourceQuota_Object)
      (λ m o, eq_refl)
      (nsName, Name (projMeta project) +:+ "-quota")
      (mkResourceQuota
         (withLabels (childLabels project envName)
            (emptyMeta nsName (Name (projMeta project) +:+ "-quota")))
         (quotaHard q))
      (λ existingQuota, mkResourceQuota (rqMeta existingQuota) (quotaHard q)) w1 Hf1
      eq_refl (λ o, eq_refl)). }
  destruct H2 as (w2 & -> & Hf2).
  set (limitStep := match envLimitRange envSpec with
                    | Some limitSpec =>
                        reconcileLimitRange project envName nsName limitSpec
                    | None => mret None
                    end).
  assert (H3 : ∃ w3, limitStep w2 = (None, w3) ∧ faults w3 = []).
  { subst limitStep. destruct (envLimitRange envSpec) as [l|]; [|by exists w2].
    apply (fetchCreateOrUpdate_total (A := LimitRange) (H := LimitRange_Object)
      (λ m o, eq_refl)
      (nsName, Name (projMeta project) +:+ "-limits")
      (mkLimitRange
         (withLabels (childLabels project envName)
            (emptyMeta nsName (Name (projMeta project) +:+ "-limits")))
         (lrsLimits l))
      (λ existingLimit, mkLimitRange (lrMeta existingLimit) (lrsLimits l)) w2 Hf2
      eq_refl (λ o, eq_refl)). }
  destruct H3 as (w3 & -> & Hf3).
  by apply IH.
Qed.


End ProjectTotal.

Section UpsertTotal.
Context {A : Type} `{Object A} `{EqDecision A}.
Hypothesis metaOf_setMeta : ∀ m (o : A), metaOf (setMeta m o) = m.

(** Without faults [CreateOrUpdate] succeeds when the mutation does. *)
Lemma CreateOrUpdate_total (fresh : A) (mutate : A → error + A) w :
  faults w = [] →
  (∀ o o', mutate o = inr o' → objKey (metaOf o') = objKey (metaOf o)) →
  (∃ o', mutate fresh = inr o') →
  (∀ d, store w !! objKey (metaOf fresh) = Some d →
        ∃ o', mutate (named (objKey (metaOf fresh)) d) = inr o') →
  ∃ w', CreateOrUpdate fresh mutate w = (None, w') ∧ faults w' = [].
Proof.
  intros Hf Hk [o1 Hfresh] Hexisting. unfold CreateOrUpdate, mbind, M_bind.
  rewrite Get_nofault by (by apply nextFault_nil).
  set (key := objKey (metaOf fresh)) in *. set (w1 := touch _ w).
  assert (Hf1 : faults w1 = []) by (subst w1; by rewrite faults_touch, Hf).
  destruct (store w !! key) as [d|] eqn:Hl.
  - destruct (Hexisting d eq_refl) as [o' Ho']. rewrite Ho'.
    case_bool_decide; [by exists w1|].
    erewrite (Update_nofault _ w1 d).
    + eexists. split; [reflexivity|]. cbn [faults record]. by rewrite faults_put, Hf1.
    + by apply nextFault_nil.
    + rewrite (Hk _ _ Ho'), (named_key _ _ metaOf_setMeta).
      subst w1. unfold touch. by simpl_store.
  - change (IsNotFound ErrNotFound) with true. cbv iota. rewrite Hfresh.
    rewrite Create_nofault.
    + eexists. split; [reflexivity|]. cbn [faults record].
      by rewrite faults_setStore, Hf1.
    + by apply nextFault_nil.
    + rewrite (Hk _ _ Hfresh). subst w1. unfold touch. by simpl_store.
Qed.
End UpsertTotal.

Section ServerTotal.
Import KalypsoTritonServerReconciler.

Lemma SetControllerReference_total kind name m :
  (∀ x, List.find (λ x, ownerController x) (OwnerReferences m) = Some x →
        sameOwner x (mkOwnerReference kind name true) = true) →
  ∃ m', SetControllerReference kind name m = inr m'.
Proof.
  intros Hown. unfold SetControllerReference.
  destruct (List.find _ _) as [x|]; [|by eexists].
  rewrite (Hown x eq_refl). by eexists.
Qed.


End ServerTotal.

(** * A live Project loses no namespace *)

Section NoDelete.
Import KalypsoProjectReconciler.

Lemma fetchCreateOrUpdate_noDeletion {A} `{Object A} key (desired : A) update :
  (∀ m (o : A), metaOf (setMeta m o) = m) →
  sends noDeletion (fetchCreateOrUpdate key desired update) (λ _, True).
Proof.
  intros Hm. unfold fetchCreateOrUpdate.
  eapply sends_bind; [by apply sends_Get|]. intros [err|existing] _.
  - destruct (IsNotFound err); [by apply sends_Create|by apply sends_ret].
  - by apply sends_Update.
Qed.

Lemma setFailedStatus_noDeletion project message :
  sends noDeletion (setFailedStatus project message) (λ _, True).
Proof.
  unfold setFailedStatus.
  eapply sends_bind; [apply sends_Now|]. intros now _. cbv zeta.
  eapply sends_bind; [by apply sends_StatusUpdate|]. intros ? ?. by apply sends_ret.
Qed.

Lemma reconcileEnvironments_noDeletion project envs created :
  sends noDeletion (reconcileEnvironments project envs created) (λ _, True).
Proof.
  revert created. induction envs as [|[envName envSpec] rest IH]; intros created.
  { by apply sends_ret. }
  cbn [reconcileEnvironments]. cbv zeta.
  eapply sends_bind; [by apply (fetchCreateOrUpdate_noDeletion (A := Namespace_))|].
  intros [err|] _.
  { eapply sends_bind; [apply sends_logError|]. intros _ _.
    eapply sends_bind; [apply setFailedStatus_noDeletion|]. intros ? ?. by apply sends_ret. }
  eapply sends_bind.
  { instantiate (1 := λ _, True).
    destruct (envResourceQuota envSpec) as [quotaSpec|]; [|by apply sends_ret].
    by apply (fetchCreateOrUpdate_noDeletion (A := ResourceQuota)). }
  intros [err|] _.
  { eapply sends_bind; [apply sends_logError|]. intros _ _.
    eapply sends_bind; [apply setFailedStatus_noDeletion|]. intros ? ?. by apply sends_ret. }
  eapply sends_bind.
  { instantiate (1 := λ _, True).
    destruct (envLimitRange envSpec) as [limitSpec|]; [|by apply sends_ret].
    by apply (fetchCreateOrUpdate_noDeletion (A := LimitRange)). }
  intros [err|] _; [|by apply IH].
  eapply sends_bind; [apply sends_logError|]. intros _ _.
  eapply sends_bind; [apply setFailedStatus_noDeletion|]. intros ? ?. by apply sends_ret.
Qed.

(** The reconcile of a Project that is not being deleted (or is not
    there) sends no deletion, whatever faults occur: a live Project never
    loses a namespace to its reconciler. *)
Theorem Project_live_deletes_nothing range req w :
  (∀ p, projects w !! req = Some p → DeletionTimestamp (projMeta p) = None) →
  Forall (λ c, callVerb c ≠ VDelete) (runCalls w (Reconcile range req w).2).
Proof.
  intros Hlive.
  assert (Hrun : ∃ run, calls (Reconcile range req w).2 = (run ++ calls w)%list
                        ∧ Forall noDeletion run).
  { unfold Reconcile.
    match goal with |- context [(Get req ≫= ?k) w] => set (k0 := k) end.
    change ((Get req ≫= k0) w) with (let '(r, w1) := Get req w in k0 r w1).
    destruct (Get req w) as [[err|project] w1] eqn:Hg; subst k0; cbv beta iota.
    { apply Get_inv in Hg as [-> _]. eexists [_].
      split; [by destruct (IsNotFound err)|]. by repeat constructor. }
    apply Get_inv in Hg as [-> Ho]. destruct (Ho _ eq_refl) as (p & Hp & ->).
    change (DeletionTimestamp (projMeta (named req p))) with (DeletionTimestamp (projMeta p)).
    rewrite bool_decide_eq_false_2 by (by rewrite (Hlive p Hp); intros ?).
    set (w1 := touch _ w).
    assert (Hrest : ∀ (m : M (Result * option error)),
              sends noDeletion m (λ _, True) →
              ∃ run, calls (m w1).2 = (run ++ calls w)%list ∧ Forall noDeletion run).
    { intros m Hm. destruct (Hm w1) as [(run & Hc & Hall) _].
      eexists (run ++ [_])%list. split.
      - rewrite Hc. subst w1. cbn. by rewrite <- app_assoc.
      - apply Forall_app. split; [done|]. by repeat constructor. }
    destruct (negb _).
    { apply (Hrest (_ ≫= _)).
      eapply sends_bind; [by apply sends_Update|]. intros [?|] _; by apply sends_ret. }
    destruct (bool_decide _).
    { apply (Hrest (_ ≫= _)). cbv zeta.
      eapply sends_bind; [by apply sends_StatusUpdate|]. intros [?|] _; by apply sends_ret. }
    apply (Hrest (_ ≫= _)).
    eapply sends_bind; [apply reconcileEnvironments_noDeletion|].
    intros [ret|created] _; [by apply sends_ret|].
    eapply sends_bind; [apply sends_Now|]. intros now _. cbv zeta.
    eapply sends_bind; [by apply sends_StatusUpdate|].
    intros [?|] _; [by apply sends_ret|].
    eapply sends_bind; [apply sends_logInfo|]. intros _ _. by apply sends_ret. }
  destruct Hrun as (run & Hc & Hall). by rewrite (runCalls_app _ _ _ Hc).
Qed.

Lemma Project_live_deletes_nothing_witness :
  let req := ("kalypso-system", "demo") in
  let w := demoWorld [None; None; Some ErrConflict] in
  Forall (λ c, callVerb c ≠ VDelete) (runCalls w (Reconcile sampleRange req w).2).
Proof.
  intros req w. apply (Project_live_deletes_nothing sampleRange req w).
  intros p Hp. change (projects w !! req) with (Some demoProject) in Hp.
  by injection Hp as <-.
Defined.
End NoDelete.

(** * The defaults of the workload *)

Section ServerDefaults.
Import KalypsoTritonServerReconciler.

(** After a successful reconcile the Deployment runs one container,
    [tritonserver], with the image and tag of the spec, or
    [nvcr.io/nvidia/tritonserver] and [24.12-py3] where the spec leaves
    them empty; it asks for the replicas of the spec, or one, and carries
    the resources of the spec, or none. *)
Theorem Server_deployment_defaults req w ret w' :
  Reconcile req w = (ret, w') →
  logs w' = LogInfo "Successfully reconciled KalypsoTritonServer" :: logs w →
  settled (deployments w) →
  settled (services w) →
  ∃ a d c,
    let config := srvTritonConfig (srvSpec a) in
    servers w' !! req = Some a
    ∧ deployments w' !! (req.1, req.2 +:+ "-deploy") = Some d
    ∧ ptContainers (dTemplate d) = [c]
    ∧ cName c = "tritonserver"
    ∧ cImage c = (if bool_decide (tcImage config = "")
                  then "nvcr.io/nvidia/tritonserver" else tcImage config)
                 +:+ ":" +:+
                 (if bool_decide (tcTag config = "") then "24.12-py3" else tcTag config)
    ∧ dReplicas d = Some (match srvReplicas (srvSpec a) with Some n => n | None => 1 end)
    ∧ cResources c = match srvResources (srvSpec a) with
                     | Some r => r
                     | None => mkResourceRequirements ∅ ∅
                     end.
Proof.
  intros Hr Hl Hsd Hss.
  destruct (Server_success_children _ _ _ _ Hr Hl Hsd Hss)
    as (a & app & d & sv & Ha & Hd & _ & Ht & _ & Hrep & _).
  cbv zeta in *. exists a, d, (tritonContainer (named req a) app).
  rewrite Ht, Hrep. split_and!; try done.
  unfold tritonContainer. cbn [cImage].
  change (srvSpec (named req a)) with (srvSpec a).
  by repeat case_bool_decide.
Qed.

Lemma Server_deployment_defaults_witness :
  let req := ("kalypso-system", "recommendation-v1") in
  let run := Reconcile req (serverWorld sampleServer []) in
  ∃ d c, deployments run.2 !! (req.1, req.2 +:+ "-deploy") = Some d
         ∧ ptContainers (dTemplate d) = [c]
         ∧ cImage c = "nvcr.io/nvidia/tritonserver:24.12-py3"
         ∧ dReplicas d = Some 2.
Proof.
  intros req run.
  destruct (Server_deployment_defaults req (serverWorld sampleServer []) run.1 run.2)
    as (a & d & c & Ha & Hd & Hc & _ & Himg & Hrep & _).
  - exact (surjective_pairing _).
  - vm_compute. reflexivity.
  - intros k o Hk. change (deployments _) with (∅ : gmap Key Deployment) in Hk.
    rewrite lookup_empty in Hk. discriminate Hk.
  - intros k o Hk. change (services _) with (∅ : gmap Key Service) in Hk.
    rewrite lookup_empty in Hk. discriminate Hk.
  - assert (Hspec : srvSpec a = srvSpec sampleServer).
    { assert (Hs : srvSpec <$> servers run.2 !! req = Some (srvSpec sampleServer))
        by (vm_compute; reflexivity).
      rewrite Ha in Hs. by injection Hs. }
    cbv zeta in Himg. rewrite Hspec in Himg, Hrep. exists d, c.
    split; [exact Hd|]. split; [exact Hc|]. split; [exact Himg|exact Hrep].
Defined.
End ServerDefaults.

(** * The first phase *)

Section FirstPhase.

(** Without faults, the reconcile of a live resource that holds the
    finalizer but has no phase yet only writes the first phase, through
    the status subresource: Provisioning for a Project, Pending for an
    Application and for a Server.  Metadata, spec and the rest of the
    status stay as they are, and the result asks for an immediate
    requeue. *)
Theorem first_phase_written range req w :
  faults w = [] →
  (∀ p, projects w !! req = Some p →
        DeletionTimestamp (projMeta p) = None →
        KalypsoProjectReconciler.FinalizerName ∈ Finalizers (projMeta p) →
        projPhase (projStatus p) = "" →
        ∃ w', KalypsoProjectReconciler.Reconcile range req w = ((mkResult true 0, None), w')
              ∧ projects w'
                = <[req := mkKalypsoProject (projMeta p) (projSpec p)
                             (mkKalypsoProjectStatus ProjectPhaseProvisioning
                                (projConditions (projStatus p))
                                (projCreatedNamespaces (projStatus p)))]> (projects w)
              ∧ runCalls w w' = [mkApiCall VStatusUpdate KProject req None;
                                 mkApiCall VGet KProject req None])
  ∧ (∀ a, applications w !! req = Some a →
          DeletionTimestamp (appMeta a) = None →
          KalypsoApplicationReconciler.ApplicationFinalizerName ∈ Finalizers (appMeta a) →
          appPhase (appStatus a) = "" →
          ∃ w', KalypsoApplicationReconciler.Reconcile req w = ((mkResult true 0, None), w')
                ∧ applications w'
                  = <[req := mkKalypsoApplication (appMeta a) (appSpec a)
                               (mkKalypsoApplicationStatus ApplicationPhasePending
                                  (appActiveModels (appStatus a))
                                  (appGatewayEndpoint (appStatus a))
                                  (appConditions (appStatus a)))]> (applications w)
                ∧ runCalls w w' = [mkApiCall VStatusUpdate KApplication req None;
                                   mkApiCall VGet KApplication req None])
  ∧ (∀ a, servers w !! req = Some a →
          DeletionTimestamp (srvMeta a) = None →
          KalypsoTritonServerReconciler.TritonServerFinalizerName ∈ Finalizers (srvMeta a) →
          srvPhase (srvStatus a) = "" →
          ∃ w', KalypsoTritonServerReconciler.Reconcile req w = ((mkResult true 0, None), w')
                ∧ servers w'
                  = <[req := mkKalypsoTritonServer (srvMeta a) (srvSpec a)
                               (mkKalypsoTritonServerStatus TritonServerPhasePending
                                  (srvDeploymentName (srvStatus a))
                                  (srvServiceEndpoint (srvStatus a))
                                  (srvAvailableReplicas (srvStatus a))
                                  (srvMessage (srvStatus a))
                                  (srvConditions (srvStatus a)))]> (servers w)
                ∧ runCalls w w' = [mkApiCall VStatusUpdate KTritonServer req None;
                                   mkApiCall VGet KTritonServer req None]).
Proof.
  intros Hf. destruct req as [ns name]. split_and!.
  - intros p Hp Hdel Hfin Hph.
    unfold KalypsoProjectReconciler.Reconcile, mbind, M_bind.
    rewrite Get_nofault by (by apply nextFault_nil).
    change (store w) with (projects w). rewrite Hp.
    set (project := named (ns, name) p). set (w1 := touch _ w).
    change (DeletionTimestamp (projMeta project)) with (DeletionTimestamp (projMeta p)).
    rewrite bool_decide_eq_false_2 by (by rewrite Hdel; intros ?).
    unfold ContainsFinalizer.
    change (Finalizers (projMeta project)) with (Finalizers (projMeta p)).
    rewrite (bool_decide_eq_true_2 _ Hfin). cbn [negb].
    change (projPhase (projStatus project)) with (projPhase (projStatus p)).
    rewrite (bool_decide_eq_true_2 _ Hph). cbv zeta.
    assert (Hf1 : faults w1 = []) by (subst w1; by rewrite faults_touch, Hf).
    erewrite (StatusUpdate_nofault (A := KalypsoProject));
      [|by apply nextFault_nil|exact Hp].
    eexists. split; [reflexivity|]. split; [done|]. by erewrite runCalls_app.
  - intros a Ha Hdel Hfin Hph.
    unfold KalypsoApplicationReconciler.Reconcile, mbind, M_bind.
    rewrite Get_nofault by (by apply nextFault_nil).
    change (store w) with (applications w). rewrite Ha.
    set (app := named (ns, name) a). set (w1 := touch _ w).
    change (DeletionTimestamp (appMeta app)) with (DeletionTimestamp (appMeta a)).
    rewrite bool_decide_eq_false_2 by (by rewrite Hdel; intros ?).
    unfold ContainsFinalizer.
    change (Finalizers (appMeta app)) with (Finalizers (appMeta a)).
    rewrite (bool_decide_eq_true_2 _ Hfin). cbn [negb].
    change (appPhase (appStatus app)) with (appPhase (appStatus a)).
    rewrite (bool_decide_eq_true_2 _ Hph). cbv zeta.
    assert (Hf1 : faults w1 = []) by (subst w1; by rewrite faults_touch, Hf).
    erewrite (StatusUpdate_nofault (A := KalypsoApplication));
      [|by apply nextFault_nil|exact Ha].
    eexists. split; [reflexivity|]. split; [done|]. by erewrite runCalls_app.
  - intros a Ha Hdel Hfin Hph.
    unfold KalypsoTritonServerReconciler.Reconcile, mbind, M_bind.
    rewrite Get_nofault by (by apply nextFault_nil).
    change (store w) with (servers w). rewrite Ha.
    set (server := named (ns, name) a). set (w1 := touch _ w).
    change (DeletionTimestamp (srvMeta server)) with (DeletionTimestamp (srvMeta a)).
    rewrite bool_decide_eq_false_2 by (by rewrite Hdel; intros ?).
    unfold ContainsFinalizer.
    change (Finalizers (srvMeta server)) with (Finalizers (srvMeta a)).
    rewrite (bool_decide_eq_true_2 _ Hfin). cbn [negb].
    change (srvPhase (srvStatus server)) with (srvPhase (srvStatus a)).
    rewrite (bool_decide_eq_true_2 _ Hph). cbv zeta.
    assert (Hf1 : faults w1 = []) by (subst w1; by rewrite faults_touch, Hf).
    erewrite (StatusUpdate_nofault (A := KalypsoTritonServer));
      [|by apply nextFault_nil|exact Ha].
    eexists. split; [reflexivity|]. split; [done|]. by erewrite runCalls_app.
Qed.

Lemma first_phase_written_witness :
  let req := ("kalypso-test", "logging-test-server") in
  let server :=
    mkKalypsoTritonServer
      (withFinalizers [KalypsoTritonServerReconciler.TritonServerFinalizerName]
         (srvMeta loggingTestServer))
      (srvSpec loggingTestServer) (mkKalypsoTritonServerStatus "" "" "" 0 "" []) in
  let w := mkWorld ∅ ∅ {[req := server]} ∅ ∅ ∅ ∅ ∅ [] [] [] 0%nat in
  (srvPhase ∘ srvStatus) <$> servers (KalypsoTritonServerReconciler.Reconcile req w).2 !! req
  = Some TritonServerPhasePending.
Proof.
  intros req server w.
  destruct (first_phase_written sampleRange req w eq_refl) as (_ & _ & Hs).
  destruct (Hs server) as (w' & Hr & Hst & _).
  - vm_compute. reflexivity.
  - reflexivity.
  - apply list_elem_of_here.
  - reflexivity.
  - rewrite Hr. cbn [snd]. rewrite Hst, lookup_insert_eq. reflexivity.
Defined.
End FirstPhase.
